(** * Printago Folder Watch: the mirror-sync engine of [printago_watch.py]

    A shallow embedding of [PrintagoClient] (folder cache, [create_folder],
    [delete_folder], [delete_file], [upload_file], [_sanitize_path]) and of
    [FileWatchHandler] ([initial_sync], the event callbacks, the queue worker),
    followed by the properties of the synchronisation specification.

    Conventions.
    - A Python [str] is a list of characters; [str "X/Y"] writes a literal.
    - A Python [dict] is an association list in insertion order with unique
      keys ([Dict]); a Python [set] is a [gset] whose iteration order is an
      explicit parameter ([SetOrder]), since CPython iterates in hash order.
    - The remote service and the file system are parameters: the remote is a
      state machine answering one request at a time ([RemoteStore]); every
      request the client sends is appended to a trace.
    - An exception is a value of a sum type; state reached before the
      exception is kept, as in Python. *)

From Stdlib Require Import Ascii String ZArith Lia.
From stdpp Require Import base decidable option list sets gmap strings sorting.

Local Open Scope list_scope.

(** ** Python strings *)

Abbreviation pystr := (list ascii).

Definition str (s : string) : pystr := list_ascii_of_string s.

Module Py.

(** The backslash and the double quote, by code point. *)
Definition backslash : ascii := ascii_of_nat 92.
Definition dquote : ascii := ascii_of_nat 34.

(** [s.replace(old, new)] for a non-empty [old]: one left-to-right pass over
    non-overlapping occurrences. [skip] counts the characters of a matched
    occurrence still to be dropped. *)
Fixpoint replace_from (old new : pystr) (skip : nat) (s : pystr) : pystr :=
  match s with
  | [] => []
  | c :: s' =>
      match skip with
      | S k => replace_from old new k s'
      | O =>
          if decide (old `prefix_of` s)
          then new ++ replace_from old new (length old - 1) s'
          else c :: replace_from old new 0 s'
      end
  end.

Definition replace (old new s : pystr) : pystr := replace_from old new 0 s.

(** [s.lstrip(chars)] *)
Fixpoint lstrip (chars s : pystr) : pystr :=
  match s with
  | [] => []
  | c :: s' => if decide (c ∈ chars) then lstrip chars s' else s
  end.

(** [s.rstrip(chars)] *)
Definition rstrip (chars s : pystr) : pystr :=
  reverse (lstrip chars (reverse s)).

(** [s.split(sep)] for a one-character separator: never the empty list. *)
Fixpoint split (sep : ascii) (s : pystr) : list pystr :=
  match s with
  | [] => [[]]
  | c :: s' =>
      if decide (c = sep) then [] :: split sep s'
      else match split sep s' with
           | [] => [[c]]
           | w :: ws => (c :: w) :: ws
           end
  end.

(** [s.lower()] on ASCII letters *)
Definition lower_char (c : ascii) : ascii :=
  let n := nat_of_ascii c in
  if bool_decide (65 ≤ n ≤ 90) then ascii_of_nat (n + 32) else c.
Definition lower (s : pystr) : pystr := map lower_char s.

(** [sep.join(parts)] *)
Fixpoint join (sep : pystr) (parts : list pystr) : pystr :=
  match parts with
  | [] => []
  | [w] => w
  | w :: ws => w ++ sep ++ join sep ws
  end.

(** [s.startswith(p)] *)
Definition startswith (s p : pystr) : bool := bool_decide (p `prefix_of` s).

(** Truthiness of a string: [if s:] *)
Definition truthy (s : pystr) : bool :=
  match s with [] => false | _ => true end.

(** [sub in s] *)
Definition substring (sub s : pystr) : Prop :=
  ∃ a b, s = a ++ sub ++ b.

(** [sub in s], computed. *)
Fixpoint contains (sub s : pystr) : bool :=
  bool_decide (sub `prefix_of` s)
  || match s with [] => false | _ :: s' => contains sub s' end.

(** The characters [c.isspace()] holds of, among the code points below
    256: what [s.strip()] removes at both ends. *)
Definition whitespace : pystr :=
  ascii_of_nat <$> [9; 10; 11; 12; 13; 28; 29; 30; 31; 32; 133; 160].

Definition strip (s : pystr) : pystr :=
  rstrip whitespace (lstrip whitespace s).

(** [s.split(sep, 1)] of a string that holds [sep]: what is before the
    first [sep], and what is after it. *)
Fixpoint split_once (sep : ascii) (s : pystr) : pystr * pystr :=
  match s with
  | [] => ([], [])
  | c :: s' =>
      if decide (c = sep) then ([], s')
      else let '(before, after) := split_once sep s' in (c :: before, after)
  end.

End Py.

(** ** [os.path], POSIX flavour ([posixpath]) *)

Module PosixPath.

Definition sep : ascii := "/"%char.
Definition extsep : ascii := "."%char.

(** The characters after the last [sep] ([p[p.rfind('/')+1:]]). *)
Fixpoint after_last_sep (p : pystr) : pystr :=
  match p with
  | [] => []
  | c :: p' =>
      if decide (sep ∈ p) then
        (if decide (sep ∈ p') then after_last_sep p' else p')
      else p
  end.

(** The characters up to and including the last [sep] ([p[:p.rfind('/')+1]]). *)
Definition upto_last_sep (p : pystr) : pystr :=
  take (length p - length (after_last_sep p)) p.

Definition basename (p : pystr) : pystr := after_last_sep p.

Definition dirname (p : pystr) : pystr :=
  let head := upto_last_sep p in
  if Py.truthy head && negb (bool_decide (head = replicate (length head) sep))
  then Py.rstrip [sep] head
  else head.

(** [os.path.join(a, b)] *)
Definition join (a b : pystr) : pystr :=
  if Py.startswith b [sep] then b
  else if negb (Py.truthy a) || bool_decide ([sep] `suffix_of` a) then a ++ b
  else a ++ [sep] ++ b.

(** [genericpath._splitext]: the extension starts at the last dot of the
    last component, unless that component consists of leading dots up to it. *)
Fixpoint last_dot (name : pystr) : option nat :=
  match name with
  | [] => None
  | c :: name' =>
      match last_dot name' with
      | Some i => Some (S i)
      | None => if decide (c = extsep) then Some 0 else None
      end
  end.

Definition splitext (p : pystr) : pystr * pystr :=
  let dir := upto_last_sep p in
  let name := after_last_sep p in
  match last_dot name with
  | Some i =>
      if bool_decide (take i name = replicate i extsep)
      then (p, [])
      else (dir ++ take i name, drop i name)
  | None => (p, [])
  end.

End PosixPath.

(** ** Python dictionaries (insertion ordered) *)

Module Dict.
Section Dict.
Context {K V : Type} `{EqDecision K}.

Definition dict := list (K * V).

Definition empty : dict := [].

(** [d.get(k)]; [None] when the key is absent. *)
Fixpoint get (d : dict) (k : K) : option V :=
  match d with
  | [] => None
  | (k', v) :: d' => if decide (k' = k) then Some v else get d' k
  end.

(** [k in d] *)
Definition contains (d : dict) (k : K) : bool :=
  match get d k with Some _ => true | None => false end.

(** [d[k] = v]: an existing key keeps its position, a new key goes last. *)
Fixpoint set (d : dict) (k : K) (v : V) : dict :=
  match d with
  | [] => [(k, v)]
  | (k', v') :: d' =>
      if decide (k' = k) then (k, v) :: d' else (k', v') :: set d' k v
  end.

Definition keys (d : dict) : list K := d.*1.
Definition items (d : dict) : list (K * V) := d.

(** The representation invariant of a dictionary. *)
Definition wf (d : dict) : Prop := NoDup (keys d).

End Dict.
Arguments dict : clear implicits.
End Dict.

Abbreviation dict := Dict.dict.

(** ** Remote data and the wire *)

(** An identifier as it appears in JSON: a string, or [None] for a missing or
    null field. *)
Abbreviation pyid := (option pystr).

(** [if folder_id:] *)
Definition id_truthy (i : pyid) : bool :=
  match i with Some s => Py.truthy s | None => false end.

(** The [name] member of a part object: absent, [null], or a string. *)
Inductive Name :=
| NameAbsent
| NameNull
| NameStr (s : pystr).

(** A part object of a listing, read through [part.get('id')],
    [part.get('folderId')] and, for its name, through [part.get('name')]
    and [part.get('name', '')], which differ on an absent member. *)
Record Part := {
  get_id : pyid;
  name_member : Name;
  get_folderId : pyid;
}.

(** [part.get('name')] *)
Definition get_name (part : Part) : option pystr :=
  match part.(name_member) with
  | NameStr s => Some s
  | NameAbsent | NameNull => None
  end.

(** [part.get('name', '')]: the default stands in for an absent member only,
    a [null] name is read as [None]. *)
Definition get_name_or_empty (part : Part) : option pystr :=
  match part.(name_member) with
  | NameStr s => Some s
  | NameAbsent => Some []
  | NameNull => None
  end.

(** A folder object of a listing: [f['id']], [f['name']],
    [f.get('parentId')]. *)
Record Folder := {
  folder_id : pyid;
  folder_name : pystr;
  folder_parentId : pyid;
}.

(** The JSON body of [POST /v1/parts]; the constant fields are left out. *)
Record PartPayload := {
  payload_name : pystr;
  payload_type : pystr;
  payload_fileUris : list pystr;
  payload_fileHashes : list pystr;
  payload_folderId : pyid;
}.

(** The requests the client sends. *)
Inductive Request :=
| GetFolders
| GetParts
| PostFolder (name : pystr) (parentId : pyid)
| DeleteFolderReq (folder_id : pyid)
| GetPartsByName (name : pystr)
| DeletePartReq (part_id : pyid)
| PostSignedUploadUrls (filename : pystr)
| PutUpload (upload_url : pystr) (file_content : list Byte.byte)
| PostPart (payload : PartPayload).

(** The answer to a request, as the decoded JSON body the client gets.
    - [Raises]: the call or the decoding of its body raises (time-out,
      connection error, [raise_for_status], undecodable JSON).
    - [OkEmpty]: the empty JSON object. A loop over it runs through no
      element, [.get] finds no member in it, and it is not a list.
    - [OkFolder id]: a JSON object that is not empty and has no
      [signedUrls]; [id] is what [.get('id')] reads in it. A loop over it
      yields its keys, which are strings.
    - [OkFolders], [OkParts]: a JSON list of folder or part objects. A
      list has no [.get] and no string index.
    - [OkSigned]: the object with [signedUrls[0]] holding [uploadUrl] and
      [path], and no [id].
    Each method reads these as Python does and raises where Python raises.
    A method that ignores the body ([DELETE], the storage [PUT],
    [POST /v1/parts]) takes every answer but [Raises] as success. A list
    is taken to hold the objects the request asked for: parts in answer to
    a listing of folders, or folders in answer to a listing of parts, are
    not modelled, and the methods do not read them. *)
Inductive Response :=
| Raises
| OkEmpty
| OkFolder (id : pyid)
| OkFolders (folders : list Folder)
| OkParts (parts : list Part)
| OkSigned (uploadUrl path : pystr).

(** The remote service: a state machine that answers one request at a time. *)
Class RemoteStore (R : Type) := respond : R → Request → Response * R.

(** ** The local file system

    What the program observes of the disk through [os.path], [open] and
    [pathlib]; [None] stands for the exception the call raises. *)
Record FileSystem := {
  fs_exists : pystr → bool;
  fs_getsize : pystr → option Z;
  fs_read : pystr → option (list Byte.byte);
  (** [Path(p).resolve().is_relative_to(watch_path.resolve())] *)
  fs_is_relative_to_watch : pystr → option bool;
  (** [str(Path(p).relative_to(watch_path))] *)
  fs_relative_to_watch : pystr → option pystr;
  (** What [os.walk(watch_path)] yields, as pairs [(root, files)], once
      [initial_sync] has pruned the hidden directories from [dirs]. *)
  fs_walk : list (pystr * list pystr);
}.

(** ** Exceptions *)

(** [RequestError] stands for what an exchange raises: the exception of
    [requests], or the one of reading a body of the wrong shape inside the
    method that sent the request. *)
Inductive Error :=
| RequestError
| AttributeError
| OSError
| RecursionError
| FailedToListFolders (cause : Error)
| FailedToListParts (cause : Error)
| ValueError
| FailedToCreateFolder (folder_path : pystr) (cause : Error)
| FailedToDeleteFolder (cause : Error)
| UploadFailedError (cause : Error)
| DeleteFailedError (cause : Error).

Inductive result (A : Type) :=
| Return (a : A)
| Raise (e : Error).
Arguments Return {A} a.
Arguments Raise {A} e.

(** ** [load_env]

    The lines of [.env] as iterating over the open file yields them, or
    [None] when there is no such file. *)

Definition load_env_line (env_vars : dict pystr pystr) (line : pystr)
    : dict pystr pystr :=
  let line := Py.strip line in
  if Py.truthy line && negb (Py.startswith line (str "#"))
     && bool_decide ("="%char ∈ line)
  then
    let '(key, value) := Py.split_once "=" line in
    Dict.set env_vars (Py.strip key) (Py.strip value)
  else env_vars.

Definition load_env (dotenv : option (list pystr)) : dict pystr pystr :=
  match dotenv with
  | Some lines => foldl load_env_line Dict.empty lines
  | None => Dict.empty
  end.

(** ** [PrintagoClient] *)

Module PrintagoClient.
Section Client.
Context {R : Type} `{RemoteStore R}.

Record Client := {
  folder_cache : dict pystr pyid;
  remote : R;
  trace : list Request;
}.

Definition with_cache (c : Client) (fc : dict pystr pyid) : Client :=
  {| folder_cache := fc; remote := remote c; trace := trace c |}.

(** Methods run on the client and either return or raise; the client they
    leave behind is kept in both cases. *)
Definition M (A : Type) : Type := Client → result A * Client.

Definition ret {A} (a : A) : M A := λ c, (Return a, c).
Definition raise {A} (e : Error) : M A := λ c, (Raise e, c).
Definition bind {A B} (k : A → M B) (m : M A) : M B :=
  λ c, match m c with
       | (Return a, c') => k a c'
       | (Raise e, c') => (Raise e, c')
       end.
#[global] Instance M_ret : MRet M := @ret.
#[global] Instance M_bind : MBind M := @bind.
(** [try: m except Exception as e: raise Exception(wrap e)] *)
Definition rewrap {A} (wrap : Error → Error) (m : M A) : M A :=
  λ c, match m c with
       | (Return a, c') => (Return a, c')
       | (Raise e, c') => (Raise (wrap e), c')
       end.

(** One HTTP exchange: the request goes on the trace, the remote moves. *)
Definition send (q : Request) : M Response :=
  λ c, let '(resp, r') := respond (remote c) q in
       (Return resp,
        {| folder_cache := folder_cache c; remote := r'; trace := trace c ++ [q] |}).

Definition get_cache : M (dict pystr pyid) := λ c, (Return (folder_cache c), c).
Definition put_cache (fc : dict pystr pyid) : M unit :=
  λ c, (Return tt, with_cache c fc).

(** The two maps [list_folders] builds from the listing. *)
Definition id_to_folder_of (folders : list Folder) : dict pyid Folder :=
  foldl (λ m f, Dict.set m f.(folder_id) f) Dict.empty folders.

Definition id_to_children_of (folders : list Folder) : dict pyid (list pyid) :=
  foldl (λ m folder,
           let parent_id := folder.(folder_parentId) in
           if id_truthy parent_id then
             Dict.set m parent_id
               (default [] (Dict.get m parent_id) ++ [folder.(folder_id)])
           else m)
        Dict.empty folders.

(** The nested [build_path]; [depth] is what is left of the interpreter's
    recursion limit, and running out of it is a [RecursionError]. *)
Fixpoint build_path (depth : nat) (id_to_folder : dict pyid Folder)
    (id_to_children : dict pyid (list pyid))
    (folder_id : pyid) (path_parts : list pystr) : M unit :=
  match depth with
  | O => raise RecursionError
  | S depth' =>
      match Dict.get id_to_folder folder_id with
      | None => ret tt
      | Some folder =>
          let current_parts := path_parts ++ [folder.(folder_name)] in
          let full_path := Py.join (str "/") current_parts in
          fc ← get_cache;
          _ ← put_cache (Dict.set fc full_path folder_id);
          foldl (λ (acc : M unit) child_id,
                   _ ← acc;
                   build_path depth' id_to_folder id_to_children
                     child_id current_parts)
                (ret tt)
                (default [] (Dict.get id_to_children folder_id))
      end
  end.

Definition list_folders (recursion_limit : nat) : M (list Folder) :=
  rewrap FailedToListFolders
    (resp ← send GetFolders;
     match resp with
     | OkFolders folders =>
         let id_to_folder := id_to_folder_of folders in
         let id_to_children := id_to_children_of folders in
         _ ← foldl (λ (acc : M unit) folder,
                      _ ← acc;
                      if decide (folder.(folder_parentId) = None)
                      then build_path recursion_limit id_to_folder
                             id_to_children folder.(folder_id) []
                      else ret tt)
                   (ret tt) folders;
         ret folders
     | OkEmpty =>
         (* every loop runs through no element *)
         ret []
     | _ => raise RequestError
     end).

(** [list_all_parts] returns the decoded body as it is. *)
Definition list_all_parts : M Response :=
  rewrap FailedToListParts
    (resp ← send GetParts;
     match resp with
     | Raises => raise RequestError
     | body => ret body
     end).

(** [folder_data.get('id')] on the decoded body of a folder creation;
    [None] when there is no body or it has no [.get]. *)
Definition folder_data_id (resp : Response) : option pyid :=
  match resp with
  | OkFolder folder_id => Some folder_id
  | OkEmpty | OkSigned _ _ => Some None
  | Raises | OkFolders _ | OkParts _ => None
  end.

(** The [for i, part in enumerate(parts)] loop of [create_folder]. *)
Fixpoint create_folder_loop (parts : list pystr) (parent_id : pyid)
    (current_path : pystr) : M pyid :=
  match parts with
  | [] => ret parent_id
  | part :: parts' =>
      let current_path :=
        if Py.truthy current_path then current_path ++ str "/" ++ part
        else part in
      fc ← get_cache;
      match Dict.get fc current_path with
      | Some cached => create_folder_loop parts' cached current_path
      | None =>
          resp ← send (PostFolder part parent_id);
          match folder_data_id resp with
          | Some folder_id =>
              fc ← get_cache;
              _ ← put_cache (Dict.set fc current_path folder_id);
              create_folder_loop parts' folder_id current_path
          | None => raise RequestError
          end
      end
  end.

Definition create_folder (folder_path : pystr) : M pyid :=
  rewrap (FailedToCreateFolder folder_path)
    (fc ← get_cache;
     match Dict.get fc folder_path with
     | Some cached => ret cached
     | None => create_folder_loop (Py.split "/" folder_path) None []
     end).

Definition delete_folder (folder_id : pyid) : M bool :=
  rewrap FailedToDeleteFolder
    (resp ← send (DeleteFolderReq folder_id);
     match resp with
     | Raises => raise RequestError
     | _ =>
         fc ← get_cache;
         _ ← put_cache (filter (λ kv, kv.2 ≠ folder_id) (Dict.items fc));
         ret true
     end).

Definition _sanitize_path (path : pystr) : pystr :=
  Py.replace (str "*") (str "_")
   (Py.replace (str "?") (str "_")
    (Py.replace (str "|") (str "_")
     (Py.replace [Py.dquote] (str "_")
      (Py.replace (str ":") (str "_")
       (Py.replace (str ">") (str "_")
        (Py.replace (str "<") (str "_")
         (Py.lstrip ["/"%char; Py.backslash]
          (Py.replace (str "..") (str "") path)))))))).

(** The [for part in parts] loop of [delete_file]. *)
Fixpoint delete_file_loop (part_name : pystr) (folder_id : pyid)
    (parts : list Part) (deleted_count : nat) : M nat :=
  match parts with
  | [] => ret deleted_count
  | part :: parts' =>
      if decide (get_name part = Some part_name
                 ∧ part.(get_folderId) = folder_id)
      then
        resp ← send (DeletePartReq part.(get_id));
        match resp with
        | Raises => raise RequestError
        | _ => delete_file_loop part_name folder_id parts' (S deleted_count)
        end
      else delete_file_loop part_name folder_id parts' deleted_count
  end.

(** The folder identifier [delete_file] scopes its deletions to. *)
Definition delete_file_folder_id (fc : dict pystr pyid) (folder_path : pystr)
    : pyid :=
  if Py.truthy folder_path then
    match Dict.get fc folder_path with
    | Some cached => cached
    | None => None
    end
  else None.

Definition delete_file (relative_path : pystr) : M bool :=
  rewrap DeleteFailedError
    (let safe_path := _sanitize_path relative_path in
     let filename := PosixPath.basename safe_path in
     let folder_path :=
       Py.replace [Py.backslash] (str "/") (PosixPath.dirname safe_path) in
     let part_name := (PosixPath.splitext filename).1 in
     fc ← get_cache;
     let folder_id := delete_file_folder_id fc folder_path in
     resp ← send (GetPartsByName part_name);
     match resp with
     | Raises => raise RequestError
     | OkParts parts =>
         deleted_count ← delete_file_loop part_name folder_id parts 0;
         ret (bool_decide (0 < deleted_count))
     | _ => ret false
     end).

(** [file_type_map.get(ext, '3mf')] *)
Definition file_type_map : dict pystr pystr :=
  [(str "3mf", str "3mf"); (str "gcode", str "gcode3mf");
   (str "scad", str "scad"); (str "step", str "step");
   (str "stp", str "step"); (str "stl", str "stl")].

Definition file_type (ext : pystr) : pystr :=
  match Dict.get file_type_map ext with
  | Some t => t
  | None => str "3mf"
  end.

Variable fs : FileSystem.
Variable sha256_hexdigest : list Byte.byte → pystr.

Definition upload_file (relative_path file_path : pystr) : M bool :=
  rewrap UploadFailedError
    (let safe_path := _sanitize_path relative_path in
     let filename := PosixPath.basename safe_path in
     let folder_path :=
       Py.replace [Py.backslash] (str "/") (PosixPath.dirname safe_path) in
     let name := (PosixPath.splitext filename).1 in
     folder_id ←
       (if Py.truthy folder_path then create_folder folder_path
        else ret None);
     let ext :=
       Py.lstrip (str ".") (Py.lower (PosixPath.splitext filename).2) in
     let file_type := file_type ext in
     signed ← send (PostSignedUploadUrls filename);
     match signed with
     | OkSigned upload_url cloud_path =>
         match fs_read fs file_path with
         | None => raise OSError
         | Some file_content =>
             let file_hash := sha256_hexdigest file_content in
             upload_response ← send (PutUpload upload_url file_content);
             match upload_response with
             | Raises => raise RequestError
             | _ =>
                 part_response ←
                   send (PostPart
                           {| payload_name := name;
                              payload_type := file_type;
                              payload_fileUris := [cloud_path];
                              payload_fileHashes := [file_hash];
                              payload_folderId := folder_id |});
                 match part_response with
                 | Raises => raise RequestError
                 | _ => ret true
                 end
             end
         end
     | _ => raise RequestError
     end).

End Client.
Arguments Client R : clear implicits.
Arguments M R : clear implicits.
End PrintagoClient.

(** ** Python sets: iteration order

    CPython iterates a set in hash-table order, and string hashes are salted
    per process; the order is therefore a parameter of the model, constrained
    only to enumerate the set. *)
Record SetOrder := {
  set_iter : gset pystr → list pystr;
  set_iter_perm : ∀ s, set_iter s ≡ₚ elements s;
}.

(** ** [FileWatchHandler] *)

(** The tuples put on [upload_queue]: [('upload', path)], [('delete', path)],
    [('delete_part_id', id)] and [('delete_folder_id', id)]. *)
Inductive Item :=
| Upload (file_path : pystr)
| Delete (file_path : pystr)
| DeletePartId (part_id : pyid)
| DeleteFolderId (folder_id : pyid).

(** The lines written through [self.log]. *)
Inductive LogMsg :=
| LogStartingMirrorSync
| LogLoadingFolders
| LogFetchingParts
| LogFoundParts (n : nat)
| LogScanningLocal
| LogFoundLocal (files folders : nat)
| LogToUpload (n : nat)
| LogToDeleteParts (n : nat)
| LogToDeleteFolders (n : nat)
| LogMirrorSyncInitiated
| LogMirrorSyncError (e : Error)
| LogFileAdded (src_path : pystr)
| LogFileModified (src_path : pystr)
| LogFileDeletedLocally (src_path : pystr)
| LogBlockedSuspiciousPath (file_path : pystr)
| LogFileTooLarge (file_path : pystr)
| LogUploaded (file_path : pystr)
| LogUploadFailed (file_path : pystr) (e : Error)
| LogDeletedFromPrintago (file_path : pystr)
| LogNotFoundInPrintago (file_path : pystr)
| LogDeleteFailed (file_path : pystr) (e : Error)
| LogDeletedOrphanedPart (part_id : pyid)
| LogFailedToDeletePart (part_id : pyid) (e : Error)
| LogDeletedOrphanedFolder (folder_id : pyid)
| LogFailedToDeleteFolder (folder_id : pyid) (e : Error).

(** A watchdog event, as far as the callbacks read it. *)
Record Event := {
  is_directory : bool;
  src_path : pystr;
}.

Module FileWatchHandler.
Import PrintagoClient.
Section Handler.
Context {R : Type} `{RemoteStore R}.
Variable fs : FileSystem.
Variable sha256_hexdigest : list Byte.byte → pystr.
Variable order : SetOrder.
Variable recursion_limit : nat.

Record Handler := {
  client : Client R;
  log : list LogMsg;
  upload_queue : list Item;
  initial_sync_done : bool;
}.

Definition max_file_size : Z := 500 * 1024 * 1024.

Definition write_log (msg : LogMsg) (h : Handler) : Handler :=
  {| client := client h; log := log h ++ [msg];
     upload_queue := upload_queue h;
     initial_sync_done := initial_sync_done h |}.

Definition with_client (c : Client R) (h : Handler) : Handler :=
  {| client := c; log := log h; upload_queue := upload_queue h;
     initial_sync_done := initial_sync_done h |}.

(** [self.upload_queue.put(item)] *)
Definition put (item : Item) (h : Handler) : Handler :=
  {| client := client h; log := log h;
     upload_queue := upload_queue h ++ [item];
     initial_sync_done := initial_sync_done h |}.

Definition _is_safe_path (file_path : pystr) : bool :=
  default false (fs_is_relative_to_watch fs file_path).

Definition _get_relative_path (file_path : pystr) : option pystr :=
  Py.replace [Py.backslash] (str "/") <$> fs_relative_to_watch fs file_path.

(** *** The event callbacks *)

Definition on_created (event : Event) (h : Handler) : Handler :=
  if negb event.(is_directory) && _is_safe_path event.(src_path)
  then put (Upload event.(src_path))
         (write_log (LogFileAdded event.(src_path)) h)
  else h.

Definition on_modified (event : Event) (h : Handler) : Handler :=
  if negb event.(is_directory) && _is_safe_path event.(src_path)
  then put (Upload event.(src_path))
         (write_log (LogFileModified event.(src_path)) h)
  else h.

Definition on_deleted (event : Event) (h : Handler) : Handler :=
  if negb event.(is_directory) && _is_safe_path event.(src_path)
  then put (Delete event.(src_path))
         (write_log (LogFileDeletedLocally event.(src_path)) h)
  else h.

(** *** The worker's operations *)

Definition _upload_file (file_path : pystr) (h : Handler) : Handler :=
  if negb (_is_safe_path file_path)
  then write_log (LogBlockedSuspiciousPath file_path) h
  else
    match fs_getsize fs file_path with
    | None => write_log (LogUploadFailed file_path OSError) h
    | Some file_size =>
        if (max_file_size <? file_size)%Z
        then write_log (LogFileTooLarge file_path) h
        else
          match _get_relative_path file_path with
          | None => write_log (LogUploadFailed file_path ValueError) h
          | Some rel_path =>
              match upload_file fs sha256_hexdigest rel_path file_path
                      (client h) with
              | (Return _, c) =>
                  write_log (LogUploaded file_path) (with_client c h)
              | (Raise e, c) =>
                  write_log (LogUploadFailed file_path e) (with_client c h)
              end
          end
    end.

Definition _delete_file (file_path : pystr) (h : Handler) : Handler :=
  match _get_relative_path file_path with
  | None => write_log (LogDeleteFailed file_path ValueError) h
  | Some rel_path =>
      match delete_file rel_path (client h) with
      | (Return true, c) =>
          write_log (LogDeletedFromPrintago file_path) (with_client c h)
      | (Return false, c) =>
          write_log (LogNotFoundInPrintago file_path) (with_client c h)
      | (Raise e, c) =>
          write_log (LogDeleteFailed file_path e) (with_client c h)
      end
  end.

Definition _delete_part_by_id (part_id : pyid) (h : Handler) : Handler :=
  match send (DeletePartReq part_id) (client h) with
  | (Return Raises, c) =>
      write_log (LogFailedToDeletePart part_id RequestError) (with_client c h)
  | (Return _, c) =>
      write_log (LogDeletedOrphanedPart part_id) (with_client c h)
  | (Raise e, c) =>
      write_log (LogFailedToDeletePart part_id e) (with_client c h)
  end.

Definition _delete_folder_by_id (folder_id : pyid) (h : Handler) : Handler :=
  match delete_folder folder_id (client h) with
  | (Return _, c) =>
      write_log (LogDeletedOrphanedFolder folder_id) (with_client c h)
  | (Raise e, c) =>
      write_log (LogFailedToDeleteFolder folder_id e) (with_client c h)
  end.

(** The body of the worker's loop for one dequeued item. The two-second
    settle delay before an upload has no counterpart here. *)
Definition process (item : Item) (h : Handler) : Handler :=
  match item with
  | Upload data => if fs_exists fs data then _upload_file data h else h
  | Delete data => _delete_file data h
  | DeletePartId data => _delete_part_by_id data h
  | DeleteFolderId data => _delete_folder_by_id data h
  end.

(** One iteration of [_upload_worker]: [get] the oldest item and process
    it; on an empty queue [get] times out and the loop goes round. *)
Definition _upload_worker_iteration (h : Handler) : Handler :=
  match upload_queue h with
  | [] => h
  | item :: rest =>
      process item
        {| client := client h; log := log h; upload_queue := rest;
           initial_sync_done := initial_sync_done h |}
  end.

(** *** The start-up reconciliation pass *)

(** Step 2: what [for part in printago_parts] runs through, each element
    read with [.get], or [None] when the loop raises: the keys of an
    object that is not empty are strings, which have no [.get]. *)
Definition parts_of_body (printago_parts : Response) : option (list Part) :=
  match printago_parts with
  | OkParts parts => Some parts
  | OkEmpty => Some []
  | _ => None
  end.

(** The folder path of a part, by the first cache entry holding
    its [folderId]. *)
Definition folder_path_of_id (fc : dict pystr pyid) (part_folder_id : pyid)
    : pystr :=
  match list_find (λ kv, kv.2 = part_folder_id) (Dict.items fc) with
  | Some (_, (fpath, _)) => fpath
  | None => []
  end.

Definition printago_map_of (fc : dict pystr pyid) (printago_parts : list Part)
    : dict (pystr * option pystr) pyid :=
  foldl (λ printago_map part,
           let part_folder_id := part.(get_folderId) in
           let folder_path :=
             if id_truthy part_folder_id
             then folder_path_of_id fc part_folder_id else [] in
           let part_name := get_name_or_empty part in
           Dict.set printago_map (folder_path, part_name) part.(get_id))
        Dict.empty printago_parts.

(** Step 3: the scan of the watch directory. Both indexes have the keys
    [(folder_path, name)]; a name read off the disk is a string, the name
    of a remote part may be [None]. *)
Record LocalScan := {
  local_files : dict (pystr * option pystr) pystr;
  all_local_folders : gset pystr;
}.

Definition scan_file (root file : pystr) (acc : LocalScan)
    : option LocalScan :=
  if Py.startswith file (str ".") then Some acc
  else
    let file_path := PosixPath.join root file in
    rel_path ← fs_relative_to_watch fs file_path;
    let folder_path :=
      Py.replace [Py.backslash] (str "/") (PosixPath.dirname rel_path) in
    let filename_no_ext :=
      (PosixPath.splitext (PosixPath.basename file)).1 in
    Some {| local_files :=
              Dict.set acc.(local_files) (folder_path, Some filename_no_ext)
                file_path;
            all_local_folders :=
              if Py.truthy folder_path
              then {[ folder_path ]} ∪ acc.(all_local_folders)
              else acc.(all_local_folders) |}.

Definition scan_dir (entry : pystr * list pystr) (acc : LocalScan)
    : option LocalScan :=
  rel_dir ← Py.replace [Py.backslash] (str "/")
              <$> fs_relative_to_watch fs entry.1;
  let acc :=
    if decide (rel_dir ≠ str ".")
    then {| local_files := acc.(local_files);
            all_local_folders := {[ rel_dir ]} ∪ acc.(all_local_folders) |}
    else acc in
  foldl (λ a file, a ≫= scan_file entry.1 file) (Some acc) entry.2.

Definition scan_local : option LocalScan :=
  foldl (λ a entry, a ≫= scan_dir entry)
        (Some {| local_files := Dict.empty; all_local_folders := ∅ |})
        (fs_walk fs).

(** Steps 4 to 6. *)
Definition to_upload_of (local_files : dict (pystr * option pystr) pystr)
    (printago_map : dict (pystr * option pystr) pyid) : list pystr :=
  (filter (λ kv, Dict.contains printago_map kv.1 = false)
          (Dict.items local_files)).*2.

Definition to_delete_of (local_files : dict (pystr * option pystr) pystr)
    (printago_map : dict (pystr * option pystr) pyid) : list pyid :=
  (filter (λ kv, Dict.contains local_files kv.1 = false)
          (Dict.items printago_map)).*2.

Definition folders_to_delete_of (fc : dict pystr pyid)
    (all_local_folders : gset pystr) : gset pystr :=
  list_to_set (Dict.keys fc) ∖ all_local_folders.

(** Step 9: the folder deletions, in the iteration order of the set. *)
Definition folder_deletions (fc : dict pystr pyid)
    (folders_to_delete : gset pystr) : list Item :=
  flat_map (λ folder_path,
              let folder_id := default None (Dict.get fc folder_path) in
              if id_truthy folder_id then [DeleteFolderId folder_id] else [])
           (set_iter order folders_to_delete).

(** Steps 7 to 9: everything the pass puts on the queue, in order. *)
Definition sync_plan (fc : dict pystr pyid)
    (printago_map : dict (pystr * option pystr) pyid) (scan : LocalScan)
    : list Item :=
  (Upload <$> to_upload_of scan.(local_files) printago_map)
  ++ (DeletePartId <$> to_delete_of scan.(local_files) printago_map)
  ++ folder_deletions fc
       (folders_to_delete_of fc scan.(all_local_folders)).

Definition initial_sync (h : Handler) : Handler :=
  let h := write_log LogLoadingFolders (write_log LogStartingMirrorSync h) in
  match list_folders recursion_limit (client h) with
  | (Raise e, c) => write_log (LogMirrorSyncError e) (with_client c h)
  | (Return _, c) =>
      let h := write_log LogFetchingParts (with_client c h) in
      match list_all_parts (client h) with
      | (Raise e, c) => write_log (LogMirrorSyncError e) (with_client c h)
      | (Return printago_parts, c) =>
          let h := with_client c h in
          let fc := folder_cache c in
          match parts_of_body printago_parts with
          | None => write_log (LogMirrorSyncError AttributeError) h
          | Some parts =>
              let printago_map := printago_map_of fc parts in
              let h := write_log LogScanningLocal
                         (write_log (LogFoundParts (length parts)) h) in
              match scan_local with
              | None => write_log (LogMirrorSyncError ValueError) h
              | Some scan =>
                  let to_upload :=
                    to_upload_of scan.(local_files) printago_map in
                  let to_delete :=
                    to_delete_of scan.(local_files) printago_map in
                  let folders_to_delete :=
                    folders_to_delete_of fc scan.(all_local_folders) in
                  let h :=
                    write_log (LogToDeleteFolders (size folders_to_delete))
                     (write_log (LogToDeleteParts (length to_delete))
                      (write_log (LogToUpload (length to_upload))
                       (write_log
                          (LogFoundLocal (length scan.(local_files))
                             (size scan.(all_local_folders))) h))) in
                  let h := foldl (λ h item, put item h) h
                             (sync_plan fc printago_map scan) in
                  let h := write_log LogMirrorSyncInitiated h in
                  {| client := client h; log := log h;
                     upload_queue := upload_queue h;
                     initial_sync_done := true |}
              end
          end
      end
  end.

End Handler.
Arguments Handler R : clear implicits.
End FileWatchHandler.


(** ** [delete_empty_folders.py]: the order of the clean-up script *)

Module DeleteEmptyFolders.

(** An entry of [to_delete]. *)
Record Candidate := {
  cand_id : pyid;
  cand_name : pystr;
  cand_path : pystr;
  cand_depth : nat;
}.

(** [folder_path.count('/')] *)
Definition depth (folder_path : pystr) : nat :=
  length (filter (λ ch, ch = "/"%char) folder_path).

Definition candidate (id : pyid) (name folder_path : pystr) : Candidate :=
  {| cand_id := id; cand_name := name; cand_path := folder_path;
     cand_depth := depth folder_path |}.

(** The order of [sort(key=lambda x: x['depth'], reverse=True)]: [a] may
    come before [b]. *)
Definition deeper_first (a b : Candidate) : Prop :=
  b.(cand_depth) ≤ a.(cand_depth).

(** [list.sort] is stable, also with [reverse=True]: entries of equal
    depth keep the order they were appended in. An entry goes in front of
    the first entry that is not deeper than it. *)
Fixpoint insert_by_depth (x : Candidate) (l : list Candidate)
    : list Candidate :=
  match l with
  | [] => [x]
  | y :: l' =>
      if decide (x.(cand_depth) < y.(cand_depth))
      then y :: insert_by_depth x l'
      else x :: l
  end.

Definition sort_to_delete (to_delete : list Candidate) : list Candidate :=
  foldr insert_by_depth [] to_delete.

(** The two sets built from the listings. *)
Definition folders_with_parts (parts : list Part) : gset pyid :=
  foldl (λ s part,
           if id_truthy part.(get_folderId)
           then {[ part.(get_folderId) ]} ∪ s else s)
        ∅ parts.

Definition folders_with_children (folders : list Folder) : gset pyid :=
  foldl (λ s folder,
           if id_truthy folder.(folder_parentId)
           then {[ folder.(folder_parentId) ]} ∪ s else s)
        ∅ folders.

(** [get_folder_path]; [depth] is what is left of the recursion limit and
    [None] the [RecursionError] that ends the script. *)
Fixpoint get_folder_path (depth : nat) (folders : list Folder)
    (id : pyid) : option pystr :=
  match depth with
  | O => None
  | S depth' =>
      if negb (id_truthy id) then Some []
      else
        match list_find (λ f, f.(folder_id) = id) folders with
        | None => Some []
        | Some (_, folder) =>
            if negb (id_truthy folder.(folder_parentId))
            then Some folder.(folder_name)
            else
              parent_path ←
                get_folder_path depth' folders folder.(folder_parentId);
              Some (if Py.truthy parent_path
                    then parent_path ++ str "/" ++ folder.(folder_name)
                    else folder.(folder_name))
        end
  end.

Definition marker : pystr := str "STL Library V1.4".

(** The loop that fills [to_delete]. *)
Definition find_empty_folders (recursion_limit : nat)
    (folders : list Folder) (parts : list Part) : option (list Candidate) :=
  foldl (λ acc folder,
           to_delete ← acc;
           let has_parts :=
             bool_decide (folder.(folder_id) ∈ folders_with_parts parts) in
           let has_children :=
             bool_decide
               (folder.(folder_id) ∈ folders_with_children folders) in
           if negb has_parts && negb has_children then
             folder_path ←
               get_folder_path recursion_limit folders folder.(folder_id);
             if Py.contains marker folder_path
             then Some (to_delete
                        ++ [candidate folder.(folder_id)
                              folder.(folder_name) folder_path])
             else Some to_delete
           else Some to_delete)
        (Some []) folders.

End DeleteEmptyFolders.

(** * Specification vocabulary *)

(** Two consecutive dots somewhere in the string. *)
Fixpoint has_dotdot (s : pystr) : bool :=
  match s with
  | c1 :: ((c2 :: _) as t) =>
      (bool_decide (c1 = "."%char) && bool_decide (c2 = "."%char))
      || has_dotdot t
  | _ => false
  end.

(** The first character, when there is one, is not [c]. *)
Definition head_not (c : ascii) (s : pystr) : Prop :=
  match s with [] => True | x :: _ => x ≠ c end.

(** Replacing every [x] by [y], character by character. *)
Definition subst_char (x y c : ascii) : ascii :=
  if decide (c = x) then y else c.

(** [Q] is a proper ancestor of the folder path [P]: [P] continues [Q] with
    a slash and further segments. *)
Definition path_prefix (Q P : pystr) : Prop :=
  ∃ rest, P = Q ++ str "/" ++ rest.

(** The invariant of the folder cache: with a path, all its ancestors. *)
Definition prefix_closed (fc : dict pystr pyid) : Prop :=
  ∀ P Q, P ∈ Dict.keys fc → path_prefix Q P → Q ∈ Dict.keys fc.

(** The condition under which deleting [folder_id] keeps the cache closed:
    no entry that stays has an ancestor entry that goes. *)
Definition no_cached_descendant (fc : dict pystr pyid) (folder_id : pyid)
    : Prop :=
  ∀ P Q v w,
    (P, v) ∈ Dict.items fc → v ≠ folder_id → path_prefix Q P →
    (Q, w) ∈ Dict.items fc → w ≠ folder_id.

(** The proper ancestors of a path, shortest first, and a check of the
    invariant that computes. *)
Fixpoint ancestors (P : pystr) : list pystr :=
  match P with
  | [] => []
  | c :: P' =>
      (if decide (c = "/"%char) then [[]] else []) ++ (cons c <$> ancestors P')
  end.

Definition prefix_closedb (fc : dict pystr pyid) : bool :=
  forallb (λ P, forallb (λ Q, bool_decide (Q ∈ Dict.keys fc)) (ancestors P))
          (Dict.keys fc).

(** The next value of [current_path] in the loop of [create_folder]. *)
Definition next_path (current_path part : pystr) : pystr :=
  if Py.truthy current_path then current_path ++ str "/" ++ part else part.

(** The successive values of [current_path] in that loop. *)
Fixpoint segment_paths (parts : list pystr) (current_path : pystr)
    : list pystr :=
  match parts with
  | [] => []
  | part :: parts' =>
      next_path current_path part
      :: segment_paths parts' (next_path current_path part)
  end.

(** The value of [current_path] when the loop ends. *)
Fixpoint final_path (parts : list pystr) (current_path : pystr) : pystr :=
  match parts with
  | [] => current_path
  | part :: parts' => final_path parts' (next_path current_path part)
  end.

(** The lengths of the parts, one more for each. *)
Fixpoint parts_weight (parts : list pystr) : nat :=
  match parts with
  | [] => 0
  | part :: parts' => S (length part) + parts_weight parts'
  end.

(** How many of the paths are not keys of the cache. *)
Definition missing_segments (fc : dict pystr pyid) (paths : list pystr) : nat :=
  length (filter (λ q, Dict.get fc q = None) paths).

(** The walk of [create_folder] when every segment is a cache hit. *)
Fixpoint lookup_walk (fc : dict pystr pyid) (parts : list pystr)
    (parent_id : pyid) (current_path : pystr) : option pyid :=
  match parts with
  | [] => Some parent_id
  | part :: parts' =>
      cached ← Dict.get fc (next_path current_path part);
      lookup_walk fc parts' cached (next_path current_path part)
  end.

Definition is_post_folder (q : Request) : Prop :=
  match q with PostFolder _ _ => True | _ => False end.

(** The exchanges of a sequence of requests sent one after the other to a
    remote in state [r]: each request with the answer it gets. *)
Fixpoint exchanges {R : Type} `{RemoteStore R} (r : R) (qs : list Request)
    : list (Request * Response) :=
  match qs with
  | [] => []
  | q :: qs' => (q, (respond r q).1) :: exchanges (respond r q).2 qs'
  end.

(** The state these requests leave the remote in. *)
Fixpoint remote_after {R : Type} `{RemoteStore R} (r : R) (qs : list Request)
    : R :=
  match qs with
  | [] => r
  | q :: qs' => remote_after (respond r q).2 qs'
  end.

(** An exchange on which the method that sent the request raises: a
    folder creation whose answer has no [.get] to read an identifier with,
    a request for a signed URL answered with anything but one, a listing
    of folders answered with neither a list nor the empty object, and for
    every other request an exchange that raises. *)
Definition fails (x : Request * Response) : Prop :=
  match x.1 with
  | PostFolder _ _ => PrintagoClient.folder_data_id x.2 = None
  | PostSignedUploadUrls _ =>
      match x.2 with OkSigned _ _ => False | _ => True end
  | GetFolders =>
      match x.2 with OkFolders _ | OkEmpty => False | _ => True end
  | _ => x.2 = Raises
  end.

(** Every exchange went through. *)
Definition went_through (xs : list (Request * Response)) : Prop :=
  Forall (λ x, ¬ fails x) xs.

(** The exchanges went through up to the last one, which failed. *)
Definition stopped (xs : list (Request * Response)) : Prop :=
  ∃ ok bad, xs = ok ++ [bad] ∧ went_through ok ∧ fails bad.

(** The test [delete_file] applies to each listed part. *)
Definition part_matches (part_name : pystr) (folder_id : pyid) (part : Part)
    : Prop :=
  get_name part = Some part_name ∧ part.(get_folderId) = folder_id.

#[global] Instance part_matches_dec part_name folder_id part :
  Decision (part_matches part_name folder_id part).
Proof. unfold part_matches. apply _. Defined.

Definition is_upload (item : Item) : Prop :=
  match item with Upload _ => True | _ => False end.
Definition is_delete_part (item : Item) : Prop :=
  match item with DeletePartId _ => True | _ => False end.
Definition is_delete_folder (item : Item) : Prop :=
  match item with DeleteFolderId _ => True | _ => False end.

#[global] Instance is_upload_dec item : Decision (is_upload item).
Proof. destruct item; apply _. Defined.
#[global] Instance is_delete_part_dec item : Decision (is_delete_part item).
Proof. destruct item; apply _. Defined.
#[global] Instance is_delete_folder_dec item : Decision (is_delete_folder item).
Proof. destruct item; apply _. Defined.

(** [h'] is [h] with some live items (uploads, deletes by path) put on the
    queue; the client is the same. *)
Definition puts_live_items {R : Type}
    (h h' : FileWatchHandler.Handler R) : Prop :=
  ∃ items,
    FileWatchHandler.upload_queue h' = FileWatchHandler.upload_queue h ++ items
    ∧ Forall (λ item, ¬ is_delete_part item ∧ ¬ is_delete_folder item) items
    ∧ FileWatchHandler.client h' = FileWatchHandler.client h.

(** An item of the reconciliation pass that deletes by identifier. *)
Definition sync_deletion (item : Item) : Prop :=
  is_delete_part item ∨ is_delete_folder item.

#[global] Instance sync_deletion_dec item : Decision (sync_deletion item).
Proof. unfold sync_deletion. apply _. Defined.

(** ** The watch session: producers and the worker interleaved

    The reconciliation pass, the event callbacks and the worker run on three
    threads that share the queue. A session state holds the handler, the
    puts of steps 7 to 9 the pass has not made yet ([pending]), and two
    history lists: everything put on the queue so far ([enqueued]) and
    everything the worker has taken off it ([applied]). One step is one put
    of the pass, one callback, or one iteration of the worker. *)
Section Session.
Import PrintagoClient FileWatchHandler.
Context {R : Type} `{RemoteStore R}.
Variable fs : FileSystem.
Variable sha256_hexdigest : list Byte.byte → pystr.

Record Session := {
  handler : Handler R;
  pending : list Item;
  enqueued : list Item;
  applied : list Item;
}.

(** The items a callback has added to the queue of [h]. *)
Definition added (h h' : Handler R) : list Item :=
  drop (length (upload_queue h)) (upload_queue h').

Definition after_callback (s : Session) (h' : Handler R) : Session :=
  {| handler := h'; pending := pending s;
     enqueued := enqueued s ++ added (handler s) h';
     applied := applied s |}.

Inductive step : Session → Session → Prop :=
| step_sync_put h item rest enq app :
    step {| handler := h; pending := item :: rest;
            enqueued := enq; applied := app |}
         {| handler := put item h; pending := rest;
            enqueued := enq ++ [item]; applied := app |}
| step_on_created s event :
    step s (after_callback s (on_created fs event (handler s)))
| step_on_modified s event :
    step s (after_callback s (on_modified fs event (handler s)))
| step_on_deleted s event :
    step s (after_callback s (on_deleted fs event (handler s)))
| step_worker s :
    step s {| handler :=
                _upload_worker_iteration fs sha256_hexdigest (handler s);
              pending := pending s;
              enqueued := enqueued s;
              applied := applied s ++ take 1 (upload_queue (handler s)) |}.

(** The session when the pass is about to make its first put. *)
Definition start (h : Handler R) (plan : list Item) : Session :=
  {| handler := h; pending := plan; enqueued := []; applied := [] |}.

(** In a trace, every folder deletion comes after the deletion of each of
    the given parts. *)
Definition parts_deleted_first (part_ids : list pyid) (t : list Request)
    : Prop :=
  ∀ t1 folder_id t2,
    t = t1 ++ DeleteFolderReq folder_id :: t2 →
    ∀ part_id, part_id ∈ part_ids → DeletePartReq part_id ∈ t1.

End Session.
Arguments Session R : clear implicits.

(** The invariant of a session started with live items only on the queue
    and the pass about to put its uploads, then the deletions of
    [part_ids], then [folder_items]. *)
Definition session_inv {R : Type}
    (h0 : FileWatchHandler.Handler R) (part_ids : list pyid)
    (folder_items : list Item) (s : Session R) : Prop :=
  applied s ++ FileWatchHandler.upload_queue (handler s)
    = FileWatchHandler.upload_queue h0 ++ enqueued s
  ∧ filter sync_deletion (enqueued s ++ pending s)
    = (DeletePartId <$> part_ids) ++ folder_items
  ∧ ∃ t,
      PrintagoClient.trace (FileWatchHandler.client (handler s))
        = PrintagoClient.trace (FileWatchHandler.client h0) ++ t
      ∧ parts_deleted_first part_ids t
      ∧ ∀ part_id, DeletePartId part_id ∈ applied s →
                   DeletePartReq part_id ∈ t.

(** The requests of [m] all satisfy [P]. *)
Definition sends {R : Type} `{RemoteStore R} {A : Type}
    (P : Request → Prop) (m : PrintagoClient.M R A) : Prop :=
  ∀ c res c',
    m c = (res, c') →
    ∃ reqs, PrintagoClient.trace c' = PrintagoClient.trace c ++ reqs
            ∧ Forall P reqs.

Definition not_folder_deletion (q : Request) : Prop :=
  match q with DeleteFolderReq _ => False | _ => True end.


(** ** Vocabulary of the further properties *)

(** The characters [_sanitize_path] replaces by an underscore. *)
Definition forbidden_chars : pystr :=
  ["<"%char; ">"%char; ":"%char; Py.dquote; "|"%char; "?"%char; "*"%char].

(** A path the sanitizer has nothing to do on. *)
Definition clean_path (p : pystr) : Prop :=
  ¬ Py.substring (str "..") p
  ∧ head_not "/" p ∧ head_not Py.backslash p
  ∧ ∀ ch, ch ∈ forbidden_chars → ch ∉ p.

(** What [upload_file] and [delete_file] derive from the relative path:
    [filename], [folder_path], [name] (or [part_name]) and [file_type]. *)
Definition derived_filename (relative_path : pystr) : pystr :=
  PosixPath.basename (PrintagoClient._sanitize_path relative_path).
Definition derived_folder_path (relative_path : pystr) : pystr :=
  Py.replace [Py.backslash] (str "/")
    (PosixPath.dirname (PrintagoClient._sanitize_path relative_path)).
Definition derived_name (relative_path : pystr) : pystr :=
  (PosixPath.splitext (derived_filename relative_path)).1.
Definition derived_file_type (relative_path : pystr) : pystr :=
  PrintagoClient.file_type
    (Py.lstrip (str ".")
       (Py.lower (PosixPath.splitext (derived_filename relative_path)).2)).

(** The key [initial_sync] files a remote part under: the path of the
    first cache entry holding its [folderId] (empty when it has none or
    none is cached), and its name (the empty string when it has no [name]
    member, [None] when the member is [null]). *)
Definition part_key (fc : dict pystr pyid) (part : Part)
    : pystr * option pystr :=
  (if id_truthy part.(get_folderId)
   then FileWatchHandler.folder_path_of_id fc part.(get_folderId) else [],
   get_name_or_empty part).

(** Where an entry of the local index comes from: a file of the walk whose
    name does not begin with a dot. *)
Definition scanned (fs : FileSystem) (key : pystr * option pystr)
    (file_path : pystr) : Prop :=
  ∃ root files file rel_path,
    (root, files) ∈ fs_walk fs ∧ file ∈ files
    ∧ Py.startswith file (str ".") = false
    ∧ file_path = PosixPath.join root file
    ∧ fs_relative_to_watch fs file_path = Some rel_path
    ∧ key = (Py.replace [Py.backslash] (str "/") (PosixPath.dirname rel_path),
             Some (PosixPath.splitext (PosixPath.basename file)).1).

(** The invariant of the scan: every indexed file was scanned, and its
    folder, unless it is the root, is in the set of local folders. *)
Definition scan_inv (fs : FileSystem) (acc : FileWatchHandler.LocalScan)
    : Prop :=
  ∀ key file_path,
    Dict.get acc.(FileWatchHandler.local_files) key = Some file_path →
    (key.1 ≠ [] → key.1 ∈ acc.(FileWatchHandler.all_local_folders))
    ∧ scanned fs key file_path.

(** Made of white space only. *)
Definition blank (s : pystr) : Prop := Forall (λ c, c ∈ Py.whitespace) s.

(** What an assignment stored by [load_env] looks like. *)
Definition env_entry (kv : pystr * pystr) : Prop :=
  ("="%char ∉ kv.1) ∧ Py.strip kv.1 = kv.1 ∧ Py.strip kv.2 = kv.2
  ∧ head_not "#" kv.1.

(** A folder the clean-up script may delete: no listed part is filed in
    it, no listed folder has it as parent, and its path holds the marker. *)
Definition empty_marked (recursion_limit : nat) (folders : list Folder)
    (parts : list Part) (folder : Folder) (folder_path : pystr) : Prop :=
  DeleteEmptyFolders.get_folder_path recursion_limit folders
    folder.(folder_id) = Some folder_path
  ∧ Py.substring DeleteEmptyFolders.marker folder_path
  ∧ (∀ part, part ∈ parts → id_truthy part.(get_folderId) = true →
             part.(get_folderId) ≠ folder.(folder_id))
  ∧ (∀ child, child ∈ folders → id_truthy child.(folder_parentId) = true →
              child.(folder_parentId) ≠ folder.(folder_id)).

(** The path of a listed folder: its name after the path of its parent,
    up to a folder that has no parent. *)
Inductive rooted_path (folders : list Folder) : pyid → pystr → Prop :=
| rooted_root f :
    f ∈ folders → f.(folder_parentId) = None →
    rooted_path folders f.(folder_id) f.(folder_name)
| rooted_child f parent_path :
    f ∈ folders → id_truthy f.(folder_parentId) = true →
    rooted_path folders f.(folder_parentId) parent_path →
    rooted_path folders f.(folder_id)
      (parent_path ++ str "/" ++ f.(folder_name)).

(** A listed folder [a] names [b] as its parent. *)
Definition parent_of (folders : list Folder) (a b : pyid) : Prop :=
  ∃ f, f ∈ folders ∧ f.(folder_id) = a ∧ f.(folder_parentId) = b.

(** A folder and its ancestors, nearest first, up to a root. *)
Fixpoint chain_ok (folders : list Folder) (chain : list pyid) : Prop :=
  match chain with
  | [] => True
  | a :: rest =>
      match rest with
      | [] => parent_of folders a None
      | b :: _ =>
          parent_of folders a b ∧ id_truthy b = true ∧ chain_ok folders rest
      end
  end.

(** The invariants of [build_path] over a listing. *)
Section BuildPathVocabulary.
Import PrintagoClient.
Context {R : Type} `{RemoteStore R}.
Variable folders : list Folder.

(** A call of [build_path] whose [path_parts] are those of the parent. *)
Definition call_ok (id : pyid) (path_parts : list pystr) : Prop :=
  ∀ f, Dict.get (id_to_folder_of folders) id = Some f →
       rooted_path folders id
         (Py.join (str "/") (path_parts ++ [f.(folder_name)])).

(** Every entry of the cache was there before or is a rooted path. *)
Definition written (fc0 : dict pystr pyid) (c : Client R) : Prop :=
  ∀ kv, kv ∈ Dict.items (folder_cache c) →
        kv ∈ Dict.items fc0 ∨ rooted_path folders kv.2 kv.1.

(** The keys of [c] are still keys of [c']. *)
Definition keeps_keys (c c' : Client R) : Prop :=
  ∀ k, k ∈ Dict.keys (folder_cache c) → k ∈ Dict.keys (folder_cache c').

(** [build_path] ran to its end on [id] and [path_parts], and what it
    wrote is in the cache [fc]. *)
Definition visited (fc : dict pystr pyid) (id : pyid)
    (path_parts : list pystr) : Prop :=
  ∃ depth (c c' : Client R),
    build_path depth (id_to_folder_of folders) (id_to_children_of folders)
      id path_parts c = (Return tt, c')
    ∧ ∀ k, k ∈ Dict.keys (folder_cache c') → k ∈ Dict.keys fc.

End BuildPathVocabulary.
Arguments visited R folders fc id path_parts : clear implicits.

(** * Sample data *)

(** A remote that plays back a script of responses, one per request, and
    raises once the script is used up. *)
#[global] Instance scripted_remote : RemoteStore (list Response) :=
  λ script _,
    match script with
    | [] => (Raises, [])
    | resp :: script' => (resp, script')
    end.

(** A hash order that visits the members found in [preferred] first, in
    that order, and the others after them. *)
Definition order_by (preferred : list pystr) : SetOrder.
Proof.
  refine
    {| set_iter := λ s,
         filter (λ x, x ∈ s) (remove_dups preferred)
         ++ filter (λ x, x ∉ remove_dups preferred) (elements s) |}.
  intros s. apply NoDup_Permutation.
  - apply NoDup_app. split_and!.
    + apply NoDup_filter, NoDup_remove_dups.
    + intros x Hx Hx'. apply list_elem_of_filter in Hx as [_ Hx].
      apply list_elem_of_filter in Hx' as [Hx' _]. contradiction.
    + apply NoDup_filter, NoDup_elements.
  - apply NoDup_elements.
  - intros x. rewrite elem_of_app, !list_elem_of_filter, elem_of_elements.
    destruct (decide (x ∈ remove_dups preferred)); tauto.
Defined.

Module Sample.
Import PrintagoClient.

Definition client_of (fc : dict pystr pyid) (script : list Response)
    : Client (list Response) :=
  {| folder_cache := fc; remote := script; trace := [] |}.

(** Folder [X] is known as [fx]; the remote will create two more. *)
Definition cache_X : dict pystr pyid := [(str "X", Some (str "fx"))].

Definition client_X : Client (list Response) :=
  client_of cache_X [OkFolder (Some (str "fy")); OkFolder (Some (str "fz"))].

Definition client_XYZ : Client (list Response) :=
  (create_folder (str "X/Y/Z") client_X).2.

(** The same, with the second creation failing. *)
Definition client_X_failing : Client (list Response) :=
  client_of cache_X [OkFolder (Some (str "fy")); Raises].

Definition client_XY_failed : Client (list Response) :=
  (create_folder (str "X/Y/Z") client_X_failing).2.

(** [X] and [X/Y] cached; the remote accepts one request. *)
Definition cache_X_XY : dict pystr pyid :=
  [(str "X", Some (str "fx")); (str "X/Y", Some (str "fy"))].

Definition client_X_XY : Client (list Response) :=
  client_of cache_X_XY [OkEmpty].

(** Two parts named [A]: one in folder [X], one at the root. *)
Definition part_A_in_X : Part :=
  {| get_id := Some (str "pA-in-X"); name_member := NameStr (str "A");
     get_folderId := Some (str "fx") |}.
Definition part_A_at_root : Part :=
  {| get_id := Some (str "pA-root"); name_member := NameStr (str "A");
     get_folderId := None |}.

(** Two parts at the root without a name: one has no [name] member, the
    name of the other is [null]. *)
Definition part_without_name : Part :=
  {| get_id := Some (str "p-no-name"); name_member := NameAbsent;
     get_folderId := None |}.
Definition part_null_name : Part :=
  {| get_id := Some (str "p-null-name"); name_member := NameNull;
     get_folderId := None |}.

Definition client_two_A : Client (list Response) :=
  client_of cache_X [OkParts [part_A_in_X; part_A_at_root]; OkEmpty].

(** A disk with watch root [/w] holding the listed files, each with its
    size. *)
Definition disk (files : list (pystr * Z)) (walk : list (pystr * list pystr))
    : FileSystem :=
  {| fs_exists := λ p, bool_decide (p ∈ files.*1);
     fs_getsize := λ p, Dict.get files p;
     fs_read := λ p, if bool_decide (p ∈ files.*1) then Some [] else None;
     fs_is_relative_to_watch := λ p, Some (Py.startswith p (str "/w/"));
     fs_relative_to_watch := λ p,
       if Py.startswith p (str "/w/") then Some (drop 3 p)
       else if bool_decide (p = str "/w") then Some (str ".")
       else None;
     fs_walk := walk |}.

Definition sha256_stub (content : list Byte.byte) : pystr := str "e3b0c442".

(** [/w/huge.stl] is one byte over the limit. *)
Definition disk_huge : FileSystem :=
  disk [(str "/w/huge.stl", (500 * 1024 * 1024 + 1)%Z)]
       [(str "/w", [str "huge.stl"])].

(** The reconciliation example: remote parts [A] at the root and [B] in
    [X]; local files [A.stl] at the root and [X/C.stl]. *)
Definition part_B_in_X : Part :=
  {| get_id := Some (str "pB"); name_member := NameStr (str "B");
     get_folderId := Some (str "fx") |}.

Definition disk_AC : FileSystem :=
  disk [(str "/w/A.stl", 10%Z); (str "/w/X/C.stl", 20%Z)]
       [(str "/w", [str "A.stl"]); (str "/w/X", [str "C.stl"])].

Definition scan_AC : FileWatchHandler.LocalScan :=
  {| FileWatchHandler.local_files :=
       [(([], Some (str "A")), str "/w/A.stl");
        ((str "X", Some (str "C")), str "/w/X/C.stl")];
     FileWatchHandler.all_local_folders := {[ str "X" ]} |}.

Definition printago_map_AB : dict (pystr * option pystr) pyid :=
  [(([], Some (str "A")), Some (str "pA-root"));
   ((str "X", Some (str "B")), Some (str "pB"))].

(** The rename example: the remote still holds part [A], the disk now
    holds [B.stl]. *)
Definition disk_B : FileSystem :=
  disk [(str "/w/B.stl", 10%Z)] [(str "/w", [str "B.stl"])].

Definition printago_map_A : dict (pystr * option pystr) pyid :=
  [(([], Some (str "A")), Some (str "pA-root"))].

Definition scan_B : FileWatchHandler.LocalScan :=
  {| FileWatchHandler.local_files :=
       [(([], Some (str "B")), str "/w/B.stl")];
     FileWatchHandler.all_local_folders := ∅ |}.

Definition event_deleted_A : Event :=
  {| is_directory := false; src_path := str "/w/A.stl" |}.
Definition event_created_B : Event :=
  {| is_directory := false; src_path := str "/w/B.stl" |}.

(** The folder example: the remote holds [X] and [X/Y], both empty; the
    watch directory is empty. *)
Definition folders_X_XY : list Folder :=
  [ {| folder_id := Some (str "fx"); folder_name := str "X";
       folder_parentId := None |};
    {| folder_id := Some (str "fxy"); folder_name := str "Y";
       folder_parentId := Some (str "fx") |} ].

Definition client_listing_X_XY : Client (list Response) :=
  client_of [] [OkFolders folders_X_XY; OkParts []].

Definition disk_empty : FileSystem := disk [] [(str "/w", [])].

(** A hash order that visits [X] before [X/Y], and one that visits [X/Y]
    first. *)
Definition parent_first : SetOrder := order_by [str "X"; str "X/Y"].
Definition child_first : SetOrder := order_by [str "X/Y"; str "X"].

(** The ordering example: the remote holds folder [X] with part [B] in
    it; the disk holds neither. *)
Definition printago_map_B : dict (pystr * option pystr) pyid :=
  [((str "X", Some (str "B")), Some (str "pB"))].

Definition scan_nothing : FileWatchHandler.LocalScan :=
  {| FileWatchHandler.local_files := [];
     FileWatchHandler.all_local_folders := ∅ |}.

Definition handler_of (c : Client (list Response)) (queue : list Item)
    : FileWatchHandler.Handler (list Response) :=
  {| FileWatchHandler.client := c; FileWatchHandler.log := [];
     FileWatchHandler.upload_queue := queue;
     FileWatchHandler.initial_sync_done := false |}.

Definition handler_B_in_X : FileWatchHandler.Handler (list Response) :=
  handler_of (client_of cache_X [OkEmpty; OkEmpty]) [].

(** The session after the pass has made its two puts and the worker has
    run twice. *)
Definition session_B_in_X : Session (list Response) :=
  let work (h : FileWatchHandler.Handler (list Response)) :=
    FileWatchHandler._upload_worker_iteration disk_empty sha256_stub h in
  {| handler :=
       work (work (FileWatchHandler.put (DeleteFolderId (Some (str "fx")))
                     (FileWatchHandler.put (DeletePartId (Some (str "pB")))
                        handler_B_in_X)));
     pending := [];
     enqueued := [DeletePartId (Some (str "pB"));
                  DeleteFolderId (Some (str "fx"))];
     applied := [DeletePartId (Some (str "pB"));
                 DeleteFolderId (Some (str "fx"))] |}.

(** The upload example: [/w/X/A.stl] is on the disk, folder [X] is cached,
    and the remote accepts the three requests of an upload. *)
Definition disk_XA : FileSystem :=
  disk [(str "/w/X/A.stl", 10%Z)] [(str "/w/X", [str "A.stl"])].

Definition client_upload_XA : Client (list Response) :=
  client_of cache_X
    [OkSigned (str "https://storage/put") (str "uploads/A.stl");
     OkEmpty; OkEmpty].

(** The clean-up example: a library folder with three subfolders, one of
    them holding a folder of its own and one holding a part, and a folder
    outside the library. *)
Definition folder (id name : string) (parent : option string) : Folder :=
  {| folder_id := Some (str id); folder_name := str name;
     folder_parentId := str <$> parent |}.

Definition cleanup_folders : list Folder :=
  [folder "f1" "STL Library V1.4" None;
   folder "f6" "Misc" (Some "f1");
   folder "f2" "Keychains" (Some "f1");
   folder "f3" "Old" (Some "f2");
   folder "f4" "Brackets" (Some "f1");
   folder "f5" "Other" None].

Definition cleanup_parts : list Part :=
  [{| get_id := Some (str "p1"); name_member := NameStr (str "bracket");
      get_folderId := Some (str "f4") |}].

Definition cleanup_candidates : list DeleteEmptyFolders.Candidate :=
  [DeleteEmptyFolders.candidate (Some (str "f6")) (str "Misc")
     (str "STL Library V1.4/Misc");
   DeleteEmptyFolders.candidate (Some (str "f3")) (str "Old")
     (str "STL Library V1.4/Keychains/Old")].

End Sample.


(** * Properties *)

(** ** Strings *)

Section StringFacts.

Lemma has_dotdot_unfold c1 c2 t :
  has_dotdot (c1 :: c2 :: t)
  = (bool_decide (c1 = "."%char) && bool_decide (c2 = "."%char))
    || has_dotdot (c2 :: t).
Proof. reflexivity. Qed.

Lemma has_dotdot_cons c s : has_dotdot s = true → has_dotdot (c :: s) = true.
Proof.
  destruct s as [|c2 t]; [done|]. intros Hd.
  rewrite has_dotdot_unfold, Hd. apply orb_true_r.
Qed.

Lemma has_dotdot_substring s :
  Py.substring (str "..") s ↔ has_dotdot s = true.
Proof.
  split.
  - intros (a & b & ->). induction a as [|x a IH].
    + destruct b; reflexivity.
    + apply has_dotdot_cons, IH.
  - induction s as [|c1 [|c2 t] IH]; try discriminate.
    rewrite has_dotdot_unfold.
    intros Hd. apply orb_true_iff in Hd as [Hd|Hd].
    + apply andb_true_iff in Hd as [H1 H2].
      apply bool_decide_eq_true in H1, H2. subst.
      exists [], t. reflexivity.
    + destruct (IH Hd) as (a & b & E).
      exists (c1 :: a), b. simpl. by rewrite E.
Qed.

Lemma has_dotdot_tail c s : has_dotdot (c :: s) = false → has_dotdot s = false.
Proof.
  destruct s as [|c2 t]; [done|]. rewrite has_dotdot_unfold.
  intros Hd. by apply orb_false_iff in Hd as [_ ?].
Qed.

Lemma dotdot_prefix_inv c s :
  ¬ (str ".." `prefix_of` c :: s) → c = "."%char → head_not "." s.
Proof.
  intros Hn ->. destruct s as [|x s]; [done|]. simpl. intros ->.
  apply Hn. exists s. reflexivity.
Qed.

Lemma replace_dotdot_head s :
  head_not "." s → head_not "." (Py.replace_from (str "..") [] 0 s).
Proof.
  destruct s as [|x s]; [done|]. simpl. intros Hx.
  destruct (decide _) as [[k Hk]|_]; [|done].
  exfalso. simpl in Hk. congruence.
Qed.

Lemma replace_dotdot_clean s skip :
  has_dotdot (Py.replace_from (str "..") [] skip s) = false.
Proof.
  revert skip. induction s as [|c s IH]; intros skip; [done|].
  cbn [Py.replace_from]. destruct skip as [|k]; [|apply IH].
  destruct (decide _) as [Hp|Hp]; [apply IH|].
  pose proof (IH 0) as IH0.
  destruct (Py.replace_from (str "..") [] 0 s) as [|c2 t] eqn:E; [done|].
  rewrite has_dotdot_unfold, IH0, orb_false_r.
  apply andb_false_iff.
  destruct (decide (c = "."%char)) as [Hc|Hc].
  - right. apply bool_decide_eq_false.
    pose proof (replace_dotdot_head s (dotdot_prefix_inv c s Hp Hc)) as Hh.
    rewrite E in Hh. exact Hh.
  - left. by apply bool_decide_eq_false.
Qed.

Lemma lstrip_suffix chars s : Py.lstrip chars s `suffix_of` s.
Proof.
  induction s as [|c s IH]; simpl; [done|].
  destruct (decide _); [|done]. by apply suffix_cons_r.
Qed.

Lemma has_dotdot_suffix s t :
  s `suffix_of` t → has_dotdot t = false → has_dotdot s = false.
Proof.
  intros [k ->]. induction k as [|x k IH]; [done|].
  intros Hd. apply IH. exact (has_dotdot_tail x _ Hd).
Qed.

Lemma lstrip_head chars s c : c ∈ chars → head_not c (Py.lstrip chars s).
Proof.
  intros Hc. induction s as [|x s IH]; simpl; [done|].
  destruct (decide (x ∈ chars)) as [|Hx]; [done|].
  simpl. intros ->. contradiction.
Qed.

Lemma replace_char x y s :
  Py.replace [x] [y] s = subst_char x y <$> s.
Proof.
  unfold Py.replace. induction s as [|c s IH]; [done|].
  cbn [Py.replace_from length Nat.sub fmap list_fmap].
  unfold subst_char at 1.
  destruct (decide ([x] `prefix_of` c :: s)) as [Hp|Hp];
    destruct (decide (c = x)) as [->|Hc].
  - simpl. f_equal. exact IH.
  - exfalso. apply Hc. symmetry. by eapply prefix_cons_inv_1.
  - exfalso. apply Hp. exists s. done.
  - f_equal. exact IH.
Qed.

Lemma subst_has_dotdot x y s :
  y ≠ "."%char → has_dotdot s = false →
  has_dotdot (subst_char x y <$> s) = false.
Proof.
  intros Hy. induction s as [|c1 [|c2 t] IH]; [done..|].
  rewrite !fmap_cons, !has_dotdot_unfold. intros Hd.
  apply orb_false_iff in Hd as [Hd1 Hd2].
  rewrite <-fmap_cons, (IH Hd2), orb_false_r.
  apply andb_false_iff in Hd1. apply andb_false_iff.
  unfold subst_char.
  destruct Hd1 as [Hd1|Hd1]; apply bool_decide_eq_false in Hd1;
    [left|right]; apply bool_decide_eq_false;
    destruct (decide _); congruence.
Qed.

Lemma subst_head_not x y c s :
  y ≠ c → head_not c s → head_not c (subst_char x y <$> s).
Proof.
  intros Hy. destruct s as [|a s]; [done|]. simpl. unfold subst_char.
  destruct (decide _); congruence.
Qed.

End StringFacts.

(** C10. For every input string, [_sanitize_path] returns a string with no
    two consecutive dots anywhere in it and whose first character is neither
    a slash nor a backslash. *)
Theorem sanitize_path_safe (path : pystr) :
  let safe_path := PrintagoClient._sanitize_path path in
  ¬ Py.substring (str "..") safe_path
  ∧ Py.startswith safe_path (str "/") = false
  ∧ Py.startswith safe_path [Py.backslash] = false.
Proof.
  cbv zeta. unfold PrintagoClient._sanitize_path.
  change (str "*") with ["*"%char]. change (str "?") with ["?"%char].
  change (str "|") with ["|"%char]. change (str "_") with ["_"%char].
  change (str ":") with [":"%char]. change (str ">") with [">"%char].
  change (str "<") with ["<"%char].
  rewrite !replace_char.
  set (stripped := Py.lstrip _ _).
  assert (Hdd : has_dotdot stripped = false).
  { eapply has_dotdot_suffix; [apply lstrip_suffix|].
    apply replace_dotdot_clean. }
  assert (Hslash : head_not "/" stripped).
  { apply lstrip_head. set_solver. }
  assert (Hback : head_not Py.backslash stripped).
  { apply lstrip_head. set_solver. }
  split; [|split].
  - rewrite has_dotdot_substring. apply not_true_iff_false.
    repeat (apply subst_has_dotdot; [discriminate|]). exact Hdd.
  - apply bool_decide_eq_false. intros [k Hk].
    assert (Hh : head_not "/"
              (subst_char "*" "_" <$> (subst_char "?" "_" <$>
               (subst_char "|" "_" <$> (subst_char Py.dquote "_" <$>
                (subst_char ":" "_" <$> (subst_char ">" "_" <$>
                 (subst_char "<" "_" <$> stripped)))))))).
    { repeat (apply subst_head_not; [discriminate|]). exact Hslash. }
    rewrite Hk in Hh. simpl in Hh. congruence.
  - apply bool_decide_eq_false. intros [k Hk].
    assert (Hh : head_not Py.backslash
              (subst_char "*" "_" <$> (subst_char "?" "_" <$>
               (subst_char "|" "_" <$> (subst_char Py.dquote "_" <$>
                (subst_char ":" "_" <$> (subst_char ">" "_" <$>
                 (subst_char "<" "_" <$> stripped)))))))).
    { repeat (apply subst_head_not; [discriminate|]). exact Hback. }
    rewrite Hk in Hh. simpl in Hh. congruence.
Qed.


(** ** Dictionaries *)

Section DictFacts.
Context {K V : Type} `{EqDecision K}.
Implicit Types (d : dict K V) (k : K) (v : V).

Lemma get_None d k : Dict.get d k = None ↔ k ∉ Dict.keys d.
Proof.
  unfold Dict.keys. induction d as [|[k' v'] d IH]; simpl.
  - split; [intros _; apply not_elem_of_nil|done].
  - rewrite not_elem_of_cons. destruct (decide (k' = k)) as [->|Hne].
    + split; [done|]. intros [? _]. done.
    + rewrite IH. split; [intros ?; split; [congruence|done]|intros [_ ?]; done].
Qed.

Lemma get_Some_keys d k v : Dict.get d k = Some v → k ∈ Dict.keys d.
Proof.
  intros Hg. destruct (decide (k ∈ Dict.keys d)) as [|Hn]; [done|].
  apply get_None in Hn. congruence.
Qed.

Lemma keys_get d k : k ∈ Dict.keys d → ∃ v, Dict.get d k = Some v.
Proof.
  intros Hk. destruct (Dict.get d k) as [v|] eqn:E; [by exists v|].
  apply get_None in E. contradiction.
Qed.

Lemma get_Some_items d k v : Dict.get d k = Some v → (k, v) ∈ Dict.items d.
Proof.
  unfold Dict.items. induction d as [|[k' v'] d IH]; simpl; [done|].
  destruct (decide (k' = k)) as [->|Hne].
  - intros [= ->]. apply elem_of_cons. by left.
  - intros Hg. apply elem_of_cons. right. by apply IH.
Qed.

Lemma items_get d k v :
  Dict.wf d → (k, v) ∈ Dict.items d → Dict.get d k = Some v.
Proof.
  unfold Dict.wf, Dict.keys, Dict.items.
  induction d as [|[k' v'] d IH]; simpl.
  - intros _ Hin. by apply elem_of_nil in Hin.
  - rewrite NoDup_cons. intros [Hk' Hnd] Hin.
    apply elem_of_cons in Hin as [[= -> ->]|Hin].
    + by rewrite decide_True.
    + rewrite decide_False; [by apply IH|].
      intros ->. apply Hk'. apply list_elem_of_fmap. by exists (k, v).
Qed.

Lemma set_missing d k v : Dict.get d k = None → Dict.set d k v = d ++ [(k, v)].
Proof.
  induction d as [|[k' v'] d IH]; simpl; [done|].
  destruct (decide (k' = k)); [done|]. intros Hg. by rewrite IH.
Qed.

Lemma get_set d k v k' :
  Dict.get (Dict.set d k v) k' = if decide (k = k') then Some v else Dict.get d k'.
Proof.
  induction d as [|[k0 v0] d IH]; simpl.
  - done.
  - destruct (decide (k0 = k)) as [->|Hne]; simpl.
    + destruct (decide (k = k')); done.
    + rewrite IH. destruct (decide (k0 = k')) as [->|]; [|done].
      by rewrite decide_False.
Qed.

Lemma keys_set d k v :
  Dict.keys (Dict.set d k v)
  = if decide (k ∈ Dict.keys d) then Dict.keys d else Dict.keys d ++ [k].
Proof.
  unfold Dict.keys. induction d as [|[k0 v0] d IH].
  - destruct (decide _) as [Hin|_]; [|done]. by apply elem_of_nil in Hin.
  - cbn [Dict.set]. destruct (decide (k0 = k)) as [->|Hne].
    + rewrite decide_True; [done|]. rewrite fmap_cons. apply elem_of_cons. by left.
    + rewrite !fmap_cons, IH. cbn [fst].
      destruct (decide (k ∈ d.*1)) as [Hin|Hnin].
      * rewrite decide_True; [done|]. apply elem_of_cons. by right.
      * rewrite decide_False; [done|]. rewrite not_elem_of_cons. split; congruence.
Qed.

Lemma wf_set d k v : Dict.wf d → Dict.wf (Dict.set d k v).
Proof.
  unfold Dict.wf. rewrite keys_set. destruct (decide _) as [|Hn]; [done|].
  intros Hnd. apply NoDup_app. split; [done|]. split.
  - intros x Hx Hx'. apply list_elem_of_singleton in Hx'. by subst.
  - apply NoDup_singleton.
Qed.

Lemma get_app_l d d' k v :
  Dict.get d k = Some v → Dict.get (d ++ d') k = Some v.
Proof.
  induction d as [|[k0 v0] d IH]; simpl; [done|].
  destruct (decide (k0 = k)); [done|]. apply IH.
Qed.

Lemma get_app_None d d' k :
  Dict.get (d ++ d') k = None → Dict.get d k = None.
Proof.
  destruct (Dict.get d k) eqn:E; [|done].
  by rewrite (get_app_l _ d' _ _ E).
Qed.

Lemma wf_foldl_set {A} (f : A → K) (g : A → V) (l : list A) d :
  Dict.wf d → Dict.wf (foldl (λ m a, Dict.set m (f a) (g a)) d l).
Proof.
  revert d. induction l as [|a l IH]; intros d Hd; simpl; [done|].
  apply IH. by apply wf_set.
Qed.

End DictFacts.


(** ** The folder cache: [create_folder] and [delete_folder] *)

Section FolderFacts.
Import PrintagoClient.
Context {R : Type} `{RemoteStore R}.
Implicit Types (c : Client R) (fc : dict pystr pyid).

Lemma filter_length_mono {A} (P Q : A → Prop)
    `{∀ x, Decision (P x)} `{∀ x, Decision (Q x)} (l : list A) :
  (∀ x, P x → Q x) → length (filter P l) ≤ length (filter Q l).
Proof.
  intros HPQ. induction l as [|x l IH]; [done|].
  rewrite !filter_cons.
  destruct (decide (P x)) as [HP|HP]; destruct (decide (Q x)) as [HQ|HQ];
    simpl; try lia.
  exfalso. by apply HQ, HPQ.
Qed.

(** One round of the loop, spelled out. *)
Lemma create_folder_loop_cons part parts parent cur c :
  create_folder_loop (part :: parts) parent cur c =
    let cur' := next_path cur part in
    match Dict.get (folder_cache c) cur' with
    | Some cached => create_folder_loop parts cached cur' c
    | None =>
        let q := PostFolder part parent in
        let '(resp, r') := respond (remote c) q in
        match folder_data_id resp with
        | Some folder_id =>
            create_folder_loop parts folder_id cur'
              {| folder_cache := Dict.set (folder_cache c) cur' folder_id;
                 remote := r'; trace := trace c ++ [q] |}
        | None =>
            (Raise RequestError,
             {| folder_cache := folder_cache c; remote := r';
                trace := trace c ++ [q] |})
        end
    end.
Proof.
  cbn [create_folder_loop]. fold (next_path cur part).
  unfold mbind, M_bind, bind, get_cache, put_cache, send, raise, with_cache.
  cbn zeta. destruct (Dict.get _ _); [done|].
  destruct (respond _ _) as [resp r']. by destruct (folder_data_id resp).
Qed.

(** What one run of the loop does to the client. *)
Lemma create_folder_loop_spec parts : ∀ parent cur c res c',
  create_folder_loop parts parent cur c = (res, c') →
  ∃ created calls,
    folder_cache c' = folder_cache c ++ created
    ∧ trace c' = trace c ++ calls
    ∧ Forall is_post_folder calls
    ∧ created.*1 ⊆ segment_paths parts cur
    ∧ (∀ k, k ∈ created.*1 → Dict.get (folder_cache c) k = None)
    ∧ length calls
      = length created + (match res with Raise _ => 1 | Return _ => 0 end)
    ∧ missing_segments (folder_cache c') (segment_paths parts cur)
      + length created
      ≤ missing_segments (folder_cache c) (segment_paths parts cur)
    ∧ match res with
      | Return id =>
          lookup_walk (folder_cache c') parts parent cur = Some id
      | Raise e => e = RequestError
      end.
Proof.
  induction parts as [|part parts IH]; intros parent cur c res c' Hrun.
  - injection Hrun as <- <-. exists [], []. rewrite !app_nil_r.
    split_and!; try done. intros k Hk. by apply elem_of_nil in Hk.
  - rewrite create_folder_loop_cons in Hrun. cbn zeta in Hrun.
    cbn [segment_paths lookup_walk]. fold (next_path cur part) in *.
    set (cur' := next_path cur part) in *.
    unfold missing_segments in *. rewrite !filter_cons.
    destruct (Dict.get (folder_cache c) cur') as [cached|] eqn:Hget.
    + destruct (IH _ _ _ _ _ Hrun)
        as (created & calls & Hfc & Htr & Hpost & Hsub & Hnew & Hlen & Hmiss & Hres).
      exists created, calls.
      assert (Hc' : Dict.get (folder_cache c') cur' = Some cached).
      { rewrite Hfc. by apply get_app_l. }
      rewrite Hc'. rewrite !decide_False by done.
      split_and!; try done.
      intros k Hk. apply elem_of_cons. right. by apply Hsub.
    + destruct (respond (remote c) (PostFolder part parent)) as [resp r'].
      destruct (folder_data_id resp) as [fid|];
        [|injection Hrun as <- <-; exists [], [PostFolder part parent];
          cbn [folder_cache trace]; rewrite app_nil_r, Hget;
          split_and!; try done;
          [by apply Forall_singleton
          |intros k Hk; by apply elem_of_nil in Hk
          |intros k Hk; by apply elem_of_nil in Hk
          |simpl; lia]].
      destruct (IH _ _ _ _ _ Hrun)
        as (created & calls & Hfc & Htr & Hpost & Hsub & Hnew & Hlen & Hmiss & Hres).
      cbn [folder_cache trace] in *.
      rewrite (set_missing _ _ _ Hget) in *.
      exists ((cur', fid) :: created), (PostFolder part parent :: calls).
      assert (Hc' : Dict.get (folder_cache c') cur' = Some fid).
      { rewrite Hfc. apply get_app_l.
        rewrite <-(set_missing _ _ _ Hget), get_set. by rewrite decide_True. }
      rewrite Hc'. rewrite decide_False by done.
      rewrite decide_True by done.
      split_and!.
      * rewrite Hfc. by rewrite <-app_assoc.
      * rewrite Htr. by rewrite <-app_assoc.
      * by apply Forall_cons.
      * intros k Hk. rewrite fmap_cons in Hk.
        apply elem_of_cons in Hk as [->|Hk]; apply elem_of_cons;
          [by left|right; by apply Hsub].
      * intros k Hk. rewrite fmap_cons in Hk.
        apply elem_of_cons in Hk as [->|Hk]; [done|].
        eapply get_app_None. by apply Hnew.
      * simpl. lia.
      * simpl length.
        assert (length (filter (λ q, Dict.get (folder_cache c ++ [(cur', fid)]) q = None)
                          (segment_paths parts cur'))
                ≤ length (filter (λ q, Dict.get (folder_cache c) q = None)
                            (segment_paths parts cur'))); [|lia].
        apply filter_length_mono. intros q. apply get_app_None.
      * destruct res; [|done]. simpl. exact Hres.
Qed.

(** At most one request for each segment path missing at the start. *)
Lemma create_folder_loop_calls parts : ∀ parent cur c res c' calls,
  create_folder_loop parts parent cur c = (res, c') →
  trace c' = trace c ++ calls →
  length calls
  ≤ missing_segments (folder_cache c) (segment_paths parts cur).
Proof.
  induction parts as [|part parts IH]; intros parent cur c res c' calls Hrun Htr.
  - injection Hrun as _ <-.
    rewrite <-(app_nil_r (trace c)) in Htr at 1.
    apply app_inv_head in Htr as <-. simpl. lia.
  - rewrite create_folder_loop_cons in Hrun. cbn zeta in Hrun.
    cbn [segment_paths]. unfold missing_segments in *. rewrite filter_cons.
    destruct (Dict.get (folder_cache c) (next_path cur part))
      as [cached|] eqn:Hget.
    + rewrite decide_False by done. by eapply IH.
    + rewrite decide_True by done.
      destruct (respond (remote c) (PostFolder part parent)) as [resp r'].
      destruct (folder_data_id resp) as [fid|];
        [|injection Hrun as _ <-; cbn [trace] in Htr;
          apply app_inv_head in Htr as <-; simpl; lia].
      destruct (create_folder_loop_spec _ _ _ _ _ _ Hrun)
        as (_ & calls' & _ & Htr' & _).
      cbn [trace folder_cache] in *.
      rewrite Htr', <-app_assoc in Htr. apply app_inv_head in Htr as <-.
      specialize (IH _ _ _ _ _ calls' Hrun Htr'). cbn [folder_cache] in IH.
      simpl length.
      assert (length (filter (λ q, Dict.get (Dict.set (folder_cache c)
                                      (next_path cur part) fid) q = None)
                        (segment_paths parts (next_path cur part)))
              ≤ length (filter (λ q, Dict.get (folder_cache c) q = None)
                          (segment_paths parts (next_path cur part))));
        [|lia].
      apply filter_length_mono. intros q.
      rewrite (set_missing _ _ _ Hget). apply get_app_None.
Qed.

(** A run that raises ends on the request that was refused; run again on
    the cache it left, the loop hits the cache up to that segment and
    sends that same request first. *)
Lemma create_folder_loop_retry parts : ∀ parent cur c e c1,
  create_folder_loop parts parent cur c = (Raise e, c1) →
  ∃ prior failed,
    trace c1 = trace c ++ prior ++ [failed]
    ∧ ∀ c1' res2 c2,
        folder_cache c1' = folder_cache c1 →
        create_folder_loop parts parent cur c1' = (res2, c2) →
        ∃ rest, trace c2 = trace c1' ++ failed :: rest.
Proof.
  induction parts as [|part parts IH]; intros parent cur c e c1 Hrun; [done|].
  rewrite create_folder_loop_cons in Hrun. cbn zeta in Hrun.
  destruct (Dict.get (folder_cache c) (next_path cur part))
    as [cached|] eqn:Hget.
  - destruct (create_folder_loop_spec _ _ _ _ _ _ Hrun)
      as (created & _ & Hfc & _).
    destruct (IH _ _ _ _ _ Hrun) as (prior & failed & Htr & Hretry).
    exists prior, failed. split; [done|].
    intros c1' res2 c2 Hsame. rewrite create_folder_loop_cons. cbn zeta.
    rewrite Hsame, Hfc, (get_app_l _ created _ _ Hget).
    by apply Hretry.
  - destruct (respond (remote c) (PostFolder part parent)) as [resp r'] eqn:Hresp.
    destruct (folder_data_id resp) as [fid|];
      [|injection Hrun as _ <-; exists [], (PostFolder part parent);
        split; [done|];
        intros c1' res2 c2 Hsame; rewrite create_folder_loop_cons;
        cbn zeta; cbn [folder_cache] in Hsame; rewrite Hsame, Hget;
        destruct (respond (remote c1') _) as [resp2 r2];
        destruct (folder_data_id resp2) as [fid2|];
          [intros Hrun2;
           destruct (create_folder_loop_spec _ _ _ _ _ _ Hrun2)
             as (_ & calls2 & _ & Htr2 & _);
           cbn [trace] in Htr2; exists calls2;
           by rewrite Htr2, <-app_assoc
          |intros [= _ <-]; by exists []]].
    destruct (create_folder_loop_spec _ _ _ _ _ _ Hrun)
      as (created & _ & Hfc & _).
    destruct (IH _ _ _ _ _ Hrun) as (prior & failed & Htr & Hretry).
    cbn [trace folder_cache] in *.
    exists (PostFolder part parent :: prior), failed.
    split; [by rewrite Htr, <-!app_assoc|].
    intros c1' res2 c2 Hsame. rewrite create_folder_loop_cons. cbn zeta.
    assert (Hhit : Dict.get (folder_cache c1') (next_path cur part) = Some fid).
    { rewrite Hsame, Hfc. apply get_app_l. rewrite get_set.
      by rewrite decide_True. }
    rewrite Hhit. by apply Hretry.
Qed.

(** A walk that only hits the cache sends nothing and changes nothing. *)
Lemma lookup_walk_run parts : ∀ parent cur c id,
  lookup_walk (folder_cache c) parts parent cur = Some id →
  create_folder_loop parts parent cur c = (Return id, c).
Proof.
  induction parts as [|part parts IH]; intros parent cur c id Hwalk.
  - by injection Hwalk as ->.
  - rewrite create_folder_loop_cons. cbn zeta.
    cbn [lookup_walk] in Hwalk.
    destruct (Dict.get (folder_cache c) (next_path cur part)) as [cached|];
      [|done].
    by apply IH.
Qed.

Lemma lookup_walk_final fc parts : ∀ parent cur id,
  parts ≠ [] →
  lookup_walk fc parts parent cur = Some id →
  Dict.get fc (final_path parts cur) = Some id.
Proof.
  induction parts as [|part parts IH]; intros parent cur id Hne Hwalk; [done|].
  cbn [lookup_walk final_path] in *.
  destruct (Dict.get fc (next_path cur part)) as [cached|] eqn:Hget; [|done].
  destruct parts as [|part' parts].
  - simpl in *. congruence.
  - apply (IH cached _ id); [done|exact Hwalk].
Qed.

(** *** Lengths along the walk *)

Lemma next_path_length cur part :
  length cur ≤ length (next_path cur part)
  ∧ (cur ≠ [] → length cur < length (next_path cur part)).
Proof.
  unfold next_path. destruct cur as [|x cur]; simpl.
  - split; [lia|done].
  - rewrite length_app. simpl. split; intros; lia.
Qed.

Lemma final_path_length parts : ∀ cur,
  length cur ≤ length (final_path parts cur)
  ∧ (length cur = length (final_path parts cur) → final_path parts cur = cur).
Proof.
  induction parts as [|part parts IH]; intros cur; [done|].
  cbn [final_path]. destruct (IH (next_path cur part)) as [IH1 IH2].
  destruct (next_path_length cur part) as [Hle Hlt].
  split; [lia|]. intros Heq.
  destruct cur as [|x cur]; [|specialize (Hlt ltac:(done)); lia].
  rewrite IH2 by lia.
  apply nil_length_inv. simpl in *. lia.
Qed.

Lemma segment_paths_length parts : ∀ cur q,
  q ∈ segment_paths parts cur →
  length q ≤ length (final_path parts cur)
  ∧ (length q = length (final_path parts cur) → q = final_path parts cur).
Proof.
  induction parts as [|part parts IH]; intros cur q Hq.
  - by apply elem_of_nil in Hq.
  - cbn [segment_paths final_path] in *.
    apply elem_of_cons in Hq as [->|Hq]; [|by apply IH].
    destruct (final_path_length parts (next_path cur part)) as [? Heq].
    split; [done|]. intros ?. symmetry. by apply Heq.
Qed.

(** The sum of the lengths of the parts, one more for each. *)
Lemma final_path_bound parts : ∀ cur,
  length (final_path parts cur)
  ≤ length cur + parts_weight parts.
Proof.
  induction parts as [|part parts IH]; intros cur; [simpl; lia|].
  cbn [final_path parts_weight].
  specialize (IH (next_path cur part)).
  assert (length (next_path cur part) ≤ length cur + S (length part)) as Hn.
  { unfold next_path. destruct (Py.truthy cur); [|lia].
    rewrite length_app. simpl. lia. }
  lia.
Qed.

Lemma join_length part parts :
  S (length (Py.join (str "/") (part :: parts)))
  = parts_weight (part :: parts).
Proof.
  revert part. induction parts as [|p parts IH]; intros part.
  - simpl. lia.
  - change (Py.join (str "/") (part :: p :: parts))
      with (part ++ str "/" ++ Py.join (str "/") (p :: parts)).
    cbn [parts_weight] in *. rewrite <-IH.
    rewrite !length_app. simpl. lia.
Qed.

Lemma split_nonempty sep s : Py.split sep s ≠ [].
Proof.
  destruct s as [|c s]; simpl; [done|].
  destruct (decide _); [done|]. by destruct (Py.split sep s).
Qed.

Lemma join_split s : Py.join (str "/") (Py.split "/" s) = s.
Proof.
  induction s as [|c s IH]; [done|]. cbn [Py.split].
  pose proof (split_nonempty "/" s) as Hne.
  destruct (Py.split "/" s) as [|w ws] eqn:E; [done|].
  destruct (decide (c = "/"%char)) as [->|Hc].
  - change (Py.join (str "/") ([] :: w :: ws))
      with (str "/" ++ Py.join (str "/") (w :: ws)).
    by rewrite IH.
  - destruct ws as [|w' ws]; simpl in *; by rewrite IH.
Qed.

Lemma split_no_sep sep s : Forall (λ w, sep ∉ w) (Py.split sep s).
Proof.
  induction s as [|c s IH]; simpl.
  - apply Forall_singleton, not_elem_of_nil.
  - destruct (decide (c = sep)) as [->|Hc].
    + apply Forall_cons. split; [apply not_elem_of_nil|done].
    + destruct (Py.split sep s) as [|w ws]; simpl.
      * apply Forall_singleton. rewrite not_elem_of_cons.
        split; [done|apply not_elem_of_nil].
      * apply Forall_cons in IH as [Hw Hws]. apply Forall_cons.
        split; [|done]. rewrite not_elem_of_cons. split; [done|exact Hw].
Qed.

(** The final path is never longer than the path that was split. *)
Lemma final_path_split_length P :
  length (final_path (Py.split "/" P) []) ≤ length P.
Proof.
  pose proof (join_split P) as Hjs.
  pose proof (split_nonempty "/" P) as Hne.
  destruct (Py.split "/" P) as [|part parts]; [done|].
  pose proof (join_length part parts) as Hjl. rewrite Hjs in Hjl.
  cbn [final_path]. unfold next_path. cbn [Py.truthy].
  pose proof (final_path_bound parts part) as Hb.
  cbn [parts_weight] in Hjl. lia.
Qed.

(** On a path that does not begin with a slash the loop ends on the path
    itself. *)
Lemma final_path_join parts : ∀ cur,
  cur ≠ [] → final_path parts cur = Py.join (str "/") (cur :: parts).
Proof.
  induction parts as [|part parts IH]; intros cur Hcur; [done|].
  cbn [final_path]. destruct cur as [|x cur]; [done|]. cbn [Py.truthy].
  rewrite IH by done.
  destruct parts as [|p parts]; simpl; by rewrite <-?app_assoc.
Qed.

Lemma final_path_split P :
  head_not "/" P → final_path (Py.split "/" P) [] = P.
Proof.
  intros Hhead. rewrite <-(join_split P) at 2.
  destruct P as [|c P]; [done|]. simpl in Hhead.
  cbn [Py.split]. rewrite decide_False by done.
  pose proof (split_nonempty "/" P) as Hne.
  destruct (Py.split "/" P) as [|w ws]; [done|].
  cbn [final_path Py.truthy]. by apply final_path_join.
Qed.


(** [create_folder], spelled out. *)
Lemma create_folder_unfold P c :
  create_folder P c =
    match Dict.get (folder_cache c) P with
    | Some cached => (Return cached, c)
    | None =>
        match create_folder_loop (Py.split "/" P) None [] c with
        | (Return id, c') => (Return id, c')
        | (Raise e, c') => (Raise (FailedToCreateFolder P e), c')
        end
    end.
Proof.
  unfold create_folder, rewrap, mbind, M_bind, bind, get_cache, ret.
  by destruct (Dict.get (folder_cache c) P).
Qed.

(** A path in the cache after a successful run holds the identifier the
    run returned. *)
Lemma create_folder_loop_returns P c id c' v :
  Dict.get (folder_cache c) P = None →
  create_folder_loop (Py.split "/" P) None [] c = (Return id, c') →
  Dict.get (folder_cache c') P = Some v → v = id.
Proof.
  intros Hmiss Hrun Hget.
  destruct (create_folder_loop_spec _ _ _ _ _ _ Hrun)
    as (created & calls & Hfc & _ & _ & Hsub & _ & _ & _ & Hwalk).
  pose proof (lookup_walk_final _ _ _ _ _ (split_nonempty _ _) Hwalk) as Hfin.
  assert (Hin : P ∈ segment_paths (Py.split "/" P) []).
  { apply Hsub. apply get_Some_keys in Hget. unfold Dict.keys in Hget.
    rewrite Hfc, fmap_app, elem_of_app in Hget.
    destruct Hget as [Hin|Hin]; [|done].
    apply get_None in Hmiss. contradiction. }
  destruct (segment_paths_length _ _ _ Hin) as [_ Heq].
  pose proof (final_path_split_length P) as Hlen.
  destruct (segment_paths_length _ _ _ Hin) as [Hle _].
  rewrite <-Heq in Hfin by lia. congruence.
Qed.

(** *** Prefix closure *)

Lemma path_prefix_ancestors Q P : path_prefix Q P ↔ Q ∈ ancestors P.
Proof.
  split.
  - intros [rest ->]. induction Q as [|a Q IH]; simpl.
    + apply elem_of_cons. by left.
    + apply elem_of_app. right. apply list_elem_of_fmap. by exists Q.
  - revert Q. induction P as [|c P IH]; intros Q HQ; simpl in HQ.
    + by apply elem_of_nil in HQ.
    + apply elem_of_app in HQ as [HQ|HQ].
      * destruct (decide (c = "/"%char)) as [->|]; [|by apply elem_of_nil in HQ].
        apply list_elem_of_singleton in HQ as ->. by exists P.
      * apply list_elem_of_fmap in HQ as (Q' & -> & HQ').
        destruct (IH _ HQ') as [rest ->]. by exists rest.
Qed.

Lemma prefix_closedb_sound fc : prefix_closedb fc = true → prefix_closed fc.
Proof.
  unfold prefix_closedb. rewrite forallb_forall. intros Hb P Q HP HQ.
  apply list_elem_of_In in HP. specialize (Hb P HP).
  rewrite forallb_forall in Hb. apply path_prefix_ancestors in HQ.
  apply list_elem_of_In in HQ. specialize (Hb Q HQ).
  by apply bool_decide_eq_true in Hb.
Qed.

Lemma path_prefix_no_sep Q part : "/"%char ∉ part → ¬ path_prefix Q part.
Proof.
  intros Hno [rest ->]. apply Hno. rewrite elem_of_app. right.
  apply elem_of_cons. by left.
Qed.

Lemma path_prefix_snoc Q cur part :
  "/"%char ∉ part → path_prefix Q (cur ++ str "/" ++ part) →
  Q = cur ∨ path_prefix Q cur.
Proof.
  intros Hno [rest Heq].
  apply app_eq_inv in Heq as [(k & Hk1 & Hk2)|(k & Hk1 & Hk2)].
  - destruct k as [|x k].
    + left. by rewrite app_nil_r in Hk1.
    + simpl in Hk2. injection Hk2 as <- Hk2. right. by exists k.
  - destruct k as [|x k].
    + left. by rewrite app_nil_r in Hk1.
    + simpl in Hk2. injection Hk2 as <- Hk2. subst part.
      exfalso. apply Hno. rewrite elem_of_app. right.
      apply elem_of_cons. by left.
Qed.

Lemma prefix_closed_set fc cur part fid :
  "/"%char ∉ part →
  prefix_closed fc →
  (cur ≠ [] → cur ∈ Dict.keys fc) →
  prefix_closed (Dict.set fc (next_path cur part) fid).
Proof.
  intros Hno Hclosed Hcur P Q HP Hpre.
  rewrite keys_set in *.
  assert (Hgoal : Q ∈ Dict.keys fc).
  { destruct (decide _) as [|Hnew]; [by eapply Hclosed|].
    apply elem_of_app in HP as [HP|HP]; [by eapply Hclosed|].
    apply list_elem_of_singleton in HP. subst P.
    unfold next_path in Hpre. destruct cur as [|x cur]; cbn [Py.truthy] in Hpre.
    - by apply path_prefix_no_sep in Hpre.
    - destruct (path_prefix_snoc _ _ _ Hno Hpre) as [->|Hpre'].
      + by apply Hcur.
      + eapply Hclosed; [|done]. by apply Hcur. }
  destruct (decide _); [done|]. apply elem_of_app. by left.
Qed.

Lemma create_folder_loop_closed parts : ∀ parent cur c res c',
  Forall (λ w, "/"%char ∉ w) parts →
  prefix_closed (folder_cache c) →
  (cur ≠ [] → cur ∈ Dict.keys (folder_cache c)) →
  create_folder_loop parts parent cur c = (res, c') →
  prefix_closed (folder_cache c').
Proof.
  induction parts as [|part parts IH];
    intros parent cur c res c' Hparts Hclosed Hcur Hrun.
  - by injection Hrun as _ <-.
  - apply Forall_cons in Hparts as [Hpart Hparts].
    rewrite create_folder_loop_cons in Hrun. cbn zeta in Hrun.
    destruct (Dict.get (folder_cache c) (next_path cur part))
      as [cached|] eqn:Hget.
    + eapply IH; [done|done| |done]. intros _. by eapply get_Some_keys.
    + destruct (respond _ _) as [resp r'].
      destruct (folder_data_id resp) as [fid|];
        [|by injection Hrun as _ <-].
      eapply IH; [done| | |done]; cbn [folder_cache].
      * by apply prefix_closed_set.
      * intros _. eapply get_Some_keys. rewrite get_set. by rewrite decide_True.
Qed.

End FolderFacts.

(** ** The exchanges of a call *)

Section ExchangeFacts.
Import PrintagoClient.
Context {R : Type} `{RemoteStore R}.
Implicit Types (c : Client R) (r : R) (qs : list Request).

Lemma exchanges_app r qs1 qs2 :
  exchanges r (qs1 ++ qs2)
  = exchanges r qs1 ++ exchanges (remote_after r qs1) qs2.
Proof.
  revert r. induction qs1 as [|q qs1 IH]; intros r; [done|].
  cbn [app exchanges remote_after]. by rewrite IH.
Qed.

Lemma remote_after_app r qs1 qs2 :
  remote_after r (qs1 ++ qs2) = remote_after (remote_after r qs1) qs2.
Proof.
  revert r. induction qs1 as [|q qs1 IH]; intros r; [done|].
  cbn [app remote_after]. by rewrite IH.
Qed.

Lemma exchanges_requests r qs : (exchanges r qs).*1 = qs.
Proof.
  revert r. induction qs as [|q qs IH]; intros r; [done|].
  cbn [exchanges fmap list_fmap fst]. f_equal. apply IH.
Qed.

(** The two outcomes exclude each other. *)
Lemma stopped_exists xs : stopped xs → Exists fails xs.
Proof.
  intros (ok & bad & -> & _ & Hbad). apply Exists_app. right.
  by apply Exists_cons_hd.
Qed.

Lemma went_through_not_exists xs : went_through xs → ¬ Exists fails xs.
Proof.
  unfold went_through. rewrite Forall_Exists_neg. tauto.
Qed.

Lemma went_through_not_stopped xs : went_through xs → ¬ stopped xs.
Proof.
  intros Hok Hstop. by apply (went_through_not_exists xs), stopped_exists.
Qed.

Lemma stopped_cons x xs : ¬ fails x → stopped xs → stopped (x :: xs).
Proof.
  intros Hx (ok & bad & -> & Hok & Hbad). exists (x :: ok), bad.
  split_and!; [done| |done]. by apply Forall_cons.
Qed.

Lemma stopped_app xs ys : went_through xs → stopped ys → stopped (xs ++ ys).
Proof.
  intros Hxs (ok & bad & -> & Hok & Hbad). exists (xs ++ ok), bad.
  split_and!; [by rewrite app_assoc| |done]. by apply Forall_app.
Qed.

(** Exchanges that end on a given one: the requests before it and the
    request of that last exchange. *)
Lemma exchanges_snoc_inv r qs ok bad :
  exchanges r qs = ok ++ [bad] →
  ∃ prior failed,
    qs = prior ++ [failed]
    ∧ exchanges r prior = ok
    ∧ bad = (failed, (respond (remote_after r prior) failed).1).
Proof.
  intros Hx.
  assert (Hqs : qs = ok.*1 ++ [bad.1]).
  { by rewrite <-(exchanges_requests r qs), Hx, fmap_app. }
  exists ok.*1, bad.1. split; [done|].
  rewrite Hqs, exchanges_app in Hx. cbn [exchanges] in Hx.
  by apply app_inj_tail in Hx as [-> <-].
Qed.

(** The loop of [create_folder] stops at the first creation that fails,
    and only there. *)
Lemma create_folder_loop_exchanges parts : ∀ parent cur c res c',
  create_folder_loop parts parent cur c = (res, c') →
  ∃ calls,
    trace c' = trace c ++ calls
    ∧ remote c' = remote_after (remote c) calls
    ∧ Forall is_post_folder calls
    ∧ match res with
      | Return _ => went_through (exchanges (remote c) calls)
      | Raise _ => stopped (exchanges (remote c) calls)
      end.
Proof.
  induction parts as [|part parts IH]; intros parent cur c res c' Hrun.
  - injection Hrun as <- <-. exists []. rewrite app_nil_r.
    split_and!; [done..|]. constructor.
  - rewrite create_folder_loop_cons in Hrun. cbn zeta in Hrun.
    destruct (Dict.get (folder_cache c) (next_path cur part)) as [cached|].
    + by apply IH in Hrun.
    + destruct (respond (remote c) (PostFolder part parent))
        as [resp r'] eqn:Hresp.
      destruct (folder_data_id resp) as [fid|] eqn:Hid.
      * apply IH in Hrun as (calls & Htr & Hrem & Hpost & Hres).
        cbn [trace remote] in *.
        exists (PostFolder part parent :: calls).
        cbn [exchanges remote_after]. rewrite Hresp. cbn [fst snd].
        split_and!; [by rewrite Htr, <-app_assoc|done|by constructor|].
        assert (Hok : ¬ fails (PostFolder part parent, resp)).
        { unfold fails. cbn [fst snd]. by rewrite Hid. }
        destruct res; [by apply Forall_cons|by apply stopped_cons].
      * injection Hrun as <- <-. exists [PostFolder part parent].
        cbn [trace remote exchanges remote_after]. rewrite Hresp.
        cbn [fst snd]. split_and!; [done|done|by repeat constructor|].
        exists [], (PostFolder part parent, resp).
        split_and!; [done|constructor|done].
Qed.

(** The same for [create_folder], which sends nothing when the path is
    cached. *)
Lemma create_folder_exchanges folder_path c res c' :
  create_folder folder_path c = (res, c') →
  ∃ calls,
    trace c' = trace c ++ calls
    ∧ remote c' = remote_after (remote c) calls
    ∧ Forall is_post_folder calls
    ∧ match res with
      | Return _ => went_through (exchanges (remote c) calls)
      | Raise e =>
          stopped (exchanges (remote c) calls)
          ∧ e = FailedToCreateFolder folder_path RequestError
      end.
Proof.
  rewrite create_folder_unfold.
  destruct (Dict.get (folder_cache c) folder_path) as [cached|].
  - intros [= <- <-]. exists []. rewrite app_nil_r.
    split_and!; [done..|]. constructor.
  - destruct (create_folder_loop _ _ _ c) as [res0 c0] eqn:Hrun.
    destruct (create_folder_loop_exchanges _ _ _ _ _ _ Hrun)
      as (calls & Htr & Hrem & Hpost & Hres).
    destruct (create_folder_loop_spec _ _ _ _ _ _ Hrun)
      as (? & ? & _ & _ & _ & _ & _ & _ & _ & He).
    destruct res0 as [id|e0]; intros [= <- <-]; exists calls;
      split_and!; try done.
    by rewrite He.
Qed.

End ExchangeFacts.


(** ** The folder cache: [list_folders] *)

Section ListFoldersFacts.
Import PrintagoClient.
Context {R : Type} `{RemoteStore R}.
Implicit Types (c : Client R) (fc : dict pystr pyid).

Lemma prefix_closed_set_key fc k v :
  prefix_closed fc →
  (∀ Q, path_prefix Q k → Q ∈ Dict.keys fc) →
  prefix_closed (Dict.set fc k v).
Proof.
  intros Hclosed Hk P Q HP Hpre. rewrite keys_set in *.
  assert (Hgoal : Q ∈ Dict.keys fc).
  { destruct (decide _) as [|Hnew]; [by eapply Hclosed|].
    apply elem_of_app in HP as [HP|HP]; [by eapply Hclosed|].
    apply list_elem_of_singleton in HP as ->. by apply Hk. }
  destruct (decide _); [done|]. apply elem_of_app. by left.
Qed.

Lemma keys_set_mono fc k v k' :
  k' ∈ Dict.keys fc → k' ∈ Dict.keys (Dict.set fc k v).
Proof.
  rewrite keys_set. destruct (decide _); [done|].
  intros ?. apply elem_of_app. by left.
Qed.

Lemma keys_set_new fc k v : k ∈ Dict.keys (Dict.set fc k v).
Proof. eapply get_Some_keys. rewrite get_set. by rewrite decide_True. Qed.

Lemma join_snoc parts name :
  parts ≠ [] →
  Py.join (str "/") (parts ++ [name])
  = Py.join (str "/") parts ++ str "/" ++ name.
Proof.
  induction parts as [|w [|w' ws] IH]; intros Hne; [done|done|].
  change (Py.join (str "/") ((w :: w' :: ws) ++ [name]))
    with (w ++ str "/" ++ Py.join (str "/") ((w' :: ws) ++ [name])).
  rewrite IH by done.
  change (Py.join (str "/") (w :: w' :: ws))
    with (w ++ str "/" ++ Py.join (str "/") (w' :: ws)).
  by rewrite <-!app_assoc.
Qed.

Lemma bind_run {A B} (m : M R A) (k : A → M R B) c :
  (m ≫= k) c
  = match m c with
    | (Return a, c') => k a c'
    | (Raise e, c') => (Raise e, c')
    end.
Proof. reflexivity. Qed.

(** A fold of monadic steps keeps what every step keeps. *)
Lemma foldl_bind_keeps {A} (Inv : Client R → Prop) (f : A → M R unit)
    (l : list A) :
  (∀ a c res c', a ∈ l → Inv c → f a c = (res, c') → Inv c') →
  ∀ (m : M R unit),
    (∀ c res c', Inv c → m c = (res, c') → Inv c') →
    ∀ c res c',
      Inv c →
      foldl (λ (acc : M R unit) a, _ ← acc; f a) m l c = (res, c') →
      Inv c'.
Proof.
  induction l as [|a l IH]; intros Hf m Hm c res c' Hc Hrun.
  - by eapply Hm.
  - cbn [foldl] in Hrun.
    assert (Hf' : ∀ a' c0 res0 c0',
              a' ∈ l → Inv c0 → f a' c0 = (res0, c0') → Inv c0').
    { intros a' c0 res0 c0' Ha'. apply Hf. apply elem_of_cons. by right. }
    refine (IH Hf' (_ ← m; f a) _ c res c' Hc Hrun).
    intros c0 res0 c0' Hc0. rewrite bind_run.
    destruct (m c0) as [[[]|e] c1] eqn:Hrun1.
    + intros Hrun2. eapply (Hf a); [apply elem_of_cons; by left| |done].
      by eapply Hm.
    + intros [= <- <-]. by eapply Hm.
Qed.

Lemma build_path_closed depth (id_to_folder : dict pyid Folder)
    (id_to_children : dict pyid (list pyid)) :
  (∀ id f, Dict.get id_to_folder id = Some f → "/"%char ∉ f.(folder_name)) →
  ∀ folder_id path_parts c res c',
    prefix_closed (folder_cache c) →
    (path_parts ≠ [] →
     Py.join (str "/") path_parts ∈ Dict.keys (folder_cache c)) →
    build_path depth id_to_folder id_to_children folder_id path_parts c
      = (res, c') →
    prefix_closed (folder_cache c')
    ∧ ∀ k, k ∈ Dict.keys (folder_cache c) → k ∈ Dict.keys (folder_cache c').
Proof.
  intros Hnames.
  induction depth as [|depth IH];
    intros folder_id path_parts c res c' Hclosed Hparent Hrun.
  - by injection Hrun as _ <-.
  - cbn [build_path] in Hrun.
    destruct (Dict.get id_to_folder folder_id) as [folder|] eqn:Hfolder;
      [|by injection Hrun as _ <-].
    pose proof (Hnames _ _ Hfolder) as Hname.
    set (full_path := Py.join (str "/") (path_parts ++ [folder_name folder]))
      in *.
    unfold mbind at 1 2, M_bind at 1 2, bind at 1 2, get_cache, put_cache,
      with_cache in Hrun.
    cbn [folder_cache remote trace] in Hrun.
    set (c1 := {| folder_cache := Dict.set (folder_cache c) full_path folder_id;
                  remote := remote c; trace := trace c |}) in *.
    assert (Hclosed1 : prefix_closed (folder_cache c1)).
    { apply prefix_closed_set_key; [done|]. intros Q HQ. unfold full_path in HQ.
      destruct path_parts as [|w ws].
      - by apply path_prefix_no_sep in HQ.
      - rewrite join_snoc in HQ by done.
        destruct (path_prefix_snoc _ _ _ Hname HQ) as [->|HQ'].
        + by apply Hparent.
        + eapply Hclosed; [|done]. by apply Hparent. }
    pose (Inv := λ c0 : Client R,
            prefix_closed (folder_cache c0)
            ∧ ∀ k, k ∈ Dict.keys (folder_cache c1) →
                   k ∈ Dict.keys (folder_cache c0)).
    assert (Hinv : Inv c').
    { refine (foldl_bind_keeps Inv
                (λ child_id, build_path depth id_to_folder id_to_children
                               child_id (path_parts ++ [folder_name folder]))
                _ _ (ret tt) _ c1 res c' (conj Hclosed1 (λ k Hk, Hk)) Hrun).
      - intros child c0 res0 c0' _ [Hc0 Hmono] Hrun0.
        destruct (IH child (path_parts ++ [folder_name folder])
                    c0 res0 c0' Hc0) as [Hc0' Hmono']; [|done|].
        + intros _. apply Hmono. apply keys_set_new.
        + split; [done|]. intros k Hk. by apply Hmono', Hmono.
      - by intros c0 res0 c0' Hc0 [= _ <-]. }
    destruct Hinv as [Hclosed' Hmono]. split; [done|].
    intros k Hk. apply Hmono. by apply keys_set_mono.
Qed.

Lemma get_foldl_set {A K V} `{EqDecision K} (f : A → K) (g : A → V)
    (l : list A) : ∀ (d : dict K V) k v,
  Dict.get (foldl (λ m a, Dict.set m (f a) (g a)) d l) k = Some v →
  Dict.get d k = Some v ∨ ∃ a, a ∈ l ∧ v = g a.
Proof.
  induction l as [|a l IH]; intros d k v Hget; [by left|].
  cbn [foldl] in Hget. apply IH in Hget as [Hget|(a' & Ha' & ->)].
  - rewrite get_set in Hget. destruct (decide (f a = k)).
    + injection Hget as <-. right. exists a. split; [|done].
      apply elem_of_cons. by left.
    + by left.
  - right. exists a'. split; [|done]. apply elem_of_cons. by right.
Qed.

(** The population of the cache keeps it prefix-closed, whether the
    listing succeeds or fails on the way, when no folder name in the
    listing contains a slash. *)
Lemma list_folders_closed (recursion_limit : nat) c res c' :
  prefix_closed (folder_cache c) →
  (∀ folders,
     (respond (remote c) GetFolders).1 = OkFolders folders →
     Forall (λ f, "/"%char ∉ f.(folder_name)) folders) →
  list_folders recursion_limit c = (res, c') →
  prefix_closed (folder_cache c').
Proof.
  intros Hclosed Hnames. unfold list_folders, rewrap.
  rewrite bind_run. unfold send.
  destruct (respond (remote c) GetFolders) as [resp r'] eqn:Hresp.
  cbn [fst] in Hnames.
  destruct resp as [| |? |folders|? |? ?];
    try (unfold raise; intros [= _ <-]; exact Hclosed).
  specialize (Hnames folders eq_refl). rewrite Forall_forall in Hnames.
  set (c1 := {| folder_cache := folder_cache c; remote := r';
                trace := trace c ++ [GetFolders] |}).
  rewrite bind_run.
  match goal with
  | |- context [foldl ?f ?m folders c1] =>
      destruct (foldl f m folders c1) as [res1 c2] eqn:Hfold
  end.
  assert (Hclosed2 : prefix_closed (folder_cache c2)).
  { refine (foldl_bind_keeps (λ c0, prefix_closed (folder_cache c0))
              (λ folder : Folder,
                 if decide (folder.(folder_parentId) = None)
                 then build_path recursion_limit (id_to_folder_of folders)
                        (id_to_children_of folders) folder.(folder_id) []
                 else ret tt)
              folders _ (ret tt) _ c1 res1 c2 Hclosed Hfold).
    - intros folder c0 res0 c0' _ Hc0.
      destruct (decide _); [|by intros [= _ <-]].
      intros Hrun. eapply build_path_closed; [|exact Hc0|done|exact Hrun].
      intros id f Hget. unfold id_to_folder_of in Hget.
      apply (get_foldl_set folder_id (λ f, f)) in Hget
        as [Hget|(f' & Hin & ->)]; [done|]. by apply Hnames.
    - by intros c0 res0 c0' Hc0 [= _ <-]. }
  destruct res1; unfold ret; intros [= _ <-]; exact Hclosed2.
Qed.

End ListFoldersFacts.


(** ** Claims about the folder cache *)

Section FolderClaims.
Import PrintagoClient.
Context {R : Type} `{RemoteStore R}.
Implicit Types (c : Client R).

(** C4. When [create_folder P] returns an identifier, calling it again on
    the client it left behind returns the same identifier and leaves the
    client as it is: no request is sent, the cache is only read. The
    requests of the first call are all folder creations, at most one for
    each segment path of [P] that was missing from the cache. *)
Theorem create_folder_idempotent (P : pystr) c c1 (id : pyid) :
  create_folder P c = (Return id, c1) →
  create_folder P c1 = (Return id, c1)
  ∧ ∃ calls,
      trace c1 = trace c ++ calls
      ∧ Forall is_post_folder calls
      ∧ length calls
        ≤ missing_segments (folder_cache c) (segment_paths (Py.split "/" P) []).
Proof.
  rewrite !create_folder_unfold.
  destruct (Dict.get (folder_cache c) P) as [cached|] eqn:Hget.
  - intros [= -> ->]. rewrite Hget. split; [done|].
    exists []. rewrite app_nil_r. split_and!; [done|done|simpl; lia].
  - destruct (create_folder_loop _ _ _ c) as [[id'|e] c'] eqn:Hrun; [|done].
    intros [= -> ->].
    destruct (create_folder_loop_spec _ _ _ _ _ _ Hrun)
      as (created & calls & Hfc & Htr & Hpost & _ & _ & Hlen & Hmiss & Hwalk).
    split.
    + destruct (Dict.get (folder_cache c1) P) as [v|] eqn:Hget1.
      * by rewrite (create_folder_loop_returns _ _ _ _ _ Hget Hrun Hget1).
      * by rewrite (lookup_walk_run _ _ _ _ _ Hwalk).
    + exists calls. split_and!; [done|done|lia].
Qed.

(** What a call that raises leaves behind, and what a retry does. *)
Lemma create_folder_raise_spec (P : pystr) c c1 (e : Error) :
  create_folder P c = (Raise e, c1) →
  let paths := segment_paths (Py.split "/" P) [] in
  e = FailedToCreateFolder P RequestError
  ∧ ∃ created prior failed,
      folder_cache c1 = folder_cache c ++ created
      ∧ created.*1 ⊆ paths
      ∧ trace c1 = trace c ++ prior ++ [failed]
      ∧ Forall is_post_folder (prior ++ [failed])
      ∧ length prior = length created
      ∧ missing_segments (folder_cache c1) paths + length created
        ≤ missing_segments (folder_cache c) paths
      ∧ (∀ k v, Dict.get (folder_cache c) k = Some v →
                Dict.get (folder_cache c1) k = Some v)
      ∧ ∀ res2 c2,
          create_folder P c1 = (res2, c2) →
          ∃ calls2,
            trace c2 = trace c1 ++ calls2
            ∧ Forall is_post_folder calls2
            ∧ length calls2 ≤ missing_segments (folder_cache c1) paths
            ∧ (calls2 = [] ∨ ∃ rest, calls2 = failed :: rest).
Proof.
  rewrite !create_folder_unfold.
  destruct (Dict.get (folder_cache c) P) as [cached|] eqn:Hget; [done|].
  destruct (create_folder_loop _ _ _ c) as [[id'|e'] c'] eqn:Hrun; [done|].
  intros [= <- ->]. cbn zeta.
  destruct (create_folder_loop_spec _ _ _ _ _ _ Hrun)
    as (created & calls & Hfc & Htr & Hpost & Hsub & _ & Hlen & Hmiss & ->).
  destruct (create_folder_loop_retry _ _ _ _ _ _ Hrun)
    as (prior & failed & Htr' & Hretry).
  assert (calls = prior ++ [failed]) as ->.
  { rewrite Htr in Htr'. by apply app_inv_head in Htr'. }
  rewrite length_app in Hlen. simpl in Hlen.
  split; [done|]. exists created, prior, failed.
  split_and!; try done.
  - lia.
  - intros k v Hk. rewrite Hfc. by apply get_app_l.
  - intros res2 c2.
    destruct (Dict.get (folder_cache c1) P) as [cached|].
    + intros [= <- <-]. exists []. rewrite app_nil_r.
      split_and!; [done|done|simpl; lia|by left].
    + destruct (create_folder_loop _ _ _ c1) as [res' c''] eqn:Hrun2.
      destruct (create_folder_loop_spec _ _ _ _ _ _ Hrun2)
        as (created2 & calls2 & _ & Htr2 & Hpost2 & _).
      intros Heq. exists calls2.
      assert (c2 = c'') as -> by (destruct res'; congruence).
      split_and!; [done|done|by eapply create_folder_loop_calls|].
      right. destruct (Hretry c1 _ _ eq_refl Hrun2) as [rest Hrest].
      exists rest. rewrite Htr2 in Hrest. by apply app_inv_head in Hrest.
Qed.

(** C8. [create_folder P] sends folder creations only, and it fails
    exactly when one of them is refused, that is, gets an answer with no
    identifier to read: no refusal is passed over, and nothing else makes
    the call fail. The exception names [P]. The refused request is the
    last one the call sends; all the requests before it went through. The
    cache is then the old cache followed by one entry for each of those
    requests, nothing undone. A retry of [P] on that cache either finds
    [P] cached or sends, as its first request, the very request that was
    refused: the segments created before it are read from the cache, and
    the retry sends at most one request for each segment path still
    missing. *)
Theorem create_folder_failure_keeps_ancestors (P : pystr) c res c1 :
  create_folder P c = (res, c1) →
  let paths := segment_paths (Py.split "/" P) [] in
  ∃ calls,
    trace c1 = trace c ++ calls
    ∧ Forall is_post_folder calls
    ∧ (Exists fails (exchanges (remote c) calls)
       ↔ res = Raise (FailedToCreateFolder P RequestError))
    ∧ ∀ e,
        res = Raise e →
        e = FailedToCreateFolder P RequestError
        ∧ ∃ created prior failed,
            calls = prior ++ [failed]
            ∧ went_through (exchanges (remote c) prior)
            ∧ fails (failed,
                     (respond (remote_after (remote c) prior) failed).1)
            ∧ folder_cache c1 = folder_cache c ++ created
            ∧ created.*1 ⊆ paths
            ∧ length prior = length created
            ∧ missing_segments (folder_cache c1) paths + length created
              ≤ missing_segments (folder_cache c) paths
            ∧ (∀ k v, Dict.get (folder_cache c) k = Some v →
                      Dict.get (folder_cache c1) k = Some v)
            ∧ ∀ res2 c2,
                create_folder P c1 = (res2, c2) →
                ∃ calls2,
                  trace c2 = trace c1 ++ calls2
                  ∧ Forall is_post_folder calls2
                  ∧ length calls2
                    ≤ missing_segments (folder_cache c1) paths
                  ∧ (calls2 = [] ∨ ∃ rest, calls2 = failed :: rest).
Proof.
  intros Hrun. cbn zeta.
  destruct (create_folder_exchanges _ _ _ _ Hrun)
    as (calls & Htr & _ & Hpost & Hres).
  exists calls. split_and!; [done|done| |].
  - split.
    + intros Hex. destruct res as [id|e].
      * by apply went_through_not_exists in Hres.
      * by destruct Hres as [_ ->].
    + intros ->. destruct Hres as [Hstop _]. by apply stopped_exists.
  - intros e ->. destruct Hres as [(ok & bad & Hx & Hok & Hbad) _].
    destruct (create_folder_raise_spec _ _ _ _ Hrun)
      as (-> & created & prior & failed & Hfc & Hsub & Htr' & _ & Hlen
          & Hmiss & Hkeep & Hretry).
    split; [done|]. exists created, prior, failed.
    assert (calls = prior ++ [failed]) as ->.
    { rewrite Htr in Htr'. by apply app_inv_head in Htr'. }
    rewrite exchanges_app in Hx. cbn [exchanges] in Hx.
    apply app_inj_tail in Hx as [<- <-].
    by split_and!.
Qed.

(** [delete_folder], spelled out. *)
Lemma delete_folder_unfold folder_id c :
  delete_folder folder_id c =
    let q := DeleteFolderReq folder_id in
    let '(resp, r') := respond (remote c) q in
    match resp with
    | Raises =>
        (Raise (FailedToDeleteFolder RequestError),
         {| folder_cache := folder_cache c; remote := r';
            trace := trace c ++ [q] |})
    | _ =>
        (Return true,
         {| folder_cache :=
              filter (λ kv, kv.2 ≠ folder_id) (Dict.items (folder_cache c));
            remote := r'; trace := trace c ++ [q] |})
    end.
Proof.
  unfold delete_folder, rewrap, mbind, M_bind, bind, send, get_cache,
    put_cache, with_cache, raise, ret.
  cbn zeta. destruct (respond _ _) as [resp r']. by destruct resp.
Qed.

Lemma prefix_closed_filter fc folder_id :
  prefix_closed fc → no_cached_descendant fc folder_id →
  prefix_closed (filter (λ kv, kv.2 ≠ folder_id) (Dict.items fc)).
Proof.
  intros Hclosed Hkeep P Q HP Hpre. unfold Dict.keys, Dict.items in *.
  apply list_elem_of_fmap in HP as ([P' v] & -> & HP).
  apply list_elem_of_filter in HP as [Hv HP]. simpl in *.
  assert (HQ : Q ∈ fc.*1).
  { eapply Hclosed; [|done]. apply list_elem_of_fmap. by exists (P', v). }
  apply list_elem_of_fmap in HQ as ([Q' w] & -> & HQ).
  apply list_elem_of_fmap. exists (Q', w). split; [done|].
  apply list_elem_of_filter. split; [|done]. simpl.
  by eapply (Hkeep P' Q' v w).
Qed.

(** C3, as amended. On a prefix-closed cache: [create_folder] leaves the
    cache prefix-closed whether it returns or raises; when it returns for
    a path that does not begin with a slash, the path and every proper
    prefix of it are keys; [delete_folder] leaves the cache prefix-closed
    provided no remaining entry has an ancestor entry holding the deleted
    identifier; [list_folders] leaves it prefix-closed provided no folder
    name of the listing contains a slash. *)
Theorem folder_cache_prefix_closed (P : pystr) (folder_id : pyid) c :
  prefix_closed (folder_cache c) →
  (∀ res c1,
     create_folder P c = (res, c1) →
     prefix_closed (folder_cache c1)
     ∧ (head_not "/" P → (∃ id, res = Return id) →
        P ∈ Dict.keys (folder_cache c1)
        ∧ ∀ Q, path_prefix Q P → Q ∈ Dict.keys (folder_cache c1)))
  ∧ (∀ res c1,
       delete_folder folder_id c = (res, c1) →
       no_cached_descendant (folder_cache c) folder_id →
       prefix_closed (folder_cache c1))
  ∧ (∀ recursion_limit res c1,
       list_folders recursion_limit c = (res, c1) →
       (∀ folders,
          (respond (remote c) GetFolders).1 = OkFolders folders →
          Forall (λ f, "/"%char ∉ f.(folder_name)) folders) →
       prefix_closed (folder_cache c1)).
Proof.
  intros Hclosed. split_and!.
  - intros res c1. rewrite create_folder_unfold.
    destruct (Dict.get (folder_cache c) P) as [cached|] eqn:Hget.
    + intros [= <- <-]. split; [done|]. intros _ _.
      assert (HP : P ∈ Dict.keys (folder_cache c)) by by eapply get_Some_keys.
      split; [done|]. intros Q HQ. by eapply Hclosed.
    + destruct (create_folder_loop _ _ _ c) as [res' c'] eqn:Hrun.
      intros Heq. assert (c1 = c') as -> by (destruct res'; congruence).
      assert (Hclosed' : prefix_closed (folder_cache c')).
      { eapply create_folder_loop_closed; [apply split_no_sep|done|done|done]. }
      split; [done|]. intros Hhead [id ->].
      destruct res' as [id'|]; [|done].
      destruct (create_folder_loop_spec _ _ _ _ _ _ Hrun)
        as (_ & _ & _ & _ & _ & _ & _ & _ & _ & Hwalk).
      pose proof (lookup_walk_final _ _ _ _ _ (split_nonempty _ _) Hwalk) as Hfin.
      rewrite (final_path_split _ Hhead) in Hfin.
      assert (HP : P ∈ Dict.keys (folder_cache c')) by by eapply get_Some_keys.
      split; [done|]. intros Q HQ. by eapply Hclosed'.
  - intros res c1. rewrite delete_folder_unfold. cbn zeta.
    destruct (respond _ _) as [resp r'].
    destruct resp; intros [= <- <-] Hkeep; cbn [folder_cache];
      first [done | by apply prefix_closed_filter].
  - intros recursion_limit res c1 Hrun Hnames.
    by eapply list_folders_closed.
Qed.

End FolderClaims.

(** C3, as stated, fails: deleting [X] by identifier while [X/Y] is cached
    leaves [X/Y] in the cache without its prefix [X]. *)
Lemma delete_folder_breaks_prefix_closure :
  prefix_closed (PrintagoClient.folder_cache Sample.client_X_XY)
  ∧ ∃ c1,
      PrintagoClient.delete_folder (Some (str "fx")) Sample.client_X_XY
        = (Return true, c1)
      ∧ PrintagoClient.folder_cache c1 = [(str "X/Y", Some (str "fy"))]
      ∧ ¬ prefix_closed (PrintagoClient.folder_cache c1).
Proof.
  split; [by apply prefix_closedb_sound|].
  eexists. split; [vm_compute; reflexivity|]. split; [reflexivity|].
  cbn [PrintagoClient.folder_cache]. intros Hclosed.
  assert (Hin : str "X" ∈ Dict.keys [(str "X/Y", Some (str "fy"))]).
  { apply (Hclosed (str "X/Y")); [apply elem_of_cons; by left|].
    exists (str "Y"). reflexivity. }
  apply elem_of_cons in Hin as [Hin|Hin]; [discriminate|].
  by apply elem_of_nil in Hin.
Qed.

(** The idempotence theorem at [X/Y/Z] with [X] cached: two creations, then
    none. *)
Lemma create_folder_idempotent_witness :
  PrintagoClient.create_folder (str "X/Y/Z") Sample.client_X
    = (Return (Some (str "fz")), Sample.client_XYZ)
  ∧ (PrintagoClient.create_folder (str "X/Y/Z") Sample.client_XYZ
       = (Return (Some (str "fz")), Sample.client_XYZ)
     ∧ ∃ calls,
         PrintagoClient.trace Sample.client_XYZ
           = PrintagoClient.trace Sample.client_X ++ calls
         ∧ Forall is_post_folder calls
         ∧ length calls
           ≤ missing_segments (PrintagoClient.folder_cache Sample.client_X)
               (segment_paths (Py.split "/" (str "X/Y/Z")) [])).
Proof.
  split; [vm_compute; reflexivity|].
  apply (create_folder_idempotent (str "X/Y/Z") Sample.client_X).
  vm_compute. reflexivity.
Defined.

(** The failure theorem at [X/Y/Z] with [X] cached and the creation of [Z]
    refused: the call fails, and [X/Y] stays cached. *)
Lemma create_folder_failure_witness :
  PrintagoClient.create_folder (str "X/Y/Z") Sample.client_X_failing
    = (Raise (FailedToCreateFolder (str "X/Y/Z") RequestError),
       Sample.client_XY_failed)
  ∧ PrintagoClient.folder_cache Sample.client_XY_failed
    = [(str "X", Some (str "fx")); (str "X/Y", Some (str "fy"))]
  ∧ ∃ calls,
      PrintagoClient.trace Sample.client_XY_failed
        = PrintagoClient.trace Sample.client_X_failing ++ calls
      ∧ Exists fails
          (exchanges (PrintagoClient.remote Sample.client_X_failing) calls).
Proof.
  split; [vm_compute; reflexivity|]. split; [vm_compute; reflexivity|].
  destruct (create_folder_failure_keeps_ancestors (str "X/Y/Z")
              Sample.client_X_failing
              (Raise (FailedToCreateFolder (str "X/Y/Z") RequestError))
              Sample.client_XY_failed)
    as (calls & Htr & _ & Hfails & _); [vm_compute; reflexivity|].
  exists calls. split; [exact Htr|]. apply Hfails. reflexivity.
Defined.

(** The closure theorem on the cache holding [X]. *)
Lemma folder_cache_prefix_closed_witness :
  prefix_closed (PrintagoClient.folder_cache Sample.client_X)
  ∧ prefix_closed (PrintagoClient.folder_cache Sample.client_XYZ)
  ∧ str "X/Y" ∈ Dict.keys (PrintagoClient.folder_cache Sample.client_XYZ).
Proof.
  assert (Hclosed : prefix_closed (PrintagoClient.folder_cache Sample.client_X))
    by (by apply prefix_closedb_sound).
  split; [exact Hclosed|].
  destruct (folder_cache_prefix_closed (str "X/Y/Z") None Sample.client_X Hclosed)
    as (Hcreate & _ & _).
  destruct (Hcreate (Return (Some (str "fz"))) Sample.client_XYZ)
    as [Hclosed' Hkeys]; [vm_compute; reflexivity|].
  split; [exact Hclosed'|].
  apply Hkeys; [simpl; discriminate|by eexists|].
  exists (str "Z"). reflexivity.
Defined.


(** ** [delete_file] *)

Section DeleteFileClaims.
Import PrintagoClient.
Context {R : Type} `{RemoteStore R}.
Implicit Types (c : Client R).

Lemma delete_file_loop_spec part_name folder_id parts : ∀ n c res c',
  delete_file_loop part_name folder_id parts n c = (res, c') →
  folder_cache c' = folder_cache c
  ∧ ∃ attempted : list Part,
      trace c' = trace c ++ (DeletePartReq ∘ get_id <$> attempted)
      ∧ attempted `prefix_of` filter (part_matches part_name folder_id) parts
      ∧ match res with
        | Return m =>
            attempted = filter (part_matches part_name folder_id) parts
            ∧ m = n + length attempted
        | Raise e => e = RequestError
        end.
Proof.
  induction parts as [|part parts IH]; intros n c res c' Hrun.
  - injection Hrun as <- <-. split; [done|]. exists [].
    rewrite app_nil_r. split_and!; first [done | simpl; lia].
  - cbn [delete_file_loop] in Hrun. rewrite filter_cons.
    fold (part_matches part_name folder_id part) in *.
    destruct (decide (part_matches part_name folder_id part)) as [Hm|Hm].
    + unfold mbind, M_bind, bind, send, raise in Hrun. cbn zeta in Hrun.
      destruct (respond (remote c) (DeletePartReq (get_id part)))
        as [resp r'].
      assert (Hcont :
        ∀ c0, folder_cache c0 = folder_cache c →
              trace c0 = trace c ++ [DeletePartReq (get_id part)] →
              delete_file_loop part_name folder_id parts (S n) c0 = (res, c') →
              folder_cache c' = folder_cache c
              ∧ ∃ attempted : list Part,
                  trace c' = trace c ++ (DeletePartReq ∘ get_id <$> attempted)
                  ∧ attempted `prefix_of`
                      part :: filter (part_matches part_name folder_id) parts
                  ∧ match res with
                    | Return m =>
                        attempted
                        = part :: filter (part_matches part_name folder_id) parts
                        ∧ m = n + length attempted
                    | Raise e => e = RequestError
                    end).
      { intros c0 Hfc0 Htr0 Hrun0.
        destruct (IH _ _ _ _ Hrun0) as (Hfc & attempted & Htr & Hpre & Hres).
        split; [congruence|]. exists (part :: attempted).
        split_and!.
        - rewrite Htr, Htr0, <-app_assoc. done.
        - by apply prefix_cons.
        - destruct res as [m|e]; [|done]. destruct Hres as [-> ->].
          split; [done|]. simpl. lia. }
      destruct resp; try (by apply Hcont in Hrun).
      injection Hrun as <- <-. cbn [folder_cache trace].
      split; [done|]. exists [part]. split_and!; try done.
      apply prefix_cons, prefix_nil.
    + destruct (IH _ _ _ _ Hrun) as (Hfc & attempted & Htr & Hpre & Hres).
      split; [done|]. by exists attempted.
Qed.

(** C6. [delete_file] sends one search by the derived part name and then
    deletion requests only for listed parts whose name is that name and
    whose [folderId] is the identifier resolved from the cache ([None] when
    the folder path is empty or not cached). When it returns, the deletion
    requests are exactly those parts, in listing order; when it raises,
    they are the parts up to the one whose deletion failed. The cache is
    not touched. *)
Theorem delete_file_scoped (relative_path : pystr) c res c1 :
  delete_file relative_path c = (res, c1) →
  let safe_path := _sanitize_path relative_path in
  let part_name := (PosixPath.splitext (PosixPath.basename safe_path)).1 in
  let folder_path :=
    Py.replace [Py.backslash] (str "/") (PosixPath.dirname safe_path) in
  let folder_id := delete_file_folder_id (folder_cache c) folder_path in
  (Dict.get (folder_cache c) folder_path = None → folder_id = None)
  ∧ folder_cache c1 = folder_cache c
  ∧ ∃ attempted : list Part,
      trace c1
      = trace c ++ GetPartsByName part_name
                   :: (DeletePartReq ∘ get_id <$> attempted)
      ∧ Forall (part_matches part_name folder_id) attempted
      ∧ ∀ parts,
          (respond (remote c) (GetPartsByName part_name)).1 = OkParts parts →
          attempted `prefix_of`
            filter (part_matches part_name folder_id) parts
          ∧ ((∃ found, res = Return found) →
             attempted = filter (part_matches part_name folder_id) parts).
Proof.
  unfold delete_file. cbn zeta.
  set (part_name := (PosixPath.splitext _).1).
  set (folder_path := Py.replace [Py.backslash] _ _).
  set (folder_id := delete_file_folder_id _ _).
  unfold rewrap, mbind, M_bind, bind, get_cache, send, raise, ret.
  cbn zeta. fold folder_id.
  destruct (respond (remote c) (GetPartsByName part_name)) as [resp r'].
  intros Hrun. split.
  { unfold folder_id, delete_file_folder_id. intros ->. by destruct (Py.truthy _). }
  destruct resp as [| |? |? |parts|? ?];
    try (injection Hrun as <- <-; cbn [folder_cache trace];
         split; [done|]; exists []; split_and!; (done || by intros ? [=])).
  cbn [fst].
  destruct (delete_file_loop part_name folder_id parts 0 _)
    as [res' c'] eqn:Hloop.
  destruct (delete_file_loop_spec _ _ _ _ _ _ _ Hloop)
    as (Hfc & attempted & Htr & Hpre & Hres).
  cbn [folder_cache trace] in *.
  assert (c1 = c') as -> by (destruct res'; congruence).
  split; [done|]. exists attempted. split_and!.
  - rewrite Htr, <-app_assoc. done.
  - destruct Hpre as [k Hk].
    assert (Hall : Forall (part_matches part_name folder_id)
                     (filter (part_matches part_name folder_id) parts)).
    { apply Forall_forall. intros p Hp.
      by apply list_elem_of_filter in Hp as [? _]. }
    rewrite Hk in Hall. by apply Forall_app in Hall as [? _].
  - intros parts' [= <-]. split; [done|]. intros [found ->].
    destruct res' as [m|e]; [|done]. by destruct Hres.
Qed.

End DeleteFileClaims.

(** The scoping theorem on [X/A.stl]: of two parts named [A], only the one
    in folder [X] is deleted. *)
Lemma delete_file_scoped_witness :
  ∃ c1 attempted,
    PrintagoClient.delete_file (str "X/A.stl") Sample.client_two_A
      = (Return true, c1)
    ∧ PrintagoClient.trace c1
      = [GetPartsByName (str "A"); DeletePartReq (Some (str "pA-in-X"))]
    ∧ PrintagoClient.trace c1
      = [] ++ GetPartsByName (str "A")
              :: (DeletePartReq ∘ get_id <$> attempted)
    ∧ Forall (part_matches (str "A") (Some (str "fx"))) attempted.
Proof.
  exists (PrintagoClient.delete_file (str "X/A.stl") Sample.client_two_A).2.
  destruct (delete_file_scoped (str "X/A.stl") Sample.client_two_A
              (Return true)
              (PrintagoClient.delete_file (str "X/A.stl") Sample.client_two_A).2)
    as (_ & _ & attempted & Htr & Hall & _); [vm_compute; reflexivity|].
  exists attempted. split; [reflexivity|]. split; [reflexivity|].
  split; [exact Htr|exact Hall].
Defined.


(** ** The size ceiling *)

Section WorkerClaims.
Import PrintagoClient FileWatchHandler.
Context {R : Type} `{RemoteStore R}.
Variable fs : FileSystem.
Variable sha256_hexdigest : list Byte.byte → pystr.
Implicit Types (h : Handler R).

(** C9. When the worker takes an upload of a file whose size is above
    500 * 1024 * 1024 bytes, the client is left exactly as it was (no
    request reaches the trace, the remote and the cache are untouched),
    the item is gone from the queue, and, the file being there, one line
    is logged: the too-large rejection, or the suspicious-path rejection
    when the path fails the containment check, which comes first. *)
Theorem oversized_upload_rejected (file_path : pystr) (file_size : Z)
    (rest : list Item) h :
  fs_getsize fs file_path = Some file_size →
  (500 * 1024 * 1024 < file_size)%Z →
  upload_queue h = Upload file_path :: rest →
  let h' := _upload_worker_iteration fs sha256_hexdigest h in
  client h' = client h
  ∧ trace (client h') = trace (client h)
  ∧ upload_queue h' = rest
  ∧ (fs_exists fs file_path = true →
     log h'
     = log h ++ [if _is_safe_path fs file_path
                 then LogFileTooLarge file_path
                 else LogBlockedSuspiciousPath file_path])
  ∧ (fs_exists fs file_path = false → log h' = log h).
Proof.
  intros Hsize Hbig Hqueue. cbn zeta.
  unfold _upload_worker_iteration. rewrite Hqueue.
  cbn [process]. unfold _upload_file. rewrite Hsize.
  assert (Hmax : (max_file_size <? file_size)%Z = true).
  { apply Z.ltb_lt. unfold max_file_size. lia. }
  rewrite Hmax.
  destruct (fs_exists fs file_path); destruct (_is_safe_path fs file_path);
    cbn [negb client log upload_queue write_log];
    split_and!; done.
Qed.

End WorkerClaims.

(** The ceiling theorem on a file one byte over the limit. *)
Lemma oversized_upload_rejected_witness :
  let h := Sample.handler_of Sample.client_X [Upload (str "/w/huge.stl")] in
  let h' :=
    FileWatchHandler._upload_worker_iteration Sample.disk_huge
      Sample.sha256_stub h in
  fs_getsize Sample.disk_huge (str "/w/huge.stl") = Some 524288001%Z
  ∧ FileWatchHandler.client h' = FileWatchHandler.client h
  ∧ FileWatchHandler.upload_queue h' = []
  ∧ FileWatchHandler.log h' = [LogFileTooLarge (str "/w/huge.stl")].
Proof.
  cbv zeta.
  destruct (oversized_upload_rejected Sample.disk_huge Sample.sha256_stub
              (str "/w/huge.stl") 524288001%Z []
              (Sample.handler_of Sample.client_X [Upload (str "/w/huge.stl")]))
    as (Hclient & _ & Hqueue & Hlog & _);
    [vm_compute; reflexivity|lia|reflexivity|].
  split; [vm_compute; reflexivity|]. split; [exact Hclient|].
  split; [exact Hqueue|]. apply Hlog. vm_compute. reflexivity.
Defined.


(** ** The snapshots and the queue of [initial_sync] *)

Section SnapshotFacts.
Import PrintagoClient FileWatchHandler.
Context {R : Type} `{RemoteStore R}.
Variable fs : FileSystem.
Variable order : SetOrder.
Variable recursion_limit : nat.

(** The remote part index is a dictionary. *)
Lemma printago_map_of_wf fc printago_parts :
  Dict.wf (printago_map_of fc printago_parts).
Proof.
  unfold printago_map_of.
  apply (wf_foldl_set
           (λ part, (if id_truthy part.(get_folderId)
                     then folder_path_of_id fc part.(get_folderId) else [],
                     get_name_or_empty part))
           get_id).
  apply NoDup_nil_2.
Qed.

Lemma scan_file_wf root file acc scan :
  Dict.wf acc.(local_files) → scan_file fs root file acc = Some scan →
  Dict.wf scan.(local_files).
Proof.
  unfold scan_file. intros Hwf. destruct (Py.startswith _ _).
  - by intros [= <-].
  - destruct (fs_relative_to_watch _ _); [|done]. simpl.
    intros [= <-]. cbn [local_files]. by apply wf_set.
Qed.

Lemma scan_files_wf root files : ∀ acc scan,
  (∀ a, acc = Some a → Dict.wf a.(local_files)) →
  foldl (λ a file, a ≫= scan_file fs root file) acc files = Some scan →
  Dict.wf scan.(local_files).
Proof.
  induction files as [|file files IH]; intros acc scan Hwf Hscan.
  - by apply Hwf.
  - cbn [foldl] in Hscan. eapply IH; [|exact Hscan].
    intros a Ha. destruct acc as [acc|]; [|done]. simpl in Ha.
    eapply scan_file_wf; [|exact Ha]. by apply Hwf.
Qed.

Lemma scan_dir_wf entry acc scan :
  Dict.wf acc.(local_files) → scan_dir fs entry acc = Some scan →
  Dict.wf scan.(local_files).
Proof.
  unfold scan_dir. intros Hwf.
  destruct (fs_relative_to_watch fs entry.1) as [rel|]; [|done]. simpl.
  apply scan_files_wf. intros a [= <-]. by destruct (decide _).
Qed.

(** The local file index is a dictionary. *)
Lemma scan_local_wf scan :
  scan_local fs = Some scan → Dict.wf scan.(local_files).
Proof.
  unfold scan_local.
  assert (Hgen : ∀ entries acc,
            (∀ a, acc = Some a → Dict.wf a.(local_files)) →
            foldl (λ a entry, a ≫= scan_dir fs entry) acc entries = Some scan →
            Dict.wf scan.(local_files)).
  { induction entries as [|entry entries IH]; intros acc Hwf Hscan.
    - by apply Hwf.
    - cbn [foldl] in Hscan. eapply IH; [|exact Hscan].
      intros a Ha. destruct acc as [acc|]; [|done]. simpl in Ha.
      eapply scan_dir_wf; [|exact Ha]. by apply Hwf. }
  apply Hgen. intros a [= <-]. apply NoDup_nil_2.
Qed.

Lemma put_all_queue (items : list Item) : ∀ h : Handler R,
  upload_queue (foldl (λ h item, put item h) h items)
    = upload_queue h ++ items
  ∧ client (foldl (λ h item, put item h) h items) = client h.
Proof.
  induction items as [|item items IH]; intros h.
  - by rewrite app_nil_r.
  - cbn [foldl]. destruct (IH (put item h)) as [-> ->].
    cbn [put upload_queue client]. by rewrite <-app_assoc.
Qed.

(** What the pass leaves on the queue: when both listings come back, the
    body of the second can be run through as parts and the scan goes
    through, the plan computed from the two snapshots, after what was
    there; otherwise nothing new. *)
Lemma initial_sync_queue (h : Handler R) :
  let h' := initial_sync fs order recursion_limit h in
  match list_folders recursion_limit (client h) with
  | (Return _, c1) =>
      match list_all_parts c1 with
      | (Return printago_parts, c2) =>
          match parts_of_body printago_parts, scan_local fs with
          | Some parts, Some scan =>
              upload_queue h'
              = upload_queue h
                ++ sync_plan order (folder_cache c2)
                     (printago_map_of (folder_cache c2) parts) scan
              ∧ client h' = c2
          | _, _ => upload_queue h' = upload_queue h
          end
      | (Raise _, _) => upload_queue h' = upload_queue h
      end
  | (Raise _, _) => upload_queue h' = upload_queue h
  end.
Proof.
  cbn zeta. unfold initial_sync. cbn [client write_log with_client].
  destruct (list_folders _ _) as [[folders|e] c1]; [|done].
  cbn [client write_log with_client].
  destruct (list_all_parts c1) as [[printago_parts|e] c2]; [|done].
  destruct (parts_of_body printago_parts) as [parts|]; [|done].
  destruct (scan_local fs) as [scan|]; [|done].
  cbn [upload_queue client write_log].
  match goal with
  | |- context [foldl _ ?h0 ?items] =>
      destruct (put_all_queue items h0) as [-> ->]
  end.
  done.
Qed.

End SnapshotFacts.


(** ** The reconciliation plan *)

Section PlanFacts.
Import PrintagoClient FileWatchHandler.
Variable order : SetOrder.

Lemma contains_false {K V} `{EqDecision K} (d : dict K V) k :
  Dict.contains d k = false ↔ Dict.get d k = None.
Proof. unfold Dict.contains. by destruct (Dict.get d k). Qed.

Lemma filter_ext_in {A} (P Q : A → Prop)
    `{∀ x, Decision (P x)} `{∀ x, Decision (Q x)} (l : list A) :
  (∀ x, x ∈ l → (P x ↔ Q x)) → filter P l = filter Q l.
Proof.
  induction l as [|x l IH]; intros Hext; [done|].
  rewrite !filter_cons.
  assert (HPQ : P x ↔ Q x) by (apply Hext, elem_of_cons; by left).
  rewrite IH by (intros y Hy; apply Hext, elem_of_cons; by right).
  destruct (decide (P x)), (decide (Q x)); tauto.
Qed.

Lemma filter_none {A} (P : A → Prop) `{∀ x, Decision (P x)} (l : list A) :
  (∀ x, x ∈ l → ¬ P x) → filter P l = [].
Proof.
  induction l as [|x l IH]; intros Hno; [done|].
  rewrite filter_cons, decide_False by (apply Hno, elem_of_cons; by left).
  apply IH. intros y Hy. apply Hno, elem_of_cons. by right.
Qed.

Lemma filter_all {A} (P : A → Prop) `{∀ x, Decision (P x)} (l : list A) :
  (∀ x, x ∈ l → P x) → filter P l = l.
Proof.
  induction l as [|x l IH]; intros Hall; [done|].
  rewrite filter_cons, decide_True by (apply Hall, elem_of_cons; by left).
  f_equal. apply IH. intros y Hy. apply Hall, elem_of_cons. by right.
Qed.

Lemma filter_key_unique {K V} `{EqDecision K} (d : dict K V) k v :
  Dict.wf d → Dict.get d k = Some v →
  filter (λ kv, kv.1 = k) (Dict.items d) = [(k, v)].
Proof.
  unfold Dict.wf, Dict.keys, Dict.items.
  induction d as [|[k' v'] d IH]; [done|].
  rewrite fmap_cons, NoDup_cons. cbn [fst Dict.get]. intros [Hk' Hnd].
  rewrite filter_cons. cbn [fst].
  destruct (decide (k' = k)) as [->|Hne].
  - intros [= ->]. f_equal.
    apply filter_none. intros [k2 v2] Hin Heq. simpl in Heq. subst k2.
    apply Hk'. apply list_elem_of_fmap. by exists (k, v2).
  - intros Hg. by apply IH.
Qed.

Lemma set_iter_empty : set_iter order ∅ = [].
Proof.
  apply Permutation_nil_r. by rewrite set_iter_perm, elements_empty.
Qed.

Lemma folder_deletions_only_folders fc s :
  Forall is_delete_folder (folder_deletions order fc s).
Proof.
  unfold folder_deletions.
  induction (set_iter order s) as [|p l IH]; [done|].
  cbn [flat_map]. apply Forall_app. split; [|done].
  destruct (id_truthy _); [by apply Forall_singleton|done].
Qed.

Lemma upload_in_plan fc printago_map scan p :
  Upload p ∈ sync_plan order fc printago_map scan
  ↔ p ∈ to_upload_of scan.(local_files) printago_map.
Proof.
  unfold sync_plan. rewrite !elem_of_app, !list_elem_of_fmap. split.
  - intros [(p' & [= ->] & Hp)|[(id & [=] & _)|Hin]]; [done|].
    pose proof (folder_deletions_only_folders fc
                  (folders_to_delete_of fc scan.(all_local_folders))) as Hall.
    rewrite Forall_forall in Hall. by apply Hall in Hin.
  - intros Hp. left. by exists p.
Qed.

Lemma delete_part_in_plan fc printago_map scan id :
  DeletePartId id ∈ sync_plan order fc printago_map scan
  ↔ id ∈ to_delete_of scan.(local_files) printago_map.
Proof.
  unfold sync_plan. rewrite !elem_of_app, !list_elem_of_fmap. split.
  - intros [(p' & [=] & _)|[(id' & [= ->] & Hid)|Hin]]; [done|].
    pose proof (folder_deletions_only_folders fc
                  (folders_to_delete_of fc scan.(all_local_folders))) as Hall.
    rewrite Forall_forall in Hall. by apply Hall in Hin.
  - intros Hid. right. left. by exists id.
Qed.

Lemma filter_items_keys {K V} (P : K → Prop) `{∀ k, Decision (P k)}
    (d : dict K V) :
  length (filter (λ kv, P kv.1) (Dict.items d))
  = length (filter P (Dict.keys d)).
Proof.
  unfold Dict.items, Dict.keys. induction d as [|[k v] d IH]; [done|].
  rewrite fmap_cons, !filter_cons. cbn [fst].
  destruct (decide (P k)); simpl; by rewrite IH.
Qed.

Lemma filter_fmap_all {A} (f : A → Item) (P : Item → Prop)
    `{∀ x, Decision (P x)} (l : list A) :
  (∀ a, P (f a)) → filter P (f <$> l) = f <$> l.
Proof.
  intros HP. induction l as [|a l IH]; [done|].
  rewrite fmap_cons, filter_cons, decide_True by done. by rewrite IH.
Qed.

Lemma filter_fmap_none {A} (f : A → Item) (P : Item → Prop)
    `{∀ x, Decision (P x)} (l : list A) :
  (∀ a, ¬ P (f a)) → filter P (f <$> l) = [].
Proof.
  intros HP. apply filter_none. intros x Hx.
  apply list_elem_of_fmap in Hx as (a & -> & _). apply HP.
Qed.

Lemma filter_folder_deletions (P : Item → Prop) `{∀ x, Decision (P x)} fc s :
  (∀ f, ¬ P (DeleteFolderId f)) →
  filter P (folder_deletions order fc s) = [].
Proof.
  intros HP. apply filter_none. intros x Hx.
  pose proof (folder_deletions_only_folders fc s) as Hall.
  rewrite Forall_forall in Hall. specialize (Hall x Hx).
  destruct x; first [done | apply HP].
Qed.

(** C2. For dictionaries as Python builds them (no key twice): the plan
    holds [Upload p] exactly when [p] is the local file of a key absent
    from the remote part index, and [DeletePartId id] exactly when [id] is
    the remote part of a key absent from the local file index; there are as
    many uploads as local keys absent remotely and as many part deletions
    as remote keys absent locally. For remote keys (root, A), (X, B) and
    local keys (root, A), (X, C), with folder X on both sides, the plan is
    the upload of X/C followed by the deletion of the part at (X, B), and
    nothing else. *)
Theorem sync_plan_uploads_and_part_deletions
    (fc : dict pystr pyid) (printago_map : dict (pystr * option pystr) pyid)
    (scan : LocalScan) :
  Dict.wf printago_map → Dict.wf scan.(local_files) →
  let plan := sync_plan order fc printago_map scan in
  (∀ p, Upload p ∈ plan
        ↔ ∃ key, Dict.get scan.(local_files) key = Some p
                 ∧ Dict.get printago_map key = None)
  ∧ (∀ id, DeletePartId id ∈ plan
           ↔ ∃ key, Dict.get printago_map key = Some id
                    ∧ Dict.get scan.(local_files) key = None)
  ∧ length (filter is_upload plan)
    = length (filter (λ key, Dict.get printago_map key = None)
                     (Dict.keys scan.(local_files)))
  ∧ length (filter is_delete_part plan)
    = length (filter (λ key, Dict.get scan.(local_files) key = None)
                     (Dict.keys printago_map))
  ∧ printago_map_of Sample.cache_X [Sample.part_A_at_root; Sample.part_B_in_X]
    = Sample.printago_map_AB
  ∧ scan_local Sample.disk_AC = Some Sample.scan_AC
  ∧ sync_plan order Sample.cache_X Sample.printago_map_AB Sample.scan_AC
    = [Upload (str "/w/X/C.stl"); DeletePartId (Some (str "pB"))].
Proof.
  intros Hremote Hlocal. cbn zeta. split_and!.
  - intros p. rewrite upload_in_plan. unfold to_upload_of.
    rewrite list_elem_of_fmap. split.
    + intros ([key p'] & -> & Hin). apply list_elem_of_filter in Hin as [Hc Hin].
      exists key. split; [by apply items_get|by apply contains_false].
    + intros (key & Hget & Hmiss). exists (key, p). split; [done|].
      apply list_elem_of_filter. split; [by apply contains_false|].
      by apply get_Some_items.
  - intros id. rewrite delete_part_in_plan. unfold to_delete_of.
    rewrite list_elem_of_fmap. split.
    + intros ([key id'] & -> & Hin). apply list_elem_of_filter in Hin as [Hc Hin].
      exists key. split; [by apply items_get|by apply contains_false].
    + intros (key & Hget & Hmiss). exists (key, id). split; [done|].
      apply list_elem_of_filter. split; [by apply contains_false|].
      by apply get_Some_items.
  - unfold sync_plan. rewrite !filter_app.
    rewrite (filter_fmap_all Upload) by done.
    rewrite (filter_fmap_none DeletePartId) by (intros ? []).
    rewrite filter_folder_deletions by (intros ? []).
    rewrite !app_nil_r, length_fmap. unfold to_upload_of.
    rewrite length_fmap.
    rewrite <-(filter_items_keys (λ key, Dict.get printago_map key = None)).
    f_equal. apply filter_ext_in. intros [key p] _. apply contains_false.
  - unfold sync_plan. rewrite !filter_app.
    rewrite (filter_fmap_none Upload) by (intros ? []).
    rewrite (filter_fmap_all DeletePartId) by done.
    rewrite filter_folder_deletions by (intros ? []).
    rewrite app_nil_r, app_nil_l, length_fmap. unfold to_delete_of.
    rewrite length_fmap.
    rewrite <-(filter_items_keys
                 (λ key, Dict.get scan.(local_files) key = None)).
    f_equal. apply filter_ext_in. intros [key p] _. apply contains_false.
  - vm_compute. reflexivity.
  - vm_compute. reflexivity.
  - unfold sync_plan.
    assert (Hnone : folders_to_delete_of Sample.cache_X
                      Sample.scan_AC.(all_local_folders) = ∅)
      by (vm_compute; reflexivity).
    rewrite Hnone. unfold folder_deletions. rewrite set_iter_empty.
    vm_compute. reflexivity.
Qed.

End PlanFacts.

(** The plan theorem on the sample snapshots. *)
Lemma sync_plan_uploads_and_part_deletions_witness :
  Dict.wf Sample.printago_map_AB
  ∧ Dict.wf Sample.scan_AC.(FileWatchHandler.local_files)
  ∧ (Upload (str "/w/X/C.stl")
       ∈ FileWatchHandler.sync_plan (order_by []) Sample.cache_X
           Sample.printago_map_AB Sample.scan_AC
     ↔ ∃ key,
         Dict.get Sample.scan_AC.(FileWatchHandler.local_files) key
           = Some (str "/w/X/C.stl")
         ∧ Dict.get Sample.printago_map_AB key = None).
Proof.
  assert (Hremote : Dict.wf Sample.printago_map_AB)
    by (apply (bool_decide_eq_true_1 _); vm_compute; reflexivity).
  assert (Hlocal : Dict.wf Sample.scan_AC.(FileWatchHandler.local_files))
    by (apply (bool_decide_eq_true_1 _); vm_compute; reflexivity).
  split; [exact Hremote|]. split; [exact Hlocal|].
  exact (proj1 (sync_plan_uploads_and_part_deletions (order_by [])
                  Sample.cache_X Sample.printago_map_AB Sample.scan_AC
                  Hremote Hlocal) (str "/w/X/C.stl")).
Defined.

(** ** Renames *)

Section RenameClaims.
Import PrintagoClient FileWatchHandler.
Variable order : SetOrder.
Variable fs : FileSystem.

(** What a callback adds to the queue: nothing, or one upload or one
    delete-by-path item; never a deletion by identifier. *)
Lemma callbacks_put {R : Type} (h : Handler R) (event : Event) :
  puts_live_items h (on_created fs event h)
  ∧ puts_live_items h (on_modified fs event h)
  ∧ puts_live_items h (on_deleted fs event h).
Proof.
  unfold on_created, on_modified, on_deleted, puts_live_items.
  destruct (negb _ && _).
  - split_and!; eexists [_]; (split_and!;
      [reflexivity|apply Forall_singleton; split; intros []|reflexivity]).
  - split_and!; exists []; rewrite app_nil_r; by split_and!.
Qed.

Lemma folders_to_delete_none (fc : dict pystr pyid) (folders : gset pystr) :
  (∀ p, p ∈ Dict.keys fc → p ∈ folders) →
  folders_to_delete_of fc folders = ∅.
Proof.
  intros Hall. unfold folders_to_delete_of. apply leibniz_equiv.
  intros p. rewrite elem_of_difference, elem_of_list_to_set.
  split; [|intros Hp; by apply not_elem_of_empty in Hp].
  intros [Hp Hn]. exfalso. by apply Hn, Hall.
Qed.

(** C7, as amended. In a reconciliation pass where the only difference
    between the two sides is that the remote holds a part under (d, A)
    and the disk a file under (d, B), the plan is exactly one [Upload] of
    B's file followed by one [DeletePartId] of A's part. In the live path
    the deletion event of A and the creation event of B, both inside the
    watch root, put exactly one [Delete] (by local path) for A and one
    [Upload] for B; no callback ever puts a deletion by identifier. The
    queue has no rename item. *)
Theorem rename_is_upload_and_delete
    (d A B : pystr) (part_id : pyid) (path_B : pystr)
    (fc : dict pystr pyid) (printago_map : dict (pystr * option pystr) pyid)
    (scan : LocalScan) :
  Dict.wf printago_map → Dict.wf scan.(local_files) →
  Dict.get printago_map (d, Some A) = Some part_id →
  Dict.get scan.(local_files) (d, Some A) = None →
  Dict.get scan.(local_files) (d, Some B) = Some path_B →
  Dict.get printago_map (d, Some B) = None →
  (∀ key, key ≠ (d, Some A) → key ≠ (d, Some B) →
          (Dict.get scan.(local_files) key = None
           ↔ Dict.get printago_map key = None)) →
  (∀ p, p ∈ Dict.keys fc → p ∈ scan.(all_local_folders)) →
  sync_plan order fc printago_map scan
    = [Upload path_B; DeletePartId part_id]
  ∧ (∀ (R : Type) (h : Handler R) (src_A src_B : pystr),
       _is_safe_path fs src_A = true → _is_safe_path fs src_B = true →
       upload_queue
         (on_created fs {| is_directory := false; src_path := src_B |}
            (on_deleted fs {| is_directory := false; src_path := src_A |} h))
       = upload_queue h ++ [Delete src_A; Upload src_B])
  ∧ (∀ (R : Type) (h : Handler R) (event : Event) (id : pyid),
       DeletePartId id ∈ upload_queue (on_created fs event h)
       ∨ DeletePartId id ∈ upload_queue (on_modified fs event h)
       ∨ DeletePartId id ∈ upload_queue (on_deleted fs event h) →
       DeletePartId id ∈ upload_queue h).
Proof.
  intros Hremote Hlocal HA HnoA HB HnoB Hsame Hfolders. split_and!.
  - unfold sync_plan. rewrite (folders_to_delete_none _ _ Hfolders).
    unfold folder_deletions. rewrite set_iter_empty. cbn [flat_map].
    rewrite app_nil_r. unfold to_upload_of, to_delete_of.
    rewrite (filter_ext_in _ (λ kv, kv.1 = (d, Some B))).
    2:{ intros [key p] Hin. cbn [fst]. rewrite contains_false.
        split; [|by intros ->].
        intros Hmiss. destruct (decide (key = (d, Some B))) as [|HneB]; [done|].
        exfalso. apply (items_get _ _ _ Hlocal) in Hin.
        destruct (decide (key = (d, Some A))) as [->|HneA]; [congruence|].
        apply (Hsame key HneA HneB) in Hmiss. congruence. }
    rewrite (filter_key_unique _ _ _ Hlocal HB).
    rewrite (filter_ext_in _ (λ kv, kv.1 = (d, Some A))).
    2:{ intros [key p] Hin. cbn [fst]. rewrite contains_false.
        split; [|by intros ->].
        intros Hmiss. destruct (decide (key = (d, Some A))) as [|HneA]; [done|].
        exfalso. apply (items_get _ _ _ Hremote) in Hin.
        destruct (decide (key = (d, Some B))) as [->|HneB]; [congruence|].
        apply (Hsame key HneA HneB) in Hmiss. congruence. }
    rewrite (filter_key_unique _ _ _ Hremote HA). reflexivity.
  - intros R h src_A src_B HsafeA HsafeB.
    unfold on_created, on_deleted. cbn [is_directory src_path negb andb].
    rewrite HsafeA, HsafeB. cbn [upload_queue put write_log].
    by rewrite <-app_assoc.
  - intros R h event id Hin.
    destruct (callbacks_put h event)
      as ((i1 & E1 & F1 & _) & (i2 & E2 & F2 & _) & (i3 & E3 & F3 & _)).
    rewrite E1, E2, E3, !elem_of_app in Hin.
    rewrite Forall_forall in F1, F2, F3.
    destruct Hin as [[|Hin]|[[|Hin]|[|Hin]]]; try done;
      [apply F1 in Hin|apply F2 in Hin|apply F3 in Hin];
      by destruct Hin as [Hin _].
Qed.

End RenameClaims.

(** C7, as stated, fails in the live path: the events of a rename from
    [A.stl] to [B.stl] put a delete-by-path item for A and an upload for B
    on the queue, and no deletion by part identifier. *)
Lemma live_rename_puts_no_part_deletion :
  let h := Sample.handler_of Sample.client_X [] in
  let h' :=
    FileWatchHandler.on_created Sample.disk_B Sample.event_created_B
      (FileWatchHandler.on_deleted Sample.disk_B Sample.event_deleted_A h) in
  FileWatchHandler.upload_queue h'
    = [Delete (str "/w/A.stl"); Upload (str "/w/B.stl")]
  ∧ ¬ ∃ part_id, DeletePartId part_id ∈ FileWatchHandler.upload_queue h'.
Proof.
  cbv zeta. split; [vm_compute; reflexivity|].
  intros [part_id Hin]. vm_compute in Hin.
  apply elem_of_cons in Hin as [Hin|Hin]; [discriminate|].
  apply elem_of_cons in Hin as [Hin|Hin]; [discriminate|].
  by apply elem_of_nil in Hin.
Qed.

(** The rename theorem on the sample: part [A] remote, file [B.stl] local. *)
Lemma rename_is_upload_and_delete_witness :
  Dict.get Sample.printago_map_A ([], Some (str "A")) = Some (Some (str "pA-root"))
  ∧ Dict.get Sample.scan_B.(FileWatchHandler.local_files) ([], Some (str "B"))
    = Some (str "/w/B.stl")
  ∧ FileWatchHandler.sync_plan (order_by []) [] Sample.printago_map_A
      Sample.scan_B
    = [Upload (str "/w/B.stl"); DeletePartId (Some (str "pA-root"))].
Proof.
  split; [reflexivity|]. split; [reflexivity|].
  refine (proj1 (rename_is_upload_and_delete (order_by []) Sample.disk_B
                   [] (str "A") (str "B") (Some (str "pA-root"))
                   (str "/w/B.stl") [] Sample.printago_map_A Sample.scan_B
                   _ _ _ _ _ _ _ _)).
  - apply (bool_decide_eq_true_1 _). vm_compute. reflexivity.
  - apply (bool_decide_eq_true_1 _). vm_compute. reflexivity.
  - reflexivity.
  - reflexivity.
  - reflexivity.
  - reflexivity.
  - intros key HneA HneB.
    unfold Sample.scan_B, Sample.printago_map_A.
    cbn [FileWatchHandler.local_files Dict.get].
    rewrite !decide_False by congruence. done.
  - intros p Hp. by apply elem_of_nil in Hp.
Defined.


(** ** The order of folder deletions *)

Section SiblingScript.
Import DeleteEmptyFolders.

Lemma insert_by_depth_perm x l : insert_by_depth x l ≡ₚ x :: l.
Proof.
  induction l as [|y l IH]; [done|]. cbn [insert_by_depth].
  destruct (decide _); [|done]. rewrite IH. apply Permutation_swap.
Qed.

Lemma insert_by_depth_sorted x l :
  StronglySorted deeper_first l →
  StronglySorted deeper_first (insert_by_depth x l).
Proof.
  induction 1 as [|y l Hsorted IH Hall]; cbn [insert_by_depth].
  - repeat constructor.
  - destruct (decide _) as [Hlt|Hge].
    + constructor; [done|]. rewrite insert_by_depth_perm.
      constructor; [|done]. unfold deeper_first. lia.
    + constructor; [by constructor|].
      constructor; [unfold deeper_first; lia|].
      eapply Forall_impl; [exact Hall|].
      intros z. unfold deeper_first. lia.
Qed.

(** The clean-up script deletes deepest first: in the sorted list no entry
    is followed by a deeper one, and the list holds the same entries. *)
Lemma sort_to_delete_deepest_first (to_delete : list Candidate) :
  StronglySorted deeper_first (sort_to_delete to_delete)
  ∧ sort_to_delete to_delete ≡ₚ to_delete.
Proof.
  unfold sort_to_delete.
  induction to_delete as [|x l [IHsorted IHperm]]; cbn [foldr].
  - split; [constructor|done].
  - split; [by apply insert_by_depth_sorted|].
    by rewrite insert_by_depth_perm, IHperm.
Qed.

Lemma insert_by_depth_filter (d : nat) x l :
  StronglySorted deeper_first l →
  filter (λ c, c.(cand_depth) = d) (insert_by_depth x l)
  = filter (λ c, c.(cand_depth) = d) (x :: l).
Proof.
  induction 1 as [|y l Hsorted IH Hall]; cbn [insert_by_depth]; [done|].
  destruct (decide _) as [Hlt|Hge]; [|done].
  rewrite (filter_cons _ y), IH, !(filter_cons _ x), (filter_cons _ y).
  repeat destruct (decide _); try done. lia.
Qed.

(** The sort is stable: the entries of any one depth come out in the
    order they went in. *)
Lemma sort_to_delete_stable (d : nat) (to_delete : list Candidate) :
  filter (λ c, c.(cand_depth) = d) (sort_to_delete to_delete)
  = filter (λ c, c.(cand_depth) = d) to_delete.
Proof.
  unfold sort_to_delete.
  induction to_delete as [|x l IH]; cbn [foldr]; [done|].
  rewrite insert_by_depth_filter, !filter_cons, IH; [done|].
  apply (sort_to_delete_deepest_first l).
Qed.

End SiblingScript.

(** C1 does not hold of [initial_sync]. With remote folders [X] and [X/Y]
    absent from the disk, the pass puts the folder deletions on the queue in
    the iteration order of the set [folders_to_delete]: under a hash order
    that visits [X] first, the deletion of [X] is queued before that of
    [X/Y]; under the opposite hash order it is queued after. Nothing sorts
    by depth, unlike the clean-up script on the same two folders. *)
Theorem initial_sync_folder_order_is_hash_order :
  let h := Sample.handler_of Sample.client_listing_X_XY [] in
  let sync order :=
    FileWatchHandler.initial_sync Sample.disk_empty order 1000 h in
  PrintagoClient.folder_cache
    (FileWatchHandler.client (sync Sample.parent_first))
    = [(str "X", Some (str "fx")); (str "X/Y", Some (str "fxy"))]
  ∧ FileWatchHandler.upload_queue (sync Sample.parent_first)
    = [DeleteFolderId (Some (str "fx")); DeleteFolderId (Some (str "fxy"))]
  ∧ FileWatchHandler.upload_queue (sync Sample.child_first)
    = [DeleteFolderId (Some (str "fxy")); DeleteFolderId (Some (str "fx"))]
  ∧ DeleteEmptyFolders.cand_path
      <$> DeleteEmptyFolders.sort_to_delete
            [DeleteEmptyFolders.candidate (Some (str "fx")) (str "X") (str "X");
             DeleteEmptyFolders.candidate (Some (str "fxy")) (str "Y") (str "X/Y")]
    = [str "X/Y"; str "X"].
Proof.
  cbv zeta. split_and!; vm_compute; reflexivity.
Qed.


(** ** What each operation sends *)

Section Sends.
Import PrintagoClient FileWatchHandler.
Context {R : Type} `{RemoteStore R}.
Implicit Types (P : Request → Prop) (c : Client R).

Lemma sends_ret {A} P (a : A) : sends P (ret a : M R A).
Proof.
  intros c res c' [= <- <-]. exists []. by rewrite app_nil_r.
Qed.

Lemma sends_raise {A} P e : sends P (raise e : M R A).
Proof.
  intros c res c' [= <- <-]. exists []. by rewrite app_nil_r.
Qed.

Lemma sends_get_cache P : sends P (get_cache : M R _).
Proof.
  intros c res c' [= <- <-]. exists []. by rewrite app_nil_r.
Qed.

Lemma sends_put_cache P fc : sends P (put_cache fc : M R _).
Proof.
  intros c res c' [= <- <-]. exists []. by rewrite app_nil_r.
Qed.

Lemma sends_send P q : P q → sends P (send q : M R _).
Proof.
  intros HP c res c'. unfold send. destruct (respond _ _) as [resp r'].
  intros [= <- <-]. exists [q]. split; [done|by apply Forall_singleton].
Qed.

Lemma sends_bind {A B} P (m : M R A) (k : A → M R B) :
  sends P m → (∀ a, sends P (k a)) → sends P (m ≫= k).
Proof.
  intros Hm Hk c res c'. unfold mbind, M_bind, bind.
  destruct (m c) as [[a|e] c1] eqn:Hrun.
  - intros Hrun'. destruct (Hm _ _ _ Hrun) as (r1 & Htr1 & HP1).
    destruct (Hk a _ _ _ Hrun') as (r2 & Htr2 & HP2).
    exists (r1 ++ r2). split; [by rewrite Htr2, Htr1, app_assoc|].
    by apply Forall_app.
  - intros [= <- <-]. by apply (Hm _ _ _ Hrun).
Qed.

Lemma sends_rewrap {A} P wrap (m : M R A) : sends P m → sends P (rewrap wrap m).
Proof.
  intros Hm c res c'. unfold rewrap.
  destruct (m c) as [[a|e] c1] eqn:Hrun; intros [= <- <-];
    by apply (Hm _ _ _ Hrun).
Qed.

Lemma sends_mono {A} P Q (m : M R A) :
  (∀ q, P q → Q q) → sends P m → sends Q m.
Proof.
  intros HPQ Hm c res c' Hrun. destruct (Hm _ _ _ Hrun) as (reqs & Htr & HP).
  exists reqs. split; [done|]. by eapply Forall_impl.
Qed.

Lemma create_folder_sends P folder_path :
  (∀ name parentId, P (PostFolder name parentId)) →
  sends P (create_folder folder_path : M R _).
Proof.
  intros HP. apply (sends_mono is_post_folder).
  { intros q Hq. destruct q; first [done | apply HP]. }
  intros c res c'. rewrite create_folder_unfold.
  destruct (Dict.get _ _).
  - intros [= <- <-]. exists []. by rewrite app_nil_r.
  - destruct (create_folder_loop _ _ _ c) as [res' c''] eqn:Hrun.
    destruct (create_folder_loop_spec _ _ _ _ _ _ Hrun)
      as (_ & calls & _ & Htr & Hpost & _).
    intros Heq. assert (c' = c'') as -> by (destruct res'; congruence).
    by exists calls.
Qed.

Lemma delete_file_loop_sends P part_name folder_id parts n :
  (∀ part_id, P (DeletePartReq part_id)) →
  sends P (delete_file_loop part_name folder_id parts n : M R _).
Proof.
  intros HP. revert n. induction parts as [|part parts IH]; intros n.
  - apply sends_ret.
  - cbn [delete_file_loop]. destruct (decide _); [|apply IH].
    apply sends_bind; [by apply sends_send|].
    intros resp. destruct resp; first [apply sends_raise | apply IH].
Qed.

Lemma delete_file_sends relative_path :
  sends not_folder_deletion (delete_file relative_path : M R _).
Proof.
  unfold delete_file. apply sends_rewrap. cbn zeta.
  apply sends_bind; [apply sends_get_cache|]. intros fc.
  apply sends_bind; [by apply sends_send|]. intros resp.
  destruct resp; try apply sends_ret; try apply sends_raise.
  apply sends_bind; [by apply delete_file_loop_sends|].
  intros n. apply sends_ret.
Qed.

Lemma upload_file_sends fs sha256_hexdigest relative_path file_path :
  sends not_folder_deletion
    (upload_file fs sha256_hexdigest relative_path file_path : M R _).
Proof.
  unfold upload_file. apply sends_rewrap. cbn zeta.
  apply sends_bind.
  { destruct (Py.truthy _); [by apply create_folder_sends|apply sends_ret]. }
  intros folder_id.
  apply sends_bind; [by apply sends_send|]. intros signed.
  destruct signed; try apply sends_raise.
  destruct (fs_read _ _); [|apply sends_raise].
  apply sends_bind; [by apply sends_send|]. intros upload_response.
  destruct upload_response; try apply sends_raise;
    (apply sends_bind; [by apply sends_send|]; intros part_response;
     destruct part_response; first [apply sends_raise | apply sends_ret]).
Qed.

Variable fs : FileSystem.
Variable sha256_hexdigest : list Byte.byte → pystr.

(** What the worker sends for one item; the queue is not touched. *)
Lemma process_sends (item : Item) (h : Handler R) :
  let h' := process fs sha256_hexdigest item h in
  upload_queue h' = upload_queue h
  ∧ ∃ reqs,
      trace (client h') = trace (client h) ++ reqs
      ∧ match item with
        | DeletePartId part_id => reqs = [DeletePartReq part_id]
        | DeleteFolderId folder_id => reqs = [DeleteFolderReq folder_id]
        | _ => Forall not_folder_deletion reqs
        end.
Proof.
  cbn zeta. destruct item as [file_path|file_path|part_id|folder_id];
    cbn [process].
  - assert (Hnone : ∃ reqs, trace (client h) = trace (client h) ++ reqs
                            ∧ Forall not_folder_deletion reqs)
      by (exists []; by rewrite app_nil_r).
    destruct (fs_exists fs file_path); [|done].
    unfold _upload_file.
    destruct (negb _); [done|]. destruct (fs_getsize _ _); [|done].
    destruct (_ <? _)%Z; [done|].
    destruct (_get_relative_path _ _) as [rel_path|]; [|done].
    destruct (upload_file _ _ _ _ _) as [[b|e] c'] eqn:Hrun;
      (split; [done|]);
      by apply (upload_file_sends _ _ _ _ _ _ _ Hrun).
  - unfold _delete_file.
    destruct (_get_relative_path _ _) as [rel_path|].
    + destruct (delete_file _ _) as [[[|]|e] c'] eqn:Hrun;
        (split; [done|]);
        by apply (delete_file_sends _ _ _ _ Hrun).
    + split; [done|]. exists []. by rewrite app_nil_r.
  - unfold _delete_part_by_id, send.
    destruct (respond _ _) as [resp r'].
    destruct resp; (split; [done|]); by eexists.
  - unfold _delete_folder_by_id. rewrite delete_folder_unfold. cbn zeta.
    destruct (respond _ _) as [resp r'].
    destruct resp; (split; [done|]); by eexists.
Qed.

End Sends.

(** ** The order in which deletions reach the remote *)

Section SessionClaims.
Import PrintagoClient FileWatchHandler.
Context {R : Type} `{RemoteStore R}.
Variable order : SetOrder.
Variable fs : FileSystem.
Variable sha256_hexdigest : list Byte.byte → pystr.

Lemma filter_live items :
  Forall (λ item, ¬ sync_deletion item) items →
  filter sync_deletion items = [].
Proof.
  intros Hall. apply filter_none. intros x Hx.
  rewrite Forall_forall in Hall. by apply Hall.
Qed.

Lemma puts_live_items_added (h h' : Handler R) :
  puts_live_items h h' →
  upload_queue h' = upload_queue h ++ added h h'
  ∧ Forall (λ item, ¬ sync_deletion item) (added h h')
  ∧ client h' = client h.
Proof.
  intros (items & Hq & Hlive & Hc). unfold added.
  rewrite Hq, drop_app_length. split_and!; [done| |done].
  eapply Forall_impl; [exact Hlive|]. intros item [? ?] [?|?]; done.
Qed.

Lemma prefix_before {A} (X Z ps fds : list A) (item : A) :
  X ++ item :: Z = ps ++ fds → item ∉ ps → ∃ k, X = ps ++ k.
Proof.
  intros Heq Hnot. apply app_eq_inv in Heq as [(k & -> & _)|(k & -> & Hk)].
  - by exists k.
  - destruct k as [|y k].
    + exists []. by rewrite !app_nil_r.
    + injection Hk as <- _. exfalso. apply Hnot.
      rewrite elem_of_app. right. apply elem_of_cons. by left.
Qed.

Lemma parts_deleted_first_app part_ids t reqs :
  parts_deleted_first part_ids t →
  Forall not_folder_deletion reqs →
  parts_deleted_first part_ids (t ++ reqs).
Proof.
  intros Hgood Hreqs t1 folder_id t2 Heq part_id Hin.
  rewrite Forall_forall in Hreqs.
  apply app_eq_inv in Heq as [(k & -> & Hk)|(k & -> & Hk)].
  - destruct k as [|y k].
    + exfalso. simpl in Hk.
      apply (Hreqs (DeleteFolderReq folder_id)).
      rewrite <-Hk. apply elem_of_cons. by left.
    + injection Hk as <- Hk. by eapply Hgood.
  - exfalso. apply (Hreqs (DeleteFolderReq folder_id)).
    rewrite Hk, elem_of_app. right. apply elem_of_cons. by left.
Qed.

Lemma parts_deleted_first_folder part_ids t folder_id :
  parts_deleted_first part_ids t →
  (∀ part_id, part_id ∈ part_ids → DeletePartReq part_id ∈ t) →
  parts_deleted_first part_ids (t ++ [DeleteFolderReq folder_id]).
Proof.
  intros Hgood Hall t1 folder_id' t2 Heq part_id Hin.
  apply app_eq_inv in Heq as [(k & -> & Hk)|(k & -> & Hk)].
  - destruct k as [|y k].
    + rewrite app_nil_r in Hall. by apply Hall.
    + injection Hk as <- Hk. by eapply Hgood.
  - destruct k as [|y k].
    + rewrite app_nil_r. by apply Hall.
    + injection Hk as _ Hk. by destruct k.
Qed.

Lemma session_inv_callback (h0 : Handler R) part_ids folder_items
    (s : Session R) (h' : Handler R) :
  puts_live_items (handler s) h' →
  session_inv h0 part_ids folder_items s →
  session_inv h0 part_ids folder_items (after_callback s h').
Proof.
  intros Hput (Hfifo & Hsync & t & Htr & Hgood & Happ).
  apply puts_live_items_added in Hput as (Hq & Hlive & Hc).
  unfold session_inv, after_callback.
  cbn [handler pending enqueued applied]. split_and!.
  - by rewrite Hq, !app_assoc, Hfifo.
  - rewrite <-Hsync, !filter_app, (filter_live _ Hlive). by rewrite app_nil_r.
  - exists t. by rewrite Hc.
Qed.

Lemma session_inv_step (h0 : Handler R) part_ids folder_items
    (s s' : Session R) :
  Forall (λ item, ¬ sync_deletion item) (upload_queue h0) →
  Forall is_delete_folder folder_items →
  step fs sha256_hexdigest s s' →
  session_inv h0 part_ids folder_items s →
  session_inv h0 part_ids folder_items s'.
Proof.
  intros Hlive0 Hfolders Hstep Hinv.
  destruct Hstep as [h item rest enq app|s event|s event|s event|s].
  - destruct Hinv as (Hfifo & Hsync & t & Htr & Hgood & Happ).
    unfold session_inv. cbn [handler pending enqueued applied put
                               upload_queue client] in *.
    split_and!.
    + by rewrite !app_assoc, Hfifo.
    + by rewrite <-app_assoc.
    + by exists t.
  - apply session_inv_callback; [|done]. apply callbacks_put.
  - apply session_inv_callback; [|done]. apply callbacks_put.
  - apply session_inv_callback; [|done]. apply callbacks_put.
  - destruct Hinv as (Hfifo & Hsync & t & Htr & Hgood & Happ).
    unfold session_inv, _upload_worker_iteration.
    cbn [handler pending enqueued applied].
    destruct (upload_queue (handler s)) as [|item rest] eqn:Hqueue.
    { cbn [take]. rewrite app_nil_r, Hqueue. split_and!; [done|done|].
      by exists t. }
    cbn [take].
    destruct (process_sends fs sha256_hexdigest item
                {| client := client (handler s); log := log (handler s);
                   upload_queue := rest;
                   initial_sync_done := initial_sync_done (handler s) |})
      as (Hq & reqs & Htr' & Hreqs).
    cbn [upload_queue client] in Hq, Htr'.
    split_and!.
    + by rewrite Hq, <-app_assoc.
    + done.
    + exists (t ++ reqs). split; [by rewrite Htr', Htr, app_assoc|].
      (* every part of the pass has been applied once a folder deletion
         is at the head of the queue *)
      assert (Hhead : ∀ folder_id, item = DeleteFolderId folder_id →
                ∀ part_id, part_id ∈ part_ids → DeletePartReq part_id ∈ t).
      { intros folder_id -> part_id Hin. apply Happ.
        assert (Hflt : filter sync_deletion (applied s)
                       ++ DeleteFolderId folder_id
                          :: (filter sync_deletion rest
                              ++ filter sync_deletion (pending s))
                       = (DeletePartId <$> part_ids) ++ folder_items).
        { rewrite <-Hsync, filter_app.
          assert (Henq : filter sync_deletion (enqueued s)
                         = filter sync_deletion (applied s)
                           ++ DeleteFolderId folder_id
                              :: filter sync_deletion rest).
          { transitivity (filter sync_deletion
                            (upload_queue h0 ++ enqueued s)).
            - by rewrite filter_app, (filter_live _ Hlive0).
            - rewrite <-Hfifo, filter_app, filter_cons.
              rewrite decide_True by (by right). done. }
          rewrite Henq, <-app_assoc. done. }
        apply prefix_before in Hflt as [k Hk].
        - assert (Hin' : DeletePartId part_id
                         ∈ filter sync_deletion (applied s)).
          { rewrite Hk, elem_of_app. left. apply list_elem_of_fmap.
            by exists part_id. }
          by apply list_elem_of_filter in Hin' as [_ ?].
        - intros Hbad. by apply list_elem_of_fmap in Hbad as (? & [=] & _). }
      split.
      * destruct item as [p|p|part_id|folder_id].
        -- by apply parts_deleted_first_app.
        -- by apply parts_deleted_first_app.
        -- subst reqs. apply parts_deleted_first_app; [done|].
           by apply Forall_singleton.
        -- subst reqs. apply parts_deleted_first_folder; [done|].
           by apply (Hhead folder_id).
      * intros part_id Hin. rewrite elem_of_app in Hin. rewrite elem_of_app.
        destruct Hin as [Hin|Hin]; [left; by apply Happ|].
        apply list_elem_of_singleton in Hin. subst item reqs.
        right. apply elem_of_cons. by left.
Qed.

End SessionClaims.

Section OrderingClaim.
Import PrintagoClient FileWatchHandler.
Context {R : Type} `{RemoteStore R}.
Variable order : SetOrder.
Variable fs : FileSystem.
Variable sha256_hexdigest : list Byte.byte → pystr.

Lemma sync_plan_deletions fc printago_map scan :
  filter sync_deletion (sync_plan order fc printago_map scan)
  = (DeletePartId <$> to_delete_of scan.(local_files) printago_map)
    ++ folder_deletions order fc
         (folders_to_delete_of fc scan.(all_local_folders)).
Proof.
  unfold sync_plan. rewrite !filter_app.
  rewrite (filter_fmap_none Upload) by (intros ? [[]|[]]).
  rewrite (filter_fmap_all DeletePartId) by (intros ?; by left).
  rewrite app_nil_l. f_equal.
  apply filter_all. intros item Hin. right.
  pose proof (folder_deletions_only_folders order fc
                (folders_to_delete_of fc scan.(all_local_folders))) as Hall.
  rewrite Forall_forall in Hall. by apply Hall.
Qed.

Lemma sync_plan_order fc printago_map scan i j part_id folder_id :
  sync_plan order fc printago_map scan !! i = Some (DeletePartId part_id) →
  sync_plan order fc printago_map scan !! j = Some (DeleteFolderId folder_id) →
  i < j.
Proof.
  unfold sync_plan. intros Hi Hj.
  set (us := to_upload_of _ _) in *. set (ps := to_delete_of _ _) in *.
  set (fds := folder_deletions _ _ _) in *.
  assert (Hfds : Forall is_delete_folder fds)
    by apply folder_deletions_only_folders.
  rewrite Forall_forall in Hfds.
  apply lookup_app_Some in Hi as [Hi|[Hlen Hi]].
  { apply list_lookup_fmap_Some in Hi as (? & [=] & ?). }
  apply lookup_app_Some in Hi as [Hi|[_ Hi]].
  2:{ apply list_elem_of_lookup_2 in Hi. by apply Hfds in Hi. }
  apply lookup_lt_Some in Hi.
  apply lookup_app_Some in Hj as [Hj|[Hlen' Hj]].
  { apply list_lookup_fmap_Some in Hj as (? & [=] & ?). }
  apply lookup_app_Some in Hj as [Hj|[Hlen'' _]].
  { apply list_lookup_fmap_Some in Hj as (? & [=] & ?). }
  rewrite !length_fmap in *. lia.
Qed.

(** C5. Every reconciliation pass puts each of its part deletions on the
    queue before any of its folder deletions. In a session that starts
    with no deletion by identifier on the queue, whatever way the puts of
    the pass, the event callbacks and the iterations of the single worker
    interleave: what the worker has applied followed by what waits on the
    queue is exactly what was enqueued, in that order (first in, first
    out, one item per iteration), and in the requests sent since the
    start every folder deletion comes after the deletion request of each
    part the pass planned to delete. *)
Theorem part_deletions_precede_folder_deletions
    (fc : dict pystr pyid) (printago_map : dict (pystr * option pystr) pyid)
    (scan : LocalScan) (h0 : Handler R) (s : Session R) :
  let plan := sync_plan order fc printago_map scan in
  let part_ids := to_delete_of scan.(local_files) printago_map in
  Forall (λ item, ¬ sync_deletion item) (upload_queue h0) →
  rtc (step fs sha256_hexdigest) (start h0 plan) s →
  (∀ i j part_id folder_id,
     plan !! i = Some (DeletePartId part_id) →
     plan !! j = Some (DeleteFolderId folder_id) → i < j)
  ∧ applied s ++ upload_queue (handler s) = upload_queue h0 ++ enqueued s
  ∧ filter sync_deletion (enqueued s ++ pending s)
    = filter sync_deletion plan
  ∧ ∃ t,
      trace (client (handler s)) = trace (client h0) ++ t
      ∧ parts_deleted_first part_ids t.
Proof.
  cbn zeta. intros Hlive Hreach.
  split; [intros ????; apply sync_plan_order|].
  rewrite sync_plan_deletions.
  assert (Hinv : session_inv h0
                   (to_delete_of scan.(local_files) printago_map)
                   (folder_deletions order fc
                      (folders_to_delete_of fc scan.(all_local_folders)))
                   s).
  { revert s Hreach. apply rtc_ind_r.
    - unfold session_inv, start. cbn [handler pending enqueued applied].
      rewrite app_nil_l, app_nil_r. split_and!; [done| |].
      + apply sync_plan_deletions.
      + exists []. rewrite app_nil_r. split_and!; [done| |].
        * intros t1 ? t2 Heq. by destruct t1.
        * intros ? Hin. by apply elem_of_nil in Hin.
    - intros s s' _ Hstep Hinv.
      eapply session_inv_step; [done| |done|done].
      apply folder_deletions_only_folders. }
  destruct Hinv as (Hfifo & Hsync & t & Htr & Hgood & _).
  split_and!; [done|done|]. by exists t.
Qed.

End OrderingClaim.

(** The ordering theorem on a pass that plans the deletion of part [B] and
    of its folder [X]: after two puts and two worker iterations the remote
    has received the part deletion, then the folder deletion. *)
Lemma part_deletions_precede_folder_deletions_witness :
  PrintagoClient.trace
    (FileWatchHandler.client (handler Sample.session_B_in_X))
    = [DeletePartReq (Some (str "pB")); DeleteFolderReq (Some (str "fx"))]
  ∧ ∃ t,
      PrintagoClient.trace
        (FileWatchHandler.client (handler Sample.session_B_in_X))
        = PrintagoClient.trace
            (FileWatchHandler.client Sample.handler_B_in_X) ++ t
      ∧ parts_deleted_first
          (FileWatchHandler.to_delete_of
             Sample.scan_nothing.(FileWatchHandler.local_files)
             Sample.printago_map_B) t.
Proof.
  split; [vm_compute; reflexivity|].
  refine (proj2 (proj2 (proj2
    (part_deletions_precede_folder_deletions (order_by []) Sample.disk_empty
       Sample.sha256_stub Sample.cache_X Sample.printago_map_B
       Sample.scan_nothing Sample.handler_B_in_X Sample.session_B_in_X _ _)))).
  - apply Forall_nil_2.
  - eapply rtc_l; [apply step_sync_put|].
    eapply rtc_l; [apply step_sync_put|].
    eapply rtc_l; [apply step_worker|].
    eapply rtc_l; [apply step_worker|].
    apply rtc_refl.
Defined.


(** ** More on [_sanitize_path] *)

Lemma subst_char_not_elem x y (s : pystr) : x ≠ y → x ∉ (subst_char x y <$> s).
Proof.
  intros Hxy Hin. apply list_elem_of_fmap in Hin as (c & Hc & _).
  unfold subst_char in Hc. destruct (decide (c = x)); congruence.
Qed.

Lemma subst_char_keeps_out x y z (s : pystr) :
  z ≠ y → z ∉ s → z ∉ (subst_char x y <$> s).
Proof.
  intros Hzy Hz Hin. apply list_elem_of_fmap in Hin as (c & Hc & Hin).
  unfold subst_char in Hc. destruct (decide (c = x)); [congruence|].
  subst. contradiction.
Qed.

Lemma subst_char_id x y (s : pystr) : x ∉ s → subst_char x y <$> s = s.
Proof.
  induction s as [|c s IH]; [done|]. rewrite not_elem_of_cons.
  intros [Hc Hs]. rewrite fmap_cons, IH by done. unfold subst_char.
  by rewrite decide_False by congruence.
Qed.

Lemma replace_from_no_dotdot s :
  has_dotdot s = false → Py.replace_from (str "..") [] 0 s = s.
Proof.
  induction s as [|c s IH]; [done|]. intros Hd.
  cbn [Py.replace_from].
  destruct (decide _) as [[k Hk]|_].
  - exfalso. destruct s as [|c2 t]; [done|]. simpl in Hk.
    injection Hk as -> -> _. rewrite has_dotdot_unfold in Hd.
    by rewrite !bool_decide_eq_true_2 in Hd.
  - f_equal. apply IH. by eapply has_dotdot_tail.
Qed.

Lemma lstrip_id chars s :
  (∀ c, c ∈ chars → head_not c s) → Py.lstrip chars s = s.
Proof.
  intros Hh. destruct s as [|x s]; [done|]. simpl.
  destruct (decide (x ∈ chars)) as [Hx|]; [|done].
  by destruct (Hh x Hx).
Qed.

Lemma sanitize_no_forbidden_char (path : pystr) (ch : ascii) :
  ch ∈ forbidden_chars → ch ∉ PrintagoClient._sanitize_path path.
Proof.
  unfold PrintagoClient._sanitize_path.
  change (str "*") with ["*"%char]. change (str "?") with ["?"%char].
  change (str "|") with ["|"%char]. change (str "_") with ["_"%char].
  change (str ":") with [":"%char]. change (str ">") with [">"%char].
  change (str "<") with ["<"%char].
  rewrite !replace_char. set (stripped := Py.lstrip _ _).
  unfold forbidden_chars. rewrite !elem_of_cons, elem_of_nil.
  intros [->|[->|[->|[->|[->|[->|[->|[]]]]]]]].
  all: repeat first
    [ by apply subst_char_not_elem
    | apply subst_char_keeps_out; [done|] ].
Qed.

Lemma sanitize_path_clean_id p :
  clean_path p → PrintagoClient._sanitize_path p = p.
Proof.
  intros (Hdd & Hs & Hb & Hch).
  unfold PrintagoClient._sanitize_path.
  change (str "*") with ["*"%char]. change (str "?") with ["?"%char].
  change (str "|") with ["|"%char]. change (str "_") with ["_"%char].
  change (str ":") with [":"%char]. change (str ">") with [">"%char].
  change (str "<") with ["<"%char].
  rewrite !replace_char. unfold Py.replace.
  rewrite replace_from_no_dotdot.
  2:{ apply not_true_iff_false. by rewrite <-has_dotdot_substring. }
  rewrite lstrip_id.
  2:{ intros c. rewrite !elem_of_cons, elem_of_nil.
      intros [->|[->|[]]]; done. }
  assert (Hout : ∀ ch, ch ∈ forbidden_chars → ch ∉ p) by exact Hch.
  unfold forbidden_chars in Hout.
  rewrite (subst_char_id "<" _ p) by (apply Hout; set_solver).
  rewrite (subst_char_id ">" _ p) by (apply Hout; set_solver).
  rewrite (subst_char_id ":" _ p) by (apply Hout; set_solver).
  rewrite (subst_char_id Py.dquote _ p) by (apply Hout; set_solver).
  rewrite (subst_char_id "|" _ p) by (apply Hout; set_solver).
  rewrite (subst_char_id "?" _ p) by (apply Hout; set_solver).
  by rewrite (subst_char_id "*" _ p) by (apply Hout; set_solver).
Qed.

Lemma sanitize_path_is_clean p : clean_path (PrintagoClient._sanitize_path p).
Proof.
  split_and!.
  - unfold PrintagoClient._sanitize_path.
    change (str "*") with ["*"%char]. change (str "?") with ["?"%char].
    change (str "|") with ["|"%char]. change (str "_") with ["_"%char].
    change (str ":") with [":"%char]. change (str ">") with [">"%char].
    change (str "<") with ["<"%char].
    rewrite !replace_char. rewrite has_dotdot_substring.
    apply not_true_iff_false.
    repeat (apply subst_has_dotdot; [discriminate|]).
    eapply has_dotdot_suffix; [apply lstrip_suffix|].
    apply replace_dotdot_clean.
  - unfold PrintagoClient._sanitize_path.
    change (str "*") with ["*"%char]. change (str "?") with ["?"%char].
    change (str "|") with ["|"%char]. change (str "_") with ["_"%char].
    change (str ":") with [":"%char]. change (str ">") with [">"%char].
    change (str "<") with ["<"%char].
    rewrite !replace_char.
    repeat (apply subst_head_not; [discriminate|]).
    apply lstrip_head. set_solver.
  - unfold PrintagoClient._sanitize_path.
    change (str "*") with ["*"%char]. change (str "?") with ["?"%char].
    change (str "|") with ["|"%char]. change (str "_") with ["_"%char].
    change (str ":") with [":"%char]. change (str ">") with [">"%char].
    change (str "<") with ["<"%char].
    rewrite !replace_char.
    repeat (apply subst_head_not; [discriminate|]).
    apply lstrip_head. set_solver.
  - intros ch. apply sanitize_no_forbidden_char.
Qed.

(** X1. Whatever the input, the sanitized path holds none of the characters
    [<], [>], [:], the double quote, [|], [?] and [*]. *)
Theorem sanitize_path_no_forbidden_chars (path : pystr) :
  Forall (λ ch, ch ∉ PrintagoClient._sanitize_path path) forbidden_chars.
Proof. apply Forall_forall. intros ch. apply sanitize_no_forbidden_char. Qed.

(** X2. A path with no two consecutive dots, no leading slash or backslash
    and none of the replaced characters comes out of [_sanitize_path]
    unchanged. *)
Theorem sanitize_path_keeps_clean_paths (path : pystr) :
  clean_path path → PrintagoClient._sanitize_path path = path.
Proof. apply sanitize_path_clean_id. Qed.

Lemma sanitize_path_keeps_clean_paths_witness :
  PrintagoClient._sanitize_path (str "Keychains/letter-A.3mf")
  = str "Keychains/letter-A.3mf".
Proof.
  apply (sanitize_path_keeps_clean_paths (str "Keychains/letter-A.3mf")).
  unfold clean_path. split_and!.
  - rewrite has_dotdot_substring. vm_compute. discriminate.
  - simpl. discriminate.
  - simpl. discriminate.
  - apply (Forall_forall (λ ch, ch ∉ str "Keychains/letter-A.3mf")).
    apply (bool_decide_unpack _). vm_compute. exact I.
Defined.

(** X3. Sanitizing twice is sanitizing once. *)
Theorem sanitize_path_idempotent (path : pystr) :
  PrintagoClient._sanitize_path (PrintagoClient._sanitize_path path)
  = PrintagoClient._sanitize_path path.
Proof. apply sanitize_path_clean_id, sanitize_path_is_clean. Qed.


(** ** More on [create_folder] *)

Section CreateFolderMore.
Import PrintagoClient.
Context {R : Type} `{RemoteStore R}.
Implicit Types (c : Client R) (fc : dict pystr pyid).

(** Entries the loop finds in the cache are still there when it ends. *)
Lemma create_folder_loop_keeps parts parent cur c res c1 k v :
  create_folder_loop parts parent cur c = (res, c1) →
  Dict.get (folder_cache c) k = Some v →
  Dict.get (folder_cache c1) k = Some v.
Proof.
  intros Hrun Hget.
  destruct (create_folder_loop_spec _ _ _ _ _ _ Hrun) as (created & _ & -> & _).
  by apply get_app_l.
Qed.

(** Every request of the loop creates one of the parts, under the folder
    cached for the parts before it. *)
Lemma create_folder_loop_parents parts : ∀ parent cur c res c1 calls q,
  create_folder_loop parts parent cur c = (res, c1) →
  trace c1 = trace c ++ calls →
  q ∈ calls →
  ∃ before part after pid,
    parts = before ++ part :: after
    ∧ q = PostFolder part pid
    ∧ match before with
      | [] => pid = parent
      | _ => Dict.get (folder_cache c1) (final_path before cur) = Some pid
      end.
Proof.
  induction parts as [|part parts IH];
    intros parent cur c res c1 calls q Hrun Htr Hq.
  - injection Hrun as _ <-.
    rewrite <-(app_nil_r (trace c)) in Htr at 1.
    apply app_inv_head in Htr as <-. by apply elem_of_nil in Hq.
  - rewrite create_folder_loop_cons in Hrun. cbn zeta in Hrun.
    set (cur' := next_path cur part) in *.
    assert (Hshift : ∀ c0 pid0,
      Dict.get (folder_cache c0) cur' = Some pid0 →
      create_folder_loop parts pid0 cur' c0 = (res, c1) →
      ∀ calls0, trace c1 = trace c0 ++ calls0 → q ∈ calls0 →
      ∃ before part0 after pid,
        part :: parts = before ++ part0 :: after
        ∧ q = PostFolder part0 pid
        ∧ match before with
          | [] => pid = parent
          | _ => Dict.get (folder_cache c1) (final_path before cur) = Some pid
          end).
    { intros c0 pid0 Hc0 Hrun0 calls0 Htr0 Hq0.
      destruct (IH _ _ _ _ _ _ _ Hrun0 Htr0 Hq0)
        as (before & part0 & after & pid & -> & -> & Hpid).
      exists (part :: before), part0, after, pid.
      split_and!; [done..|]. cbn [final_path]. fold cur'.
      destruct before as [|b before]; [|exact Hpid].
      subst pid. simpl. by eapply create_folder_loop_keeps. }
    destruct (Dict.get (folder_cache c) cur') as [cached|] eqn:Hget.
    + by eapply Hshift.
    + destruct (respond (remote c) (PostFolder part parent)) as [resp r'].
      destruct (folder_data_id resp) as [fid|];
        [|injection Hrun as _ <-; cbn [trace] in Htr;
          apply app_inv_head in Htr as <-;
          apply list_elem_of_singleton in Hq as ->;
          by exists [], part, parts, parent].
      destruct (create_folder_loop_spec _ _ _ _ _ _ Hrun)
        as (_ & calls' & _ & Htr' & _).
      cbn [trace folder_cache] in *.
      rewrite Htr', <-app_assoc in Htr. apply app_inv_head in Htr as <-.
      apply elem_of_cons in Hq as [->|Hq].
      * by exists [], part, parts, parent.
      * eapply (Hshift _ fid); [|exact Hrun|exact Htr'|exact Hq].
        cbn [folder_cache]. rewrite get_set. by rewrite decide_True.
Qed.

Lemma final_path_prefix_join P before part after :
  head_not "/" P →
  Py.split "/" P = before ++ part :: after →
  before ≠ [] →
  final_path before [] = Py.join (str "/") before.
Proof.
  intros Hhead Hsplit Hne.
  destruct before as [|b before]; [done|].
  cbn [final_path]. unfold next_path. cbn [Py.truthy].
  apply final_path_join.
  destruct P as [|x P]; [by destruct before|].
  simpl in Hhead. cbn [Py.split] in Hsplit.
  rewrite decide_False in Hsplit by done.
  destruct (Py.split "/" P); simpl in Hsplit; by injection Hsplit as <- _.
Qed.

(** The identifier a successful call returns is the one the cache then
    holds for the path. *)
Lemma create_folder_cached_id P c id c1 :
  head_not "/" P →
  create_folder P c = (Return id, c1) →
  Dict.get (folder_cache c1) P = Some id.
Proof.
  intros Hhead. rewrite create_folder_unfold.
  destruct (Dict.get (folder_cache c) P) as [cached|] eqn:Hget.
  - by intros [= <- <-].
  - destruct (create_folder_loop _ _ _ c) as [[id'|e] c'] eqn:Hrun; [|done].
    intros [= <- <-].
    destruct (create_folder_loop_spec _ _ _ _ _ _ Hrun)
      as (? & ? & _ & _ & _ & _ & _ & _ & _ & Hwalk).
    pose proof (lookup_walk_final _ _ _ _ _ (split_nonempty _ _) Hwalk)
      as Hfin.
    by rewrite final_path_split in Hfin.
Qed.

End CreateFolderMore.

(** X4. When [create_folder] returns for a path that does not begin with a
    slash, the cache holds the returned identifier under that path. *)
Theorem create_folder_caches_returned_id {R : Type} `{RemoteStore R}
    (P : pystr) (c : PrintagoClient.Client R) (id : pyid)
    (c1 : PrintagoClient.Client R) :
  head_not "/" P →
  PrintagoClient.create_folder P c = (Return id, c1) →
  Dict.get (PrintagoClient.folder_cache c1) P = Some id.
Proof. apply create_folder_cached_id. Qed.

Lemma create_folder_caches_returned_id_witness :
  Dict.get (PrintagoClient.folder_cache Sample.client_XYZ) (str "X/Y/Z")
  = Some (Some (str "fz")).
Proof.
  apply (create_folder_caches_returned_id (str "X/Y/Z") Sample.client_X).
  - simpl. discriminate.
  - reflexivity.
Defined.

(** X5. Whatever its outcome, [create_folder] leaves every entry of the
    cache in place with its value: the new cache is the old one followed by
    entries under keys that were absent. *)
Theorem create_folder_only_appends {R : Type} `{RemoteStore R}
    (P : pystr) (c : PrintagoClient.Client R) :
  ∃ created,
    PrintagoClient.folder_cache (PrintagoClient.create_folder P c).2
    = PrintagoClient.folder_cache c ++ created
    ∧ ∀ k, k ∈ Dict.keys created →
           Dict.get (PrintagoClient.folder_cache c) k = None.
Proof.
  rewrite create_folder_unfold.
  destruct (Dict.get (PrintagoClient.folder_cache c) P) as [cached|] eqn:Hget.
  - exists []. rewrite app_nil_r. split; [done|].
    intros k Hk. by apply elem_of_nil in Hk.
  - destruct (PrintagoClient.create_folder_loop _ _ _ c) as [res c'] eqn:Hrun.
    destruct (create_folder_loop_spec _ _ _ _ _ _ Hrun)
      as (created & ? & Hfc & _ & _ & _ & Hnew & _).
    exists created. by destruct res.
Qed.

(** X6. Every request [create_folder] sends for a path that does not begin
    with a slash creates one segment of the path, named by that segment;
    its [parentId] is [None] for the first segment and otherwise the
    identifier the cache holds, when the call ends, for the path of the
    segments before it. *)
Theorem create_folder_requests_link_parents {R : Type} `{RemoteStore R}
    (P : pystr) (c : PrintagoClient.Client R) (res : result pyid)
    (c1 : PrintagoClient.Client R) (calls : list Request) (q : Request) :
  head_not "/" P →
  PrintagoClient.create_folder P c = (res, c1) →
  PrintagoClient.trace c1 = PrintagoClient.trace c ++ calls →
  q ∈ calls →
  ∃ before part after parent,
    Py.split "/" P = before ++ part :: after
    ∧ q = PostFolder part parent
    ∧ match before with
      | [] => parent = None
      | _ => Dict.get (PrintagoClient.folder_cache c1)
               (Py.join (str "/") before) = Some parent
      end.
Proof.
  intros Hhead. rewrite create_folder_unfold.
  destruct (Dict.get (PrintagoClient.folder_cache c) P) as [cached|] eqn:Hget.
  - intros [= <- <-] Htr Hq.
    rewrite <-(app_nil_r (PrintagoClient.trace c)) in Htr at 1.
    apply app_inv_head in Htr as <-. by apply elem_of_nil in Hq.
  - destruct (PrintagoClient.create_folder_loop _ _ _ c) as [res' c'] eqn:Hrun.
    intros Hres Htr Hq.
    assert (c' = c1) as -> by (destruct res'; by injection Hres).
    destruct (create_folder_loop_parents _ _ _ _ _ _ _ _ Hrun Htr Hq)
      as (before & part & after & pid & Hsplit & -> & Hpid).
    exists before, part, after, pid. split_and!; [done..|].
    destruct before as [|b before]; [done|].
    by rewrite <-(final_path_prefix_join P (b :: before) part after).
Qed.

Lemma create_folder_requests_link_parents_witness :
  ∃ before part after parent,
    Py.split "/" (str "X/Y/Z") = before ++ part :: after
    ∧ PostFolder (str "Z") (Some (str "fy")) = PostFolder part parent
    ∧ match before with
      | [] => parent = None
      | _ => Dict.get (PrintagoClient.folder_cache Sample.client_XYZ)
               (Py.join (str "/") before) = Some parent
      end.
Proof.
  apply (create_folder_requests_link_parents (str "X/Y/Z") Sample.client_X
           (Return (Some (str "fz"))) Sample.client_XYZ
           [PostFolder (str "Y") (Some (str "fx"));
            PostFolder (str "Z") (Some (str "fy"))]).
  - simpl. discriminate.
  - reflexivity.
  - reflexivity.
  - constructor 2. constructor 1.
Defined.


(** ** More on [delete_folder] and [delete_file] *)

Section DeleteMore.
Import PrintagoClient.
Context {R : Type} `{RemoteStore R}.
Implicit Types (c : Client R) (fc : dict pystr pyid).

(** Looking a key up after the entries holding [folder_id] are dropped. *)
Lemma get_filter_value fc (folder_id : pyid) k :
  Dict.wf fc →
  Dict.get (filter (λ kv, kv.2 ≠ folder_id) (Dict.items fc)) k
  = match Dict.get fc k with
    | Some v => if decide (v = folder_id) then None else Some v
    | None => None
    end.
Proof.
  unfold Dict.wf, Dict.keys, Dict.items.
  induction fc as [|[k' v'] fc IH]; [done|].
  rewrite fmap_cons, NoDup_cons. intros [Hk' Hnd].
  rewrite filter_cons. cbn [Dict.get snd fst].
  destruct (decide (v' ≠ folder_id)) as [Hv|Hv].
  - cbn [Dict.get]. destruct (decide (k' = k)) as [->|Hne].
    + by rewrite decide_False.
    + by apply IH.
  - apply dec_stable in Hv. subst v'.
    destruct (decide (k' = k)) as [->|Hne].
    + rewrite decide_True by done. apply get_None.
      intros Hin. apply Hk'. unfold Dict.keys in Hin.
      apply list_elem_of_fmap in Hin as ([k1 v1] & -> & Hin).
      apply list_elem_of_filter in Hin as [_ Hin].
      apply list_elem_of_fmap. by exists (k1, v1).
    + by apply IH.
Qed.

(** With no part to delete the loop returns at once. *)
Lemma delete_file_loop_no_match part_name folder_id parts : ∀ n c,
  filter (part_matches part_name folder_id) parts = [] →
  delete_file_loop part_name folder_id parts n c = (Return n, c).
Proof.
  induction parts as [|part parts IH]; intros n c Hnil; [done|].
  cbn [delete_file_loop]. rewrite filter_cons in Hnil.
  fold (part_matches part_name folder_id part) in *.
  destruct (decide (part_matches part_name folder_id part)); [done|].
  by apply IH.
Qed.

(** The loop of [delete_file] stops at the first deletion that raises,
    and only there. *)
Lemma delete_file_loop_exchanges part_name folder_id parts : ∀ n c res c',
  delete_file_loop part_name folder_id parts n c = (res, c') →
  ∃ calls,
    trace c' = trace c ++ calls
    ∧ remote c' = remote_after (remote c) calls
    ∧ match res with
      | Return _ => went_through (exchanges (remote c) calls)
      | Raise _ => stopped (exchanges (remote c) calls)
      end.
Proof.
  induction parts as [|part parts IH]; intros n c res c' Hrun.
  - injection Hrun as <- <-. exists []. rewrite app_nil_r.
    split_and!; [done..|]. constructor.
  - cbn [delete_file_loop] in Hrun.
    destruct (decide _) as [Hmatch|Hmiss]; [|by apply IH in Hrun].
    rewrite bind_run in Hrun. unfold send in Hrun.
    destruct (respond (remote c) (DeletePartReq (get_id part)))
      as [resp r'] eqn:Hresp.
    assert (Hstop : resp = Raises →
              res = Raise RequestError
              ∧ c' = {| folder_cache := folder_cache c; remote := r';
                        trace := trace c ++ [DeletePartReq (get_id part)] |}).
    { intros ->. by injection Hrun as <- <-. }
    assert (Hcase : resp = Raises ∨ resp ≠ Raises)
      by (destruct resp; [by left|by right..]).
    destruct Hcase as [Hraises|Hok].
    + destruct (Hstop Hraises) as [-> ->].
      exists [DeletePartReq (get_id part)].
      cbn [trace remote exchanges remote_after]. rewrite Hresp.
      cbn [fst snd]. split_and!; [done..|].
      exists [], (DeletePartReq (get_id part), resp).
      split_and!; [done|constructor|done].
    + assert (Hnext : delete_file_loop part_name folder_id parts (S n)
                        {| folder_cache := folder_cache c; remote := r';
                           trace := trace c
                                    ++ [DeletePartReq (get_id part)] |}
                      = (res, c')).
      { by destruct resp. }
      apply IH in Hnext as (calls & Htr & Hrem & Hres).
      cbn [trace remote] in *.
      exists (DeletePartReq (get_id part) :: calls).
      cbn [exchanges remote_after]. rewrite Hresp. cbn [fst snd].
      split_and!; [by rewrite Htr, <-app_assoc|done|].
      destruct res; [by apply Forall_cons|by apply stopped_cons].
Qed.

End DeleteMore.

(** X7. [delete_folder] sends the one deletion request. When the request
    raises, the call raises [FailedToDeleteFolder] and the cache is as it
    was; otherwise it returns [True], every path cached under the deleted
    identifier is forgotten, and every other path keeps its identifier. *)
Theorem delete_folder_forgets_the_identifier {R : Type} `{RemoteStore R}
    (folder_id : pyid) (c : PrintagoClient.Client R) :
  Dict.wf (PrintagoClient.folder_cache c) →
  let res := (PrintagoClient.delete_folder folder_id c).1 in
  let c1 := (PrintagoClient.delete_folder folder_id c).2 in
  PrintagoClient.trace c1
  = PrintagoClient.trace c ++ [DeleteFolderReq folder_id]
  ∧ match (respond (PrintagoClient.remote c) (DeleteFolderReq folder_id)).1 with
    | Raises =>
        res = Raise (FailedToDeleteFolder RequestError)
        ∧ PrintagoClient.folder_cache c1 = PrintagoClient.folder_cache c
    | _ =>
        res = Return true
        ∧ ∀ k, Dict.get (PrintagoClient.folder_cache c1) k
               = match Dict.get (PrintagoClient.folder_cache c) k with
                 | Some v => if decide (v = folder_id) then None else Some v
                 | None => None
                 end
    end.
Proof.
  intros Hwf. cbv zeta. rewrite delete_folder_unfold. cbv zeta.
  destruct (respond _ _) as [resp r']. cbn [fst].
  destruct resp; cbn [fst snd PrintagoClient.trace PrintagoClient.folder_cache];
    (split; [done|]); (split; [done|]); try done;
    intros k; by apply get_filter_value.
Qed.

Lemma delete_folder_forgets_the_identifier_witness :
  Dict.get
    (PrintagoClient.folder_cache
       (PrintagoClient.delete_folder (Some (str "fx")) Sample.client_X_XY).2)
    (str "X") = None
  ∧ Dict.get
      (PrintagoClient.folder_cache
         (PrintagoClient.delete_folder (Some (str "fx")) Sample.client_X_XY).2)
      (str "X/Y") = Some (Some (str "fy")).
Proof.
  assert (Hwf : Dict.wf (PrintagoClient.folder_cache Sample.client_X_XY)).
  { unfold Dict.wf. apply (bool_decide_unpack _). vm_compute. exact I. }
  destruct (delete_folder_forgets_the_identifier (Some (str "fx"))
              Sample.client_X_XY Hwf) as [_ Hcase].
  cbv zeta in Hcase.
  change ((respond (PrintagoClient.remote Sample.client_X_XY)
             (DeleteFolderReq (Some (str "fx")))).1) with OkEmpty in Hcase.
  destruct Hcase as [_ Hget]. split; rewrite Hget; reflexivity.
Defined.

(** X8. What [delete_file] returns. It sends the search and then
    deletions. It raises [DeleteFailedError] exactly when one of these
    exchanges raises, the search or a deletion: no failure is passed over
    and nothing else makes it raise; the exchange that raised is the last
    one. When it returns, the result tells whether the answer to the search
    was a list holding a part of that name in that folder; on an object
    instead of a list the result is [False] and only the search was
    sent. *)
Theorem delete_file_returns_whether_found {R : Type} `{RemoteStore R}
    (relative_path : pystr) (c : PrintagoClient.Client R) :
  let safe_path := PrintagoClient._sanitize_path relative_path in
  let part_name := (PosixPath.splitext (PosixPath.basename safe_path)).1 in
  let folder_path :=
    Py.replace [Py.backslash] (str "/") (PosixPath.dirname safe_path) in
  let folder_id :=
    PrintagoClient.delete_file_folder_id (PrintagoClient.folder_cache c)
      folder_path in
  let res := (PrintagoClient.delete_file relative_path c).1 in
  let c1 := (PrintagoClient.delete_file relative_path c).2 in
  ∃ deletions,
    PrintagoClient.trace c1
    = PrintagoClient.trace c ++ GetPartsByName part_name :: deletions
    ∧ let xs :=
        exchanges (PrintagoClient.remote c)
          (GetPartsByName part_name :: deletions) in
      (Exists fails xs ↔ res = Raise (DeleteFailedError RequestError))
      ∧ (∀ e, res = Raise e →
              e = DeleteFailedError RequestError ∧ stopped xs)
      ∧ ∀ found,
          res = Return found →
          match (respond (PrintagoClient.remote c)
                   (GetPartsByName part_name)).1 with
          | OkParts parts =>
              found
              = bool_decide (Exists (part_matches part_name folder_id) parts)
          | OkFolders _ => True
          | _ => found = false ∧ deletions = []
          end.
Proof.
  cbv zeta. unfold PrintagoClient.delete_file. cbn zeta.
  set (part_name := (PosixPath.splitext _).1).
  set (folder_path := Py.replace [Py.backslash] _ _).
  set (folder_id := PrintagoClient.delete_file_folder_id _ _).
  unfold PrintagoClient.rewrap, mbind, PrintagoClient.M_bind,
    PrintagoClient.bind, PrintagoClient.get_cache, PrintagoClient.send,
    PrintagoClient.raise, PrintagoClient.ret.
  cbn zeta. fold folder_id. cbn [exchanges].
  destruct (respond (PrintagoClient.remote c) (GetPartsByName part_name))
    as [resp r'].
  cbn [fst snd].
  assert (Hsingle : ∀ resp0,
            resp0 ≠ Raises →
            ¬ Exists fails [(GetPartsByName part_name, resp0)]).
  { intros resp0 Hok Hex. apply Exists_cons in Hex as [Hf|Hnil]; [done|].
    by apply Exists_nil in Hnil. }
  destruct resp as [| |? |? |parts|? ?];
    try (exists []; cbn [fst snd PrintagoClient.trace exchanges];
         split; [done|]; split_and!;
         [split; [intros Hex; by apply Hsingle in Hex|done]
         |done
         |by intros found [= <-]]).
  { exists []. cbn [fst snd PrintagoClient.trace exchanges].
    split; [done|]. split_and!; [|intros e [= <-]; split; [done|]|done].
    - split; [done|]. intros _. by apply Exists_cons_hd.
    - exists [], (GetPartsByName part_name, Raises).
      split_and!; [done|constructor|done]. }
  destruct (PrintagoClient.delete_file_loop part_name folder_id parts 0 _)
    as [res' c'] eqn:Hloop.
  destruct (delete_file_loop_exchanges _ _ _ _ _ _ _ Hloop)
    as (deletions & Htr' & _ & Hxs).
  cbn [PrintagoClient.trace PrintagoClient.remote] in Htr', Hxs.
  destruct (delete_file_loop_spec _ _ _ _ _ _ _ Hloop)
    as (_ & attempted & Htr & Hpre & Hres).
  exists deletions.
  assert (Hsearch : ¬ fails (GetPartsByName part_name, OkParts parts))
    by done.
  assert (Hex : ∀ l : list Part,
            Exists (part_matches part_name folder_id) l
            ↔ filter (part_matches part_name folder_id) l ≠ []).
  { intros l. rewrite Exists_exists. split.
    - intros (p & Hin & Hp) Hnil.
      assert (p ∈ filter (part_matches part_name folder_id) l) as Hf
        by (by apply list_elem_of_filter).
      rewrite Hnil in Hf. by apply elem_of_nil in Hf.
    - intros Hne. destruct (filter _ l) as [|p l'] eqn:E; [done|].
      assert (p ∈ filter (part_matches part_name folder_id) l) as Hp.
      { rewrite E. apply elem_of_cons. by left. }
      apply list_elem_of_filter in Hp as [Hp Hin]. by exists p. }
  destruct res' as [m|e]; cbn [fst snd].
  - split; [by rewrite Htr', <-app_assoc|]. split_and!; [|done|].
    + split; [|done]. intros Hfails.
      apply Exists_cons in Hfails as [Hf|Hf]; [done|].
      by apply went_through_not_exists in Hxs.
    + intros found [= <-]. destruct Hres as [-> ->]. simpl.
      destruct (filter _ parts) as [|p l'] eqn:E.
      * simpl. symmetry. apply bool_decide_eq_false. rewrite Hex, E. tauto.
      * simpl. symmetry. apply bool_decide_eq_true. by rewrite Hex, E.
  - subst e. split; [by rewrite Htr', <-app_assoc|]. split_and!; [| |done].
    + split; [done|]. intros _. apply Exists_cons_tl.
      by apply stopped_exists.
    + intros e [= <-]. split; [done|]. by apply stopped_cons.
Qed.

(** On [X/A.stl], with two parts named [A] listed and the deletion
    accepted: no exchange fails and the call returns [True]. *)
Lemma delete_file_returns_whether_found_witness :
  let run := PrintagoClient.delete_file (str "X/A.stl") Sample.client_two_A in
  ∃ deletions,
    PrintagoClient.trace run.2
    = PrintagoClient.trace Sample.client_two_A
      ++ GetPartsByName (str "A") :: deletions
    ∧ ¬ Exists fails
          (exchanges (PrintagoClient.remote Sample.client_two_A)
             (GetPartsByName (str "A") :: deletions))
    ∧ run.1 = Return true.
Proof.
  cbv zeta.
  destruct (delete_file_returns_whether_found (str "X/A.stl")
              Sample.client_two_A)
    as (deletions & Htr & Hfails & _).
  exists deletions. split; [exact Htr|]. split; [|reflexivity].
  intros Hex. apply Hfails in Hex. vm_compute in Hex. discriminate Hex.
Defined.


(** ** More on [upload_file] *)

Section PathFacts.

Lemma lstrip_snoc chars (s : pystr) x :
  x ∉ chars → Py.lstrip chars (s ++ [x]) = Py.lstrip chars s ++ [x].
Proof.
  intros Hx. induction s as [|c s IH]; simpl.
  - by rewrite decide_False.
  - destruct (decide (c ∈ chars)); [exact IH|done].
Qed.

Lemma rstrip_cons chars x (s : pystr) :
  x ∉ chars → Py.rstrip chars (x :: s) = x :: Py.rstrip chars s.
Proof.
  intros Hx. unfold Py.rstrip. rewrite reverse_cons, lstrip_snoc by done.
  by rewrite reverse_app.
Qed.

Lemma rstrip_prefix chars (s : pystr) : Py.rstrip chars s `prefix_of` s.
Proof.
  unfold Py.rstrip. apply prefix_suffix_reverse.
  rewrite reverse_involutive. apply lstrip_suffix.
Qed.

Lemma dirname_prefix (p : pystr) : PosixPath.dirname p `prefix_of` p.
Proof.
  unfold PosixPath.dirname, PosixPath.upto_last_sep. cbv zeta.
  destruct (_ && _).
  - etrans; [apply rstrip_prefix|]. apply prefix_take.
  - apply prefix_take.
Qed.

Lemma has_dotdot_prefix (s t : pystr) :
  s `prefix_of` t → has_dotdot t = false → has_dotdot s = false.
Proof.
  intros [k ->] Ht. apply not_true_iff_false. intros Hs.
  apply has_dotdot_substring in Hs as (a & b & ->).
  assert (Hk : has_dotdot ((a ++ str ".." ++ b) ++ k) = true).
  { apply has_dotdot_substring. exists a, (b ++ k).
    by rewrite <-!app_assoc. }
  congruence.
Qed.

Lemma head_not_prefix c (s t : pystr) :
  s `prefix_of` t → head_not c t → head_not c s.
Proof. intros [k ->]. by destruct s. Qed.

(** The folder path is well formed whatever the relative path. *)
Lemma derived_folder_path_facts relative_path :
  let folder_path := derived_folder_path relative_path in
  head_not "/" folder_path
  ∧ (Py.backslash ∉ folder_path)
  ∧ ¬ Py.substring (str "..") folder_path
  ∧ ∀ ch, ch ∈ forbidden_chars → ch ∉ folder_path.
Proof.
  cbv zeta. unfold derived_folder_path.
  set (safe_path := PrintagoClient._sanitize_path relative_path).
  destruct (sanitize_path_is_clean relative_path) as (Hdd & Hs & Hb & Hch).
  fold safe_path in Hdd, Hs, Hb, Hch.
  pose proof (dirname_prefix safe_path) as Hpre.
  set (dir := PosixPath.dirname safe_path) in *. clearbody dir.
  change (str "/") with ["/"%char]. rewrite replace_char.
  split_and!.
  - pose proof (head_not_prefix _ _ _ Hpre Hs) as Hs'.
    pose proof (head_not_prefix _ _ _ Hpre Hb) as Hb'.
    destruct dir as [|x dir]; [done|]. simpl in *. unfold subst_char.
    by rewrite decide_False.
  - apply subst_char_not_elem. discriminate.
  - rewrite has_dotdot_substring. apply not_true_iff_false.
    apply subst_has_dotdot; [discriminate|].
    eapply has_dotdot_prefix; [exact Hpre|].
    apply not_true_iff_false. by rewrite <-has_dotdot_substring.
  - intros ch Hin. apply subst_char_keeps_out.
    + unfold forbidden_chars in Hin.
      rewrite !elem_of_cons, elem_of_nil in Hin.
      destruct Hin as [->|[->|[->|[->|[->|[->|[->|[]]]]]]]]; discriminate.
    + intros Hc. apply (Hch ch Hin). destruct Hpre as [k ->].
      apply elem_of_app. by left.
Qed.

End PathFacts.

(** X9. The folder path [upload_file] and [delete_file] derive from a
    relative path, whatever that path is, does not begin with a slash and
    holds no backslash, no two consecutive dots and none of the characters
    the sanitizer replaces. *)
Theorem upload_folder_path_well_formed (relative_path : pystr) :
  let safe_path := PrintagoClient._sanitize_path relative_path in
  let folder_path :=
    Py.replace [Py.backslash] (str "/") (PosixPath.dirname safe_path) in
  Py.startswith folder_path (str "/") = false
  ∧ (Py.backslash ∉ folder_path)
  ∧ ¬ Py.substring (str "..") folder_path
  ∧ ∀ ch, ch ∈ forbidden_chars → ch ∉ folder_path.
Proof.
  cbv zeta.
  destruct (derived_folder_path_facts relative_path) as (Hh & Hb & Hd & Hc).
  unfold derived_folder_path in *. split_and!; try done.
  apply bool_decide_eq_false. intros [k Hk].
  destruct (Py.replace _ _ _) as [|x s]; [done|].
  simpl in Hh. simpl in Hk. congruence.
Qed.

Section UploadMore.
Import PrintagoClient.
Context {R : Type} `{RemoteStore R}.
Variable fs : FileSystem.
Variable sha256_hexdigest : list Byte.byte → pystr.
Implicit Types (c : Client R).

(** The folder step of [upload_file]. *)
Lemma upload_folder_step relative_path c res c' :
  (if Py.truthy (derived_folder_path relative_path)
   then create_folder (derived_folder_path relative_path)
   else ret None) c = (res, c') →
  ∃ folder_calls,
    trace c' = trace c ++ folder_calls
    ∧ Forall is_post_folder folder_calls
    ∧ (derived_folder_path relative_path = [] → folder_calls = [])
    ∧ match res with
      | Return folder_id =>
          folder_id
          = delete_file_folder_id (folder_cache c')
              (derived_folder_path relative_path)
      | Raise e =>
          ∃ cause,
            e = FailedToCreateFolder (derived_folder_path relative_path) cause
      end.
Proof.
  destruct (derived_folder_path_facts relative_path) as (Hhead & _).
  cbv zeta in Hhead. unfold delete_file_folder_id.
  destruct (derived_folder_path relative_path) as [|x fp] eqn:Hfp.
  - intros [= <- <-]. exists []. by rewrite app_nil_r.
  - cbn [Py.truthy]. intros Hrun.
    destruct (create_folder_sends is_post_folder (x :: fp)
                ltac:(done) _ _ _ Hrun) as (calls & Htr & Hpost).
    exists calls. split_and!; [done..|].
    destruct res as [folder_id|e].
    + by rewrite (create_folder_cached_id _ _ _ _ Hhead Hrun).
    + rewrite create_folder_unfold in Hrun.
      destruct (Dict.get _ _); [done|].
      destruct (create_folder_loop _ _ _ c) as [[?|cause] ?]; [done|].
      injection Hrun as <- _. by exists cause.
Qed.

(** Everything [upload_file] does, case by case. *)
Lemma upload_file_spec relative_path file_path c :
  let filename := derived_filename relative_path in
  let folder_path := derived_folder_path relative_path in
  let res := (upload_file fs sha256_hexdigest relative_path file_path c).1 in
  let c1 := (upload_file fs sha256_hexdigest relative_path file_path c).2 in
  ∃ folder_calls steps,
    trace c1 = trace c ++ folder_calls ++ steps
    ∧ Forall is_post_folder folder_calls
    ∧ (folder_path = [] → folder_calls = [])
    ∧ ((steps = []
        ∧ ∃ cause,
            res = Raise (UploadFailedError
                           (FailedToCreateFolder folder_path cause)))
       ∨ (steps = [PostSignedUploadUrls filename]
          ∧ (res = Raise (UploadFailedError RequestError)
             ∨ (fs_read fs file_path = None
                ∧ res = Raise (UploadFailedError OSError))))
       ∨ ∃ upload_url cloud_path file_content,
           fs_read fs file_path = Some file_content
           ∧ let put := PutUpload upload_url file_content in
             let post :=
               PostPart
                 {| payload_name := derived_name relative_path;
                    payload_type := derived_file_type relative_path;
                    payload_fileUris := [cloud_path];
                    payload_fileHashes := [sha256_hexdigest file_content];
                    payload_folderId :=
                      delete_file_folder_id (folder_cache c1) folder_path |}
             in
             (steps = [PostSignedUploadUrls filename; put]
              ∧ res = Raise (UploadFailedError RequestError))
             ∨ (steps = [PostSignedUploadUrls filename; put; post]
                ∧ (res = Return true
                   ∨ res = Raise (UploadFailedError RequestError)))).
Proof.
  cbv zeta. unfold upload_file. cbn zeta.
  fold (derived_filename relative_path).
  fold (derived_folder_path relative_path).
  fold (derived_name relative_path).
  fold (derived_file_type relative_path).
  unfold rewrap. rewrite bind_run.
  destruct ((if Py.truthy (derived_folder_path relative_path)
             then create_folder (derived_folder_path relative_path)
             else ret None) c) as [[folder_id|e] c'] eqn:Hstep;
    destruct (upload_folder_step _ _ _ _ Hstep)
      as (folder_calls & Htr & Hpost & Hroot & Hres);
    exists folder_calls.
  2:{ exists []. destruct Hres as [cause ->]. cbn [fst snd].
      rewrite app_nil_r. split_and!; [done..|]. left. split; [done|].
      by exists cause. }
  subst folder_id.
  unfold mbind, M_bind, bind, send, raise, ret. cbn zeta.
  destruct (respond (remote c') _) as [signed r1].
  destruct signed as [| |? |? |? |upload_url cloud_path];
    try (exists [PostSignedUploadUrls (derived_filename relative_path)];
         cbn [fst snd trace]; rewrite Htr, <-app_assoc;
         split_and!; [done..|]; right; left; split; [done|]; by left).
  destruct (fs_read fs file_path) as [file_content|] eqn:Hread.
  2:{ exists [PostSignedUploadUrls (derived_filename relative_path)].
      cbn [fst snd trace]. rewrite Htr, <-app_assoc.
      split_and!; [done..|]. right. left. split; [done|]. by right. }
  cbn [trace remote folder_cache].
  destruct (respond r1 _) as [upload_response r2].
  destruct upload_response as [| |? |? |? |? ?].
  1:{ eexists. cbn [fst snd trace folder_cache].
      rewrite Htr, <-!app_assoc. split_and!; [done..|]. right. right.
      exists upload_url, cloud_path, file_content. split; [done|].
      left. by split. }
  all: cbn [trace remote folder_cache];
    destruct (respond r2 _) as [part_response r3];
    destruct part_response as [| |? |? |? |? ?];
    eexists; cbn [fst snd trace folder_cache];
    rewrite Htr, <-!app_assoc; (split_and!; [done..|]);
    right; right; exists upload_url, cloud_path, file_content;
    (split; [done|]); right; (split; [done|]); first [by left | by right].
Qed.

Local Ltac exchanges_ok :=
  repeat first [apply List.Forall_nil | apply List.Forall_cons];
  unfold fails; cbn [fst snd]; first [done | tauto].

(** The folder step, seen from the remote. *)
Lemma upload_folder_exchanges relative_path c res c' :
  (if Py.truthy (derived_folder_path relative_path)
   then create_folder (derived_folder_path relative_path)
   else ret None) c = (res, c') →
  ∃ folder_calls,
    trace c' = trace c ++ folder_calls
    ∧ remote c' = remote_after (remote c) folder_calls
    ∧ match res with
      | Return _ => went_through (exchanges (remote c) folder_calls)
      | Raise e =>
          stopped (exchanges (remote c) folder_calls)
          ∧ e = FailedToCreateFolder (derived_folder_path relative_path)
                  RequestError
      end.
Proof.
  destruct (Py.truthy _).
  - intros Hrun.
    destruct (create_folder_exchanges _ _ _ _ Hrun)
      as (calls & Htr & Hrem & _ & Hres).
    by exists calls.
  - intros [= <- <-]. exists []. rewrite app_nil_r.
    split_and!; [done..|]. constructor.
Qed.

(** X10. The requests of [upload_file], in order: the folder creations of
    [create_folder] (none for a file at the root), then the request for a
    signed URL, then the [PUT] of the bytes read from the file to the URL
    of the answer, then the creation of the part, named and typed from
    the file name and filed under the identifier the cache holds for the
    folder path. Either every exchange went through: then the call got
    as far as the signed URL and stopped there with an [OSError] when the
    file could not be read, and otherwise sent all three requests and
    returned [True]. Or an exchange failed: then it is the last one, all
    the ones before it went through, and the call raises
    [UploadFailedError]. *)
Theorem upload_file_steps_in_order relative_path file_path c :
  let filename := derived_filename relative_path in
  let folder_path := derived_folder_path relative_path in
  let res := (upload_file fs sha256_hexdigest relative_path file_path c).1 in
  let c1 := (upload_file fs sha256_hexdigest relative_path file_path c).2 in
  ∃ folder_calls steps,
    trace c1 = trace c ++ folder_calls ++ steps
    ∧ Forall is_post_folder folder_calls
    ∧ (folder_path = [] → folder_calls = [])
    ∧ let xs := exchanges (remote c) (folder_calls ++ steps) in
      let signed := PostSignedUploadUrls filename in
      let answer :=
        (respond (remote_after (remote c) folder_calls) signed).1 in
      let put upload_url file_content :=
        PutUpload upload_url file_content in
      let post cloud_path file_content :=
        PostPart
          {| payload_name := derived_name relative_path;
             payload_type := derived_file_type relative_path;
             payload_fileUris := [cloud_path];
             payload_fileHashes := [sha256_hexdigest file_content];
             payload_folderId :=
               delete_file_folder_id (folder_cache c1) folder_path |} in
      (went_through xs
       ∧ ∃ upload_url cloud_path,
           answer = OkSigned upload_url cloud_path
           ∧ match fs_read fs file_path with
             | None =>
                 steps = [signed]
                 ∧ res = Raise (UploadFailedError OSError)
             | Some file_content =>
                 steps = [signed; put upload_url file_content;
                          post cloud_path file_content]
                 ∧ res = Return true
             end)
      ∨ (stopped xs
         ∧ ((steps = []
             ∧ res = Raise (UploadFailedError
                              (FailedToCreateFolder folder_path
                                 RequestError)))
            ∨ (res = Raise (UploadFailedError RequestError)
               ∧ (steps = [signed]
                  ∨ ∃ upload_url cloud_path file_content,
                      answer = OkSigned upload_url cloud_path
                      ∧ fs_read fs file_path = Some file_content
                      ∧ (steps = [signed; put upload_url file_content]
                         ∨ steps = [signed; put upload_url file_content;
                                    post cloud_path file_content]))))).
Proof.
  cbv zeta. unfold upload_file. cbn zeta.
  fold (derived_filename relative_path).
  fold (derived_folder_path relative_path).
  fold (derived_name relative_path).
  fold (derived_file_type relative_path).
  unfold rewrap. rewrite bind_run.
  destruct ((if Py.truthy (derived_folder_path relative_path)
             then create_folder (derived_folder_path relative_path)
             else ret None) c) as [[folder_id|e] c'] eqn:Hstep;
    destruct (upload_folder_step _ _ _ _ Hstep)
      as (folder_calls & Htr & Hpost & Hroot & Hres);
    destruct (upload_folder_exchanges _ _ _ _ Hstep)
      as (folder_calls' & Htr' & Hrem & Hxs);
    (assert (folder_calls' = folder_calls) as ->
       by (rewrite Htr in Htr'; by apply app_inv_head in Htr'));
    exists folder_calls.
  2:{ exists []. destruct Hxs as [Hstop ->]. cbn [fst snd].
      rewrite !app_nil_r. split_and!; [done..|]. right. split; [done|].
      by left. }
  subst folder_id.
  unfold mbind, M_bind, bind, send, raise, ret. cbn zeta.
  rewrite <-Hrem.
  destruct (respond (remote c') (PostSignedUploadUrls _))
    as [signed r1] eqn:Hsigned.
  assert (Hx1 : ∀ steps,
            exchanges (remote c) (folder_calls ++ steps)
            = exchanges (remote c) folder_calls
              ++ exchanges (remote c') steps).
  { intros steps. by rewrite exchanges_app, Hrem. }
  destruct signed as [| |? |? |? |upload_url cloud_path];
    try (exists [PostSignedUploadUrls (derived_filename relative_path)];
         cbn [fst snd trace]; rewrite Htr, <-app_assoc, Hx1;
         cbn [exchanges]; rewrite Hsigned; cbn [fst snd];
         split_and!; [done..|]; right; split;
         [apply stopped_app; [done|];
          eexists [], _; split_and!; [done|constructor|done]
         |right; split; [done|by left]]).
  destruct (fs_read fs file_path) as [file_content|] eqn:Hread.
  2:{ exists [PostSignedUploadUrls (derived_filename relative_path)].
      cbn [fst snd trace]. rewrite Htr, <-app_assoc, Hx1.
      cbn [exchanges]. rewrite Hsigned. cbn [fst snd].
      split_and!; [done..|]. left. split.
      - apply Forall_app. split; [done|]. exchanges_ok.
      - by exists upload_url, cloud_path. }
  cbn [trace remote folder_cache].
  destruct (respond r1 (PutUpload upload_url file_content))
    as [upload_response r2] eqn:Hput.
  assert (Hcase2 : upload_response = Raises ∨ upload_response ≠ Raises)
    by (destruct upload_response; [by left|by right..]).
  destruct Hcase2 as [->|Hok2].
  { eexists [_; _]. cbn [fst snd trace folder_cache].
    rewrite Htr, <-!app_assoc, Hx1. cbn [exchanges].
    rewrite Hsigned. cbn [fst snd]. rewrite Hput. cbn [fst snd].
    split_and!; [done..|]. right. split.
    - apply stopped_app; [done|].
      eexists [_], _. split_and!; [done|exchanges_ok|done].
    - right. split; [done|]. right.
      exists upload_url, cloud_path, file_content.
      split_and!; [done..|]. by left. }
  assert (Hgo : ∀ (k : Client R → result bool * Client R) c0,
            match upload_response with
            | Raises => λ c, (Raise RequestError, c)
            | _ => k
            end c0 = k c0)
    by (intros k c0; by destruct upload_response).
  rewrite Hgo. cbn [trace remote folder_cache].
  match goal with
  | |- context [respond r2 (PostPart ?payload)] =>
      destruct (respond r2 (PostPart payload))
        as [part_response r3] eqn:Hpart
  end.
  assert (Hcase3 : part_response = Raises ∨ part_response ≠ Raises)
    by (destruct part_response; [by left|by right..]).
  destruct Hcase3 as [->|Hok3].
  { eexists [_; _; _]. cbn [fst snd trace folder_cache].
    rewrite Htr, <-!app_assoc, Hx1. cbn [exchanges].
    rewrite Hsigned. cbn [fst snd]. rewrite Hput. cbn [fst snd].
    rewrite Hpart. cbn [fst snd].
    split_and!; [done..|]. right. split.
    - apply stopped_app; [done|].
      eexists [_; _], _.
      split_and!; [done|exchanges_ok|done].
    - right. split; [done|]. right.
      exists upload_url, cloud_path, file_content.
      split_and!; [done..|]. by right. }
  eexists [_; _; _].
  destruct part_response; try done;
    cbn [fst snd trace folder_cache];
    rewrite Htr, <-!app_assoc, Hx1; cbn [exchanges];
    rewrite Hsigned; cbn [fst snd]; rewrite Hput; cbn [fst snd];
    rewrite Hpart; cbn [fst snd];
    (split_and!; [done..|]); left; (split;
      [apply Forall_app; split; [done|]; exchanges_ok
      |by exists upload_url, cloud_path]).
Qed.

End UploadMore.

(** The upload of [/w/X/A.stl] with folder [X] cached and the three
    requests accepted: every exchange goes through, the three steps are
    sent and the call returns [True]. *)
Lemma upload_file_steps_in_order_witness :
  let run :=
    PrintagoClient.upload_file Sample.disk_XA Sample.sha256_stub
      (str "X/A.stl") (str "/w/X/A.stl") Sample.client_upload_XA in
  ∃ folder_calls steps,
    PrintagoClient.trace run.2
    = PrintagoClient.trace Sample.client_upload_XA ++ folder_calls ++ steps
    ∧ went_through
        (exchanges (PrintagoClient.remote Sample.client_upload_XA)
           (folder_calls ++ steps))
    ∧ length steps = 3
    ∧ run.1 = Return true.
Proof.
  cbv zeta.
  destruct (upload_file_steps_in_order Sample.disk_XA Sample.sha256_stub
              (str "X/A.stl") (str "/w/X/A.stl") Sample.client_upload_XA)
    as (folder_calls & steps & Htr & _ & _ & Hcase).
  cbv zeta in Hcase.
  destruct Hcase
    as [(Hok & upload_url & cloud_path & _ & Hsteps)
       |(_ & [(_ & Hres)|(Hres & _)])].
  - exists folder_calls, steps.
    change (fs_read Sample.disk_XA (str "/w/X/A.stl"))
      with (Some ([] : list Byte.byte)) in Hsteps.
    destruct Hsteps as [Hsteps Hres].
    split; [exact Htr|]. split; [exact Hok|]. split; [|exact Hres].
    rewrite Hsteps. reflexivity.
  - vm_compute in Hres. discriminate Hres.
  - vm_compute in Hres. discriminate Hres.
Defined.

(** X11. After a successful [upload_file] of a relative path, the last
    request is the creation of a part; [delete_file] of the same relative
    path, on a client with that cache, looks for that part's name and, when
    the listing holds a part with that name and [folderId] and the call
    returns, returns [True] having sent the deletion of that part. *)
Theorem delete_file_finds_uploaded_part {R : Type} `{RemoteStore R}
    (fs : FileSystem) (sha256_hexdigest : list Byte.byte → pystr)
    (relative_path file_path : pystr) (c : PrintagoClient.Client R)
    (b : bool) (c1 : PrintagoClient.Client R) :
  PrintagoClient.upload_file fs sha256_hexdigest relative_path file_path c
    = (Return b, c1) →
  ∃ payload,
    last (PrintagoClient.trace c1) = Some (PostPart payload)
    ∧ ∀ part_id parts (c2 : PrintagoClient.Client R) found c3,
        PrintagoClient.folder_cache c2 = PrintagoClient.folder_cache c1 →
        (respond (PrintagoClient.remote c2)
           (GetPartsByName (payload_name payload))).1 = OkParts parts →
        {| get_id := part_id; name_member := NameStr (payload_name payload);
           get_folderId := payload_folderId payload |} ∈ parts →
        PrintagoClient.delete_file relative_path c2 = (Return found, c3) →
        found = true ∧ DeletePartReq part_id ∈ PrintagoClient.trace c3.
Proof.
  intros Hup.
  destruct (upload_file_spec fs sha256_hexdigest relative_path file_path c)
    as (folder_calls & steps & Htr & _ & _ & Hcase).
  cbv zeta in Htr, Hcase. rewrite Hup in Htr, Hcase. cbn [fst snd] in *.
  destruct Hcase as [[_ [? [=]]]|[[_ [[=]|[_ [=]]]]|Hcase]].
  destruct Hcase as (upload_url & cloud_path & file_content & _ & Hcase).
  destruct Hcase as [[_ [=]]|[-> _]].
  eexists. split.
  { rewrite Htr, !app_assoc.
    change [?a; ?b; ?p] with ([a; b] ++ [p]).
    rewrite app_assoc. apply last_snoc. }
  cbn [payload_name payload_folderId].
  intros part_id parts c2 found c3 Hfc Hresp Hin.
  unfold PrintagoClient.delete_file. cbn zeta.
  fold (derived_filename relative_path). fold (derived_name relative_path).
  fold (derived_folder_path relative_path).
  unfold PrintagoClient.rewrap, mbind, PrintagoClient.M_bind,
    PrintagoClient.bind, PrintagoClient.get_cache, PrintagoClient.send,
    PrintagoClient.raise, PrintagoClient.ret.
  cbn zeta. rewrite Hfc.
  set (folder_id := PrintagoClient.delete_file_folder_id _ _) in *.
  destruct (respond (PrintagoClient.remote c2) _) as [resp r'].
  cbn [fst] in Hresp. subst resp.
  destruct (PrintagoClient.delete_file_loop _ folder_id parts 0 _)
    as [[m|e] c'] eqn:Hloop; [|done].
  intros [= <- <-].
  destruct (delete_file_loop_spec _ _ _ _ _ _ _ Hloop)
    as (_ & attempted & Htr3 & _ & -> & ->).
  assert (Hm : {| get_id := part_id;
                  name_member := NameStr (derived_name relative_path);
                  get_folderId := folder_id |}
               ∈ filter (part_matches (derived_name relative_path) folder_id)
                   parts).
  { apply list_elem_of_filter. by split. }
  split.
  - apply bool_decide_eq_true. simpl.
    destruct (filter _ parts); [by apply elem_of_nil in Hm|simpl; lia].
  - rewrite Htr3. apply elem_of_app. right.
    apply list_elem_of_fmap.
    eexists. split; [|exact Hm]. done.
Qed.

Lemma delete_file_finds_uploaded_part_witness :
  ∃ payload,
    last (PrintagoClient.trace
            (PrintagoClient.upload_file Sample.disk_XA Sample.sha256_stub
               (str "X/A.stl") (str "/w/X/A.stl") Sample.client_upload_XA).2)
    = Some (PostPart payload)
    ∧ ∀ part_id parts (c2 : PrintagoClient.Client (list Response)) found c3,
        PrintagoClient.folder_cache c2
        = PrintagoClient.folder_cache
            (PrintagoClient.upload_file Sample.disk_XA Sample.sha256_stub
               (str "X/A.stl") (str "/w/X/A.stl") Sample.client_upload_XA).2 →
        (respond (PrintagoClient.remote c2)
           (GetPartsByName (payload_name payload))).1 = OkParts parts →
        {| get_id := part_id; name_member := NameStr (payload_name payload);
           get_folderId := payload_folderId payload |} ∈ parts →
        PrintagoClient.delete_file (str "X/A.stl") c2 = (Return found, c3) →
        found = true ∧ DeletePartReq part_id ∈ PrintagoClient.trace c3.
Proof.
  apply (delete_file_finds_uploaded_part Sample.disk_XA Sample.sha256_stub
           (str "X/A.stl") (str "/w/X/A.stl") Sample.client_upload_XA true).
  reflexivity.
Defined.


(** ** More on the reconciliation plan *)

Section PlanMore.
Import PrintagoClient FileWatchHandler.
Variable order : SetOrder.
Implicit Types (fc : dict pystr pyid) (scan : LocalScan)
  (printago_map : dict (pystr * option pystr) pyid).

Lemma set_iter_elem (s : gset pystr) p : p ∈ set_iter order s ↔ p ∈ s.
Proof. by rewrite (set_iter_perm order s), elem_of_elements. Qed.

Lemma folder_deletion_elem fc (folders : gset pystr) folder_id :
  DeleteFolderId folder_id ∈ folder_deletions order fc folders
  ↔ id_truthy folder_id = true
    ∧ ∃ folder_path, folder_path ∈ folders
                     ∧ default None (Dict.get fc folder_path) = folder_id.
Proof.
  unfold folder_deletions. rewrite list_elem_of_In, in_flat_map. split.
  - intros (p & Hp & Hin). apply list_elem_of_In in Hp, Hin.
    apply set_iter_elem in Hp.
    destruct (id_truthy (default None (Dict.get fc p))) eqn:Ht;
      [|by apply elem_of_nil in Hin].
    apply list_elem_of_singleton in Hin. injection Hin as ->.
    split; [done|]. by exists p.
  - intros (Ht & p & Hp & <-). exists p. rewrite <-!list_elem_of_In.
    split; [by apply set_iter_elem|]. rewrite Ht.
    by apply list_elem_of_singleton.
Qed.

(** X12. The plan holds the deletion of a folder identifier exactly when
    the identifier is truthy and the cache holds it under a path that is
    not one of the local folders. *)
Theorem sync_plan_folder_deletions fc printago_map scan folder_id :
  DeleteFolderId folder_id ∈ sync_plan order fc printago_map scan
  ↔ id_truthy folder_id = true
    ∧ ∃ folder_path, Dict.get fc folder_path = Some folder_id
                     ∧ folder_path ∉ scan.(all_local_folders).
Proof.
  unfold sync_plan. rewrite !elem_of_app, !list_elem_of_fmap.
  rewrite folder_deletion_elem. unfold folders_to_delete_of. split.
  - intros [(? & [=] & _)|[(? & [=] & _)|(Ht & p & Hp & Hid)]].
    split; [done|]. exists p.
    apply elem_of_difference in Hp as [Hp Hout].
    apply elem_of_list_to_set, keys_get in Hp as [v Hv].
    rewrite Hv in Hid. simpl in Hid. by subst v.
  - intros (Ht & p & Hget & Hout). right. right. split; [done|].
    exists p. rewrite Hget. split; [|done].
    apply elem_of_difference. split; [|done].
    apply elem_of_list_to_set. by eapply get_Some_keys.
Qed.

(** No entry of [d1] is missing from [d2]. *)
Lemma missing_nil {K V1 V2} `{EqDecision K} (d1 : dict K V1) (d2 : dict K V2) :
  (filter (λ kv, Dict.contains d2 kv.1 = false) (Dict.items d1)).*2 = []
  ↔ ∀ key, Dict.get d2 key = None → Dict.get d1 key = None.
Proof.
  split.
  - intros Hnil key Hmiss. apply fmap_nil_inv in Hnil.
    destruct (Dict.get d1 key) as [p|] eqn:Hget; [|done].
    apply get_Some_items in Hget.
    assert (Hf : (key, p) ∈ filter
              (λ kv, Dict.contains d2 kv.1 = false) (Dict.items d1)).
    { apply list_elem_of_filter. split; [by apply contains_false|done]. }
    rewrite Hnil in Hf. by apply elem_of_nil in Hf.
  - intros Hall. rewrite filter_none; [done|]. intros [key p] Hin Hc.
    apply contains_false in Hc. simpl in Hc. specialize (Hall key Hc).
    apply get_None in Hall. apply Hall. unfold Dict.keys.
    apply list_elem_of_fmap. by exists (key, p).
Qed.

Lemma folder_deletions_nil fc (folders : gset pystr) :
  folder_deletions order fc folders = []
  ↔ ∀ folder_id, DeleteFolderId folder_id ∉ folder_deletions order fc folders.
Proof.
  split.
  - intros -> folder_id. apply not_elem_of_nil.
  - intros Hno. pose proof (folder_deletions_only_folders order fc folders)
      as Hall.
    destruct (folder_deletions order fc folders) as [|item l]; [done|].
    apply Forall_cons in Hall as [Hitem _].
    destruct item as [| | |folder_id]; try done.
    exfalso. apply (Hno folder_id). apply elem_of_cons. by left.
Qed.

End PlanMore.

(** X13. The plan is empty exactly when the local index and the remote
    index have the same keys and every cached path with a truthy identifier
    is a local folder. *)
Theorem sync_plan_empty_iff_in_sync (order : SetOrder)
    (fc : dict pystr pyid) (printago_map : dict (pystr * option pystr) pyid)
    (scan : FileWatchHandler.LocalScan) :
  FileWatchHandler.sync_plan order fc printago_map scan = []
  ↔ (∀ key, Dict.get scan.(FileWatchHandler.local_files) key = None
            ↔ Dict.get printago_map key = None)
    ∧ ∀ folder_path folder_id,
        Dict.get fc folder_path = Some folder_id →
        id_truthy folder_id = true →
        folder_path ∈ scan.(FileWatchHandler.all_local_folders).
Proof.
  unfold FileWatchHandler.sync_plan.
  assert (Hnil : ∀ (A : Type) (l1 l2 : list A),
            l1 ++ l2 = [] ↔ l1 = [] ∧ l2 = []).
  { intros A l1 l2. split; [apply app_eq_nil|by intros [-> ->]]. }
  rewrite !Hnil.
  assert (Hf : ∀ (A : Type) (f : A → Item) (l : list A),
            f <$> l = [] ↔ l = []).
  { intros A f l. split; [apply fmap_nil_inv|by intros ->]. }
  rewrite !Hf.
  unfold FileWatchHandler.to_upload_of, FileWatchHandler.to_delete_of.
  rewrite !missing_nil, folder_deletions_nil.
  split.
  - intros (Hup & Hdel & Hfold). split.
    + intros key. split; [apply Hdel|apply Hup].
    + intros folder_path folder_id Hget Ht.
      destruct (decide (folder_path
                          ∈ scan.(FileWatchHandler.all_local_folders)))
        as [|Hout]; [done|].
      exfalso. apply (Hfold folder_id).
      apply folder_deletion_elem. split; [done|]. exists folder_path.
      rewrite Hget. split; [|done].
      unfold FileWatchHandler.folders_to_delete_of.
      apply elem_of_difference. split; [|done].
      apply elem_of_list_to_set. by eapply get_Some_keys.
  - intros [Hkeys Hfolders]. split_and!.
    + intros key. apply Hkeys.
    + intros key. apply Hkeys.
    + intros folder_id Hin.
      apply folder_deletion_elem in Hin as (Ht & p & Hp & Hid).
      unfold FileWatchHandler.folders_to_delete_of in Hp.
      apply elem_of_difference in Hp as [Hp Hout].
      apply elem_of_list_to_set, keys_get in Hp as [v Hv].
      rewrite Hv in Hid. simpl in Hid. subst v.
      by apply Hout, (Hfolders p folder_id).
Qed.


(** ** More on [list_folders] and [initial_sync] *)

Section ListFoldersMore.
Import PrintagoClient.
Context {R : Type} `{RemoteStore R}.
Implicit Types (c : Client R) (fc : dict pystr pyid).

(** [build_path] talks to nobody: it only writes to the cache, and never
    removes a key from it. *)
Lemma build_path_local depth (id_to_folder : dict pyid Folder)
    (id_to_children : dict pyid (list pyid)) :
  ∀ folder_id path_parts c res c',
    build_path depth id_to_folder id_to_children folder_id path_parts c
      = (res, c') →
    remote c' = remote c ∧ trace c' = trace c
    ∧ ∀ k, k ∈ Dict.keys (folder_cache c) → k ∈ Dict.keys (folder_cache c').
Proof.
  induction depth as [|depth IH]; intros folder_id path_parts c res c' Hrun.
  - by injection Hrun as _ <-.
  - cbn [build_path] in Hrun.
    destruct (Dict.get id_to_folder folder_id) as [folder|];
      [|by injection Hrun as _ <-].
    unfold mbind at 1 2, M_bind at 1 2, bind at 1 2, get_cache, put_cache,
      with_cache in Hrun.
    cbn [folder_cache remote trace] in Hrun.
    match type of Hrun with
    | foldl _ _ _ ?c0 = _ => set (c1 := c0) in *
    end.
    pose (Inv := λ c0 : Client R,
            remote c0 = remote c ∧ trace c0 = trace c
            ∧ ∀ k, k ∈ Dict.keys (folder_cache c) →
                   k ∈ Dict.keys (folder_cache c0)).
    refine (foldl_bind_keeps Inv
              (λ child_id, build_path depth id_to_folder id_to_children
                             child_id (path_parts ++ [folder_name folder]))
              _ _ (ret tt) _ c1 res c' _ Hrun).
    + intros child c0 res0 c0' _ (Hr & Ht & Hk) Hrun0.
      destruct (IH _ _ _ _ _ Hrun0) as (Hr' & Ht' & Hk').
      split_and!; [congruence..|]. intros k Hin. by apply Hk', Hk.
    + by intros c0 res0 c0' Hc0 [= _ <-].
    + split_and!; [done..|]. intros k Hk. by apply keys_set_mono.
Qed.

(** A fold of monadic steps raises only what a step raises. *)
Lemma foldl_bind_raises {A} (E : Error → Prop) (f : A → M R unit)
    (l : list A) :
  (∀ a c e c', a ∈ l → f a c = (Raise e, c') → E e) →
  ∀ (m : M R unit),
    (∀ c e c', m c = (Raise e, c') → E e) →
    ∀ c e c',
      foldl (λ (acc : M R unit) a, _ ← acc; f a) m l c = (Raise e, c') →
      E e.
Proof.
  induction l as [|a l IH]; intros Hf m Hm c e c' Hrun.
  - by eapply Hm.
  - cbn [foldl] in Hrun.
    assert (Hf' : ∀ a' c0 e0 c0',
              a' ∈ l → f a' c0 = (Raise e0, c0') → E e0).
    { intros a' c0 e0 c0' Ha'. apply Hf. apply elem_of_cons. by right. }
    refine (IH Hf' (_ ← m; f a) _ c e c' Hrun).
    intros c0 e0 c0'. rewrite bind_run.
    destruct (m c0) as [[[]|e1] c1] eqn:Hrun1.
    + intros Hrun2. eapply (Hf a); [apply elem_of_cons; by left|done].
    + intros [= <- <-]. by eapply Hm.
Qed.

Lemma build_path_raises depth (id_to_folder : dict pyid Folder)
    (id_to_children : dict pyid (list pyid)) :
  ∀ folder_id path_parts c e c',
    build_path depth id_to_folder id_to_children folder_id path_parts c
      = (Raise e, c') →
    e = RecursionError.
Proof.
  induction depth as [|depth IH]; intros folder_id path_parts c e c' Hrun.
  - by injection Hrun as <- _.
  - cbn [build_path] in Hrun.
    destruct (Dict.get id_to_folder folder_id) as [folder|]; [|done].
    unfold mbind at 1 2, M_bind at 1 2, bind at 1 2, get_cache, put_cache,
      with_cache in Hrun.
    cbn [folder_cache remote trace] in Hrun.
    refine (foldl_bind_raises (λ e, e = RecursionError)
              (λ child_id, build_path depth id_to_folder id_to_children
                             child_id (path_parts ++ [folder_name folder]))
              _ _ (ret tt) _ _ e c' Hrun).
    + intros child c0 e0 c0' _ Hrun0. by eapply IH.
    + by intros c0 e0 c0'.
Qed.

(** What [list_folders] does, case by case on the answer. *)
Lemma list_folders_spec (recursion_limit : nat) c :
  let res := (list_folders recursion_limit c).1 in
  let c1 := (list_folders recursion_limit c).2 in
  trace c1 = trace c ++ [GetFolders]
  ∧ remote c1 = (respond (remote c) GetFolders).2
  ∧ (∀ k, k ∈ Dict.keys (folder_cache c) → k ∈ Dict.keys (folder_cache c1))
  ∧ match (respond (remote c) GetFolders).1 with
    | Raises =>
        res = Raise (FailedToListFolders RequestError)
        ∧ folder_cache c1 = folder_cache c
    | OkFolders folders =>
        res = Return folders
        ∨ res = Raise (FailedToListFolders RecursionError)
    | OkEmpty => res = Return [] ∧ folder_cache c1 = folder_cache c
    | _ =>
        res = Raise (FailedToListFolders RequestError)
        ∧ folder_cache c1 = folder_cache c
    end.
Proof.
  cbv zeta. unfold list_folders, rewrap. rewrite bind_run. unfold send.
  destruct (respond (remote c) GetFolders) as [resp r'].
  destruct resp as [| |? |folders|? |? ?];
    try (unfold raise, ret; cbn [fst snd trace remote folder_cache];
         by split_and!).
  set (c1 := {| folder_cache := folder_cache c; remote := r';
                trace := trace c ++ [GetFolders] |}).
  rewrite bind_run.
  match goal with
  | |- context [foldl ?f ?m folders c1] =>
      destruct (foldl f m folders c1) as [res1 c2] eqn:Hfold
  end.
  pose (Inv := λ c0 : Client R,
          remote c0 = r' ∧ trace c0 = trace c ++ [GetFolders]
          ∧ ∀ k, k ∈ Dict.keys (folder_cache c) →
                 k ∈ Dict.keys (folder_cache c0)).
  assert (Hinv : Inv c2).
  { refine (foldl_bind_keeps Inv
              (λ folder : Folder,
                 if decide (folder.(folder_parentId) = None)
                 then build_path recursion_limit (id_to_folder_of folders)
                        (id_to_children_of folders) folder.(folder_id) []
                 else ret tt)
              folders _ (ret tt) _ c1 res1 c2 _ Hfold).
    - intros folder c0 res0 c0' _ (Hr & Ht & Hk).
      destruct (decide _); [|by intros [= _ <-]].
      intros Hrun. destruct (build_path_local _ _ _ _ _ _ _ _ Hrun)
        as (Hr' & Ht' & Hk').
      split_and!; [congruence..|]. intros k Hin. by apply Hk', Hk.
    - by intros c0 res0 c0' Hc0 [= _ <-].
    - by split_and!. }
  destruct Hinv as (Hr & Ht & Hk).
  destruct res1 as [[]|e]; unfold ret; cbn [fst snd].
  - split_and!; [done..|]. by left.
  - split_and!; [done..|]. right. do 2 f_equal.
    refine (foldl_bind_raises (λ e, e = RecursionError)
              (λ folder : Folder,
                 if decide (folder.(folder_parentId) = None)
                 then build_path recursion_limit (id_to_folder_of folders)
                        (id_to_children_of folders) folder.(folder_id) []
                 else ret tt)
              folders _ (ret tt) _ c1 e c2 Hfold).
    + intros folder c0 e0 c0' _. destruct (decide _); [|done].
      apply build_path_raises.
    + by intros c0 e0 c0'.
Qed.

End ListFoldersMore.

(** X14. [list_folders] sends one request and never removes a key from the
    cache. When the request raises, or answers with an object that is not
    empty, the call raises [FailedToListFolders] and the cache is as it
    was; when it answers with the empty object, the call returns with no
    folder and the cache as it was; when it answers with a list of
    folders, the call returns that list unless the recursion limit is
    hit. *)
Theorem list_folders_reads_once {R : Type} `{RemoteStore R}
    (recursion_limit : nat) (c : PrintagoClient.Client R) :
  let res := (PrintagoClient.list_folders recursion_limit c).1 in
  let c1 := (PrintagoClient.list_folders recursion_limit c).2 in
  PrintagoClient.trace c1 = PrintagoClient.trace c ++ [GetFolders]
  ∧ (∀ k, k ∈ Dict.keys (PrintagoClient.folder_cache c) →
          k ∈ Dict.keys (PrintagoClient.folder_cache c1))
  ∧ match (respond (PrintagoClient.remote c) GetFolders).1 with
    | Raises =>
        res = Raise (FailedToListFolders RequestError)
        ∧ PrintagoClient.folder_cache c1 = PrintagoClient.folder_cache c
    | OkFolders folders =>
        res = Return folders
        ∨ res = Raise (FailedToListFolders RecursionError)
    | OkEmpty =>
        res = Return []
        ∧ PrintagoClient.folder_cache c1 = PrintagoClient.folder_cache c
    | OkFolder _ | OkSigned _ _ =>
        res = Raise (FailedToListFolders RequestError)
        ∧ PrintagoClient.folder_cache c1 = PrintagoClient.folder_cache c
    | OkParts _ => True
    end.
Proof.
  destruct (list_folders_spec recursion_limit c) as (Ht & _ & Hk & Hcase).
  cbv zeta in *. split_and!; [done..|].
  by destruct (respond _ _).1.
Qed.

Section InitialSyncMore.
Import PrintagoClient FileWatchHandler.
Context {R : Type} `{RemoteStore R}.
Variable fs : FileSystem.
Variable order : SetOrder.
Variable recursion_limit : nat.





End InitialSyncMore.


(** ** More on the snapshots of [initial_sync] *)

Section SnapshotMore.
Import PrintagoClient FileWatchHandler.
Variable fs : FileSystem.

(** A dictionary filled by a loop holds, for each key, what the last
    element with that key wrote. *)
Lemma get_foldl_set_last {A K V} `{EqDecision K} (f : A → K) (g : A → V)
    (l : list A) : ∀ (d : dict K V) k,
  Dict.get (foldl (λ m a, Dict.set m (f a) (g a)) d l) k
  = match last (filter (λ a, f a = k) l) with
    | Some a => Some (g a)
    | None => Dict.get d k
    end.
Proof.
  induction l as [|a l IH]; intros d k; [done|].
  cbn [foldl]. rewrite IH, filter_cons, get_set.
  destruct (decide (f a = k)) as [Hk|Hk].
  - destruct (filter (λ a0, f a0 = k) l) as [|a' l']; [reflexivity|].
    change (last (a :: a' :: l')) with (last (a' :: l')).
    destruct (last (a' :: l')) eqn:E; [done|]. by apply last_None in E.
  - done.
Qed.

(** X16. The remote index maps a key to the identifier of the last listed
    part filed under that key, and holds no other key. A part is filed
    under the path of the first cache entry holding its [folderId] (the
    empty path when it has none or none is cached) and under its name:
    the empty string when it has no [name] member, [None] when the member
    is [null], so that these two are different keys. *)
Theorem printago_map_last_part_wins fc printago_parts key :
  Dict.get (printago_map_of fc printago_parts) key
  = get_id <$> last (filter (λ part, part_key fc part = key) printago_parts).
Proof.
  unfold printago_map_of.
  rewrite (get_foldl_set_last (part_key fc) get_id).
  by destruct (last _).
Qed.

(** A fold of steps that may fail keeps what every step keeps. *)
Lemma foldl_option_keeps {A S} (Inv : S → Prop) (step : A → S → option S)
    (l : list A) :
  (∀ a s s', a ∈ l → Inv s → step a s = Some s' → Inv s') →
  ∀ init r,
    (∀ s, init = Some s → Inv s) →
    foldl (λ acc a, acc ≫= step a) init l = Some r → Inv r.
Proof.
  induction l as [|a l IH]; intros Hstep init r Hinit Hrun.
  - by apply Hinit.
  - cbn [foldl] in Hrun. eapply IH; [|  |exact Hrun].
    + intros a' s s' Ha'. apply Hstep. apply elem_of_cons. by right.
    + intros s Hs. destruct init as [s0|]; [|done]. simpl in Hs.
      eapply Hstep; [apply elem_of_cons; by left| |exact Hs].
      by apply Hinit.
Qed.

Lemma scan_file_inv root files file acc acc' :
  (root, files) ∈ fs_walk fs → file ∈ files →
  scan_inv fs acc → scan_file fs root file acc = Some acc' → scan_inv fs acc'.
Proof.
  intros Hwalk Hfile Hinv. unfold scan_file.
  destruct (Py.startswith file (str ".")) eqn:Hhidden; [by intros [= <-]|].
  destruct (fs_relative_to_watch fs (PosixPath.join root file))
    as [rel_path|] eqn:Hrel; [|done].
  simpl. intros [= <-] key file_path. cbn [local_files all_local_folders].
  rewrite get_set.
  set (folder_path := Py.replace _ _ (PosixPath.dirname rel_path)).
  destruct (decide (_ = key)) as [<-|Hne].
  - intros [= <-]. cbn [fst]. split.
    + destruct folder_path; [done|]. intros _. set_solver.
    + by exists root, files, file, rel_path.
  - intros Hget. destruct (Hinv _ _ Hget) as [Hf Hs]. split; [|done].
    intros Hk. specialize (Hf Hk).
    destruct (Py.truthy folder_path); [set_solver|done].
Qed.

Lemma scan_dir_inv entry acc acc' :
  entry ∈ fs_walk fs →
  scan_inv fs acc → scan_dir fs entry acc = Some acc' → scan_inv fs acc'.
Proof.
  intros Hwalk Hinv. unfold scan_dir. destruct entry as [root files].
  cbn [fst snd].
  destruct (fs_relative_to_watch fs root) as [rel|]; [|done]. simpl.
  apply (foldl_option_keeps (scan_inv fs) (scan_file fs root)).
  - intros file s s' Hfile. by apply (scan_file_inv root files).
  - intros s [= <-]. destruct (decide _); [|done].
    intros key file_path Hget. cbn [local_files all_local_folders] in *.
    destruct (Hinv _ _ Hget) as [Hf Hs]. split; [|done].
    intros Hk. specialize (Hf Hk). set_solver.
Qed.

Lemma scan_local_inv scan : scan_local fs = Some scan → scan_inv fs scan.
Proof.
  unfold scan_local.
  apply (foldl_option_keeps (scan_inv fs) (scan_dir fs)).
  - intros entry s s' Hentry. by apply scan_dir_inv.
  - intros s [= <-] key file_path. done.
Qed.

End SnapshotMore.

(** A part without name and a part whose name is [null] are filed under
    two keys. *)
Lemma printago_map_last_part_wins_witness :
  let printago_map :=
    FileWatchHandler.printago_map_of Sample.cache_X
      [Sample.part_without_name; Sample.part_null_name] in
  Dict.get printago_map ([], Some []) = Some (Some (str "p-no-name"))
  ∧ Dict.get printago_map ([], None) = Some (Some (str "p-null-name"))
  ∧ length printago_map = 2.
Proof.
  cbv zeta. rewrite !printago_map_last_part_wins.
  split; [reflexivity|]. split; reflexivity.
Defined.

(** X17. Every entry of the local index comes from a file of the walk whose
    name does not begin with a dot: its value is the joined path of that
    file, its key the folder of the file's relative path and the file's
    name without extension, a string; and the folder, unless it is the
    root, is in the set of local folders. *)
Theorem scan_local_indexes_visible_files (fs : FileSystem)
    (scan : FileWatchHandler.LocalScan)
    (folder_path : pystr) (name : option pystr) (file_path : pystr) :
  FileWatchHandler.scan_local fs = Some scan →
  Dict.get scan.(FileWatchHandler.local_files) (folder_path, name)
    = Some file_path →
  (folder_path ≠ [] → folder_path ∈ scan.(FileWatchHandler.all_local_folders))
  ∧ ∃ root files file rel_path,
      (root, files) ∈ fs_walk fs ∧ file ∈ files
      ∧ Py.startswith file (str ".") = false
      ∧ file_path = PosixPath.join root file
      ∧ fs_relative_to_watch fs file_path = Some rel_path
      ∧ folder_path
        = Py.replace [Py.backslash] (str "/") (PosixPath.dirname rel_path)
      ∧ name = Some (PosixPath.splitext (PosixPath.basename file)).1.
Proof.
  intros Hscan Hget.
  destruct (scan_local_inv fs scan Hscan _ _ Hget) as [Hf Hs].
  split; [done|].
  destruct Hs as (root & files & file & rel_path & ? & ? & ? & ? & ? & [= -> ->]).
  by exists root, files, file, rel_path.
Qed.

Lemma scan_local_indexes_visible_files_witness :
  (str "X" ≠ [] →
   str "X" ∈ Sample.scan_AC.(FileWatchHandler.all_local_folders))
  ∧ ∃ root files file rel_path,
      (root, files) ∈ fs_walk Sample.disk_AC ∧ file ∈ files
      ∧ Py.startswith file (str ".") = false
      ∧ str "/w/X/C.stl" = PosixPath.join root file
      ∧ fs_relative_to_watch Sample.disk_AC (str "/w/X/C.stl") = Some rel_path
      ∧ str "X"
        = Py.replace [Py.backslash] (str "/") (PosixPath.dirname rel_path)
      ∧ Some (str "C")
        = Some (PosixPath.splitext (PosixPath.basename file)).1.
Proof.
  apply (scan_local_indexes_visible_files Sample.disk_AC Sample.scan_AC
           (str "X") (Some (str "C")) (str "/w/X/C.stl")).
  - vm_compute. reflexivity.
  - reflexivity.
Defined.


(** ** More on the worker and the callbacks *)

Section WorkerMore.
Import PrintagoClient FileWatchHandler.
Context {R : Type} `{RemoteStore R}.
Variable fs : FileSystem.
Variable sha256_hexdigest : list Byte.byte → pystr.
Implicit Types (c : Client R) (h : Handler R).

Lemma create_folder_appends P c :
  ∃ created,
    folder_cache (create_folder P c).2 = folder_cache c ++ created
    ∧ ∀ k, k ∈ Dict.keys created → Dict.get (folder_cache c) k = None.
Proof.
  rewrite create_folder_unfold.
  destruct (Dict.get (folder_cache c) P) as [cached|] eqn:Hget.
  - exists []. rewrite app_nil_r. split; [done|].
    intros k Hk. by apply elem_of_nil in Hk.
  - destruct (create_folder_loop _ _ _ c) as [res c'] eqn:Hrun.
    destruct (create_folder_loop_spec _ _ _ _ _ _ Hrun)
      as (created & ? & Hfc & _ & _ & _ & Hnew & _).
    exists created. by destruct res.
Qed.

(** An upload only appends to the cache. *)
Lemma upload_file_cache relative_path file_path c :
  ∃ created,
    folder_cache (upload_file fs sha256_hexdigest relative_path file_path c).2
    = folder_cache c ++ created.
Proof.
  unfold upload_file. cbn zeta. unfold rewrap. rewrite bind_run.
  set (folder_path := Py.replace _ _ _).
  assert (Hstep : ∃ created,
            folder_cache ((if Py.truthy folder_path
                           then create_folder folder_path
                           else ret None) c).2
            = folder_cache c ++ created).
  { destruct (Py.truthy folder_path).
    - destruct (create_folder_appends folder_path c) as (created & ? & _).
      by exists created.
    - exists []. by rewrite app_nil_r. }
  destruct Hstep as (created & Hfc). exists created.
  destruct ((if Py.truthy folder_path then create_folder folder_path
             else ret None) c) as [[folder_id|e] c'];
    cbn [snd] in Hfc; [|done].
  unfold mbind, M_bind, bind, send, raise, ret. cbn zeta.
  destruct (respond (remote c') _) as [signed r1].
  destruct signed; try done.
  destruct (fs_read fs file_path); [|done].
  cbn [remote]. destruct (respond r1 _) as [upload_response r2].
  destruct upload_response; try done;
    cbn [remote]; destruct (respond r2 _) as [part_response r3];
    by destruct part_response.
Qed.

Lemma delete_file_cache relative_path c :
  folder_cache (delete_file relative_path c).2 = folder_cache c.
Proof.
  unfold delete_file. cbn zeta.
  unfold rewrap, mbind, M_bind, bind, get_cache, send, raise, ret.
  cbn zeta. destruct (respond (remote c) _) as [resp r'].
  destruct resp as [| |? |? |parts|? ?]; try done.
  destruct (delete_file_loop _ _ parts 0 _) as [res' c'] eqn:Hloop.
  destruct (delete_file_loop_spec _ _ _ _ _ _ _ Hloop) as (Hfc & _).
  by destruct res'.
Qed.

Local Ltac frame_goal :=
  cbn [log write_log with_client client upload_queue initial_sync_done
       folder_cache snd] in *;
  split_and!;
  first [ done
        | by left
        | by right
        | by eexists [_]; split; [reflexivity|simpl; lia]
        | by exists []; rewrite app_nil_r; split; [reflexivity|simpl; lia] ].

(** X18. Processing one item leaves the queue and the flag
    [initial_sync_done] alone and writes at most one log line. An upload
    only appends entries to the folder cache; a deletion by path and a
    deletion of a part leave the cache as it is; a deletion of a folder
    leaves it as it is or drops the entries holding that identifier. *)
Theorem worker_item_effects (item : Item) h :
  let h' := process fs sha256_hexdigest item h in
  upload_queue h' = upload_queue h
  ∧ initial_sync_done h' = initial_sync_done h
  ∧ (∃ lines, log h' = log h ++ lines ∧ length lines ≤ 1)
  ∧ match item with
    | Upload _ =>
        ∃ created,
          folder_cache (client h') = folder_cache (client h) ++ created
    | Delete _ | DeletePartId _ =>
        folder_cache (client h') = folder_cache (client h)
    | DeleteFolderId folder_id =>
        folder_cache (client h') = folder_cache (client h)
        ∨ folder_cache (client h')
          = filter (λ kv, kv.2 ≠ folder_id)
              (Dict.items (folder_cache (client h)))
    end.
Proof.
  cbn zeta.
  assert (Hsame : ∃ created,
            folder_cache (client h) = folder_cache (client h) ++ created).
  { exists []. by rewrite app_nil_r. }
  destruct item as [file_path|file_path|part_id|folder_id]; cbn [process].
  - destruct (fs_exists fs file_path); [|frame_goal].
    unfold _upload_file.
    destruct (negb _); [frame_goal|].
    destruct (fs_getsize _ _); [|frame_goal].
    destruct (_ <? _)%Z; [frame_goal|].
    destruct (_get_relative_path _ _) as [rel_path|]; [|frame_goal].
    pose proof (upload_file_cache rel_path file_path (client h)) as Hfc.
    destruct (upload_file _ _ _ _ _) as [[b|e] c']; frame_goal.
  - unfold _delete_file.
    destruct (_get_relative_path _ _) as [rel_path|]; [|frame_goal].
    pose proof (delete_file_cache rel_path (client h)) as Hfc.
    destruct (delete_file _ _) as [[[|]|e] c']; frame_goal.
  - unfold _delete_part_by_id, send.
    destruct (respond _ _) as [resp r'].
    destruct resp; frame_goal.
  - unfold _delete_folder_by_id. rewrite delete_folder_unfold. cbn zeta.
    destruct (respond _ _) as [resp r'].
    destruct resp; frame_goal.
Qed.

(** X19. What the worker does with an upload item depends on four
    checks: the file exists, its resolved path is inside the watch root,
    its size can be read and is at most [max_file_size], and its path
    relative to the watch root can be computed. When all four hold, the
    worker calls [upload_file] on that relative path with backslashes
    turned into slashes: the client is the one that call leaves, and one
    line is logged, the upload or its failure. When one of them does not
    hold, the client is untouched: no request is sent. *)
Theorem worker_upload_guards file_path h :
  let h' := process fs sha256_hexdigest (Upload file_path) h in
  (∀ file_size rel_path,
     fs_exists fs file_path = true →
     fs_is_relative_to_watch fs file_path = Some true →
     fs_getsize fs file_path = Some file_size →
     (file_size ≤ max_file_size)%Z →
     fs_relative_to_watch fs file_path = Some rel_path →
     let run :=
       upload_file fs sha256_hexdigest
         (Py.replace [Py.backslash] (str "/") rel_path) file_path
         (client h) in
     client h' = run.2
     ∧ log h'
       = log h ++ [match run.1 with
                   | Return _ => LogUploaded file_path
                   | Raise e => LogUploadFailed file_path e
                   end])
  ∧ (fs_exists fs file_path = false
     ∨ fs_is_relative_to_watch fs file_path ≠ Some true
     ∨ fs_getsize fs file_path = None
     ∨ (∃ file_size, fs_getsize fs file_path = Some file_size
                     ∧ (max_file_size < file_size)%Z)
     ∨ fs_relative_to_watch fs file_path = None →
     client h' = client h).
Proof.
  cbn zeta. cbn [process]. split.
  - intros file_size rel_path Hexists Hsafe Hsize Hsmall Hrel.
    rewrite Hexists. unfold _upload_file, _is_safe_path, _get_relative_path.
    rewrite Hsafe, Hsize, Hrel. cbn [default negb from_option id].
    apply Z.ltb_ge in Hsmall. rewrite Hsmall.
    cbn [fmap option_fmap option_map].
    by destruct (upload_file _ _ _ _ _) as [[b|e] c'].
  - intros Hfail.
    destruct (fs_exists fs file_path) eqn:Hexists; [|done].
    unfold _upload_file, _is_safe_path, _get_relative_path.
    destruct (fs_is_relative_to_watch fs file_path) as [[|]|] eqn:Hsafe;
      try done.
    cbn [default negb from_option id].
    destruct (fs_getsize fs file_path) as [file_size|] eqn:Hsize; [|done].
    destruct (max_file_size <? file_size)%Z eqn:Hbig; [done|].
    apply Z.ltb_ge in Hbig.
    destruct (fs_relative_to_watch fs file_path) as [rel_path|] eqn:Hrel;
      [|done].
    exfalso. destruct Hfail as [?|[?|[?|[(size & [= <-] & ?)|?]]]];
      try done. lia.
Qed.

End WorkerMore.

(** The upload of [/w/X/A.stl], which passes the four checks, and the one
    of [/w/huge.stl], which is too large. *)
Lemma worker_upload_guards_witness :
  let h := Sample.handler_of Sample.client_upload_XA [] in
  let h' :=
    FileWatchHandler.process Sample.disk_XA Sample.sha256_stub
      (Upload (str "/w/X/A.stl")) h in
  FileWatchHandler.client h'
  = (PrintagoClient.upload_file Sample.disk_XA Sample.sha256_stub
       (str "X/A.stl") (str "/w/X/A.stl") Sample.client_upload_XA).2
  ∧ FileWatchHandler.log h' = [LogUploaded (str "/w/X/A.stl")]
  ∧ FileWatchHandler.client
      (FileWatchHandler.process Sample.disk_huge Sample.sha256_stub
         (Upload (str "/w/huge.stl")) (Sample.handler_of Sample.client_X []))
    = Sample.client_X.
Proof.
  cbv zeta.
  destruct (worker_upload_guards Sample.disk_XA Sample.sha256_stub
              (str "/w/X/A.stl")
              (Sample.handler_of Sample.client_upload_XA [])) as [Hgo _].
  destruct (Hgo 10%Z (str "X/A.stl")) as [Hclient Hlog];
    [reflexivity|reflexivity|reflexivity|by vm_compute|reflexivity|].
  destruct (worker_upload_guards Sample.disk_huge Sample.sha256_stub
              (str "/w/huge.stl") (Sample.handler_of Sample.client_X []))
    as [_ Hstay].
  split; [exact Hclient|]. split; [rewrite Hlog; vm_compute; reflexivity|].
  apply Hstay. right. right. right. left. exists 524288001%Z.
  split; [vm_compute; reflexivity|by vm_compute].
Defined.

Section SessionMore.
Import PrintagoClient FileWatchHandler.
Context {R : Type} `{RemoteStore R}.
Variable fs : FileSystem.
Variable sha256_hexdigest : list Byte.byte → pystr.

(** What a callback adds to the queue is an upload or a deletion of a
    path inside the watch root. *)
Lemma callback_added (h : Handler R) (event : Event) (item : Item) :
  item ∈ added h (on_created fs event h)
  ∨ item ∈ added h (on_modified fs event h)
  ∨ item ∈ added h (on_deleted fs event h) →
  event.(is_directory) = false
  ∧ fs_is_relative_to_watch fs event.(src_path) = Some true
  ∧ (item = Upload event.(src_path) ∨ item = Delete event.(src_path)).
Proof.
  unfold added, on_created, on_modified, on_deleted, _is_safe_path.
  destruct (is_directory event); cbn [negb andb].
  { rewrite drop_all. intros [Hin|[Hin|Hin]]; by apply elem_of_nil in Hin. }
  destruct (fs_is_relative_to_watch fs (src_path event)) as [[|]|];
    cbn [default from_option id];
    try (rewrite drop_all;
         intros [Hin|[Hin|Hin]]; by apply elem_of_nil in Hin).
  cbn [put write_log upload_queue]. rewrite !drop_app_length.
  intros [Hin|[Hin|Hin]]; apply list_elem_of_singleton in Hin as ->;
    split_and!; first [done | by left | by right].
Qed.

Lemma session_enqueued_safe (h0 : Handler R) (plan : list Item)
    (s : Session R) :
  rtc (step fs sha256_hexdigest) (start h0 plan) s →
  ∀ item, item ∈ enqueued s ++ pending s →
    item ∈ plan
    ∨ ∃ file_path,
        (item = Upload file_path ∨ item = Delete file_path)
        ∧ fs_is_relative_to_watch fs file_path = Some true.
Proof.
  intros Hreach.
  pose (P := λ s : Session R,
          ∀ item, item ∈ enqueued s ++ pending s →
            item ∈ plan
            ∨ ∃ file_path,
                (item = Upload file_path ∨ item = Delete file_path)
                ∧ fs_is_relative_to_watch fs file_path = Some true).
  change (P s). revert s Hreach. apply rtc_ind_r; unfold P.
  - intros item Hin. by left.
  - intros s s' _ Hstep IH item.
    assert (Hcb : ∀ event h',
              (∀ x, x ∈ added (handler s) h' →
                    event.(is_directory) = false
                    ∧ fs_is_relative_to_watch fs event.(src_path) = Some true
                    ∧ (x = Upload event.(src_path)
                       ∨ x = Delete event.(src_path))) →
              item ∈ enqueued (after_callback s h')
                     ++ pending (after_callback s h') →
              item ∈ plan
              ∨ ∃ file_path,
                  (item = Upload file_path ∨ item = Delete file_path)
                  ∧ fs_is_relative_to_watch fs file_path = Some true).
    { intros event h' Hadd. cbn [after_callback enqueued pending].
      rewrite !elem_of_app. intros [[Hin|Hin]|Hin].
      - apply IH, elem_of_app. by left.
      - right. destruct (Hadd _ Hin) as (_ & Hsafe & Hitem).
        by exists (src_path event).
      - apply IH, elem_of_app. by right. }
    destruct Hstep as [h item' rest enq app|s event|s event|s event|s].
    + cbn [enqueued pending] in *. rewrite <-app_assoc. exact (IH item).
    + apply (Hcb event). intros x Hx. apply (callback_added (handler s)).
      by left.
    + apply (Hcb event). intros x Hx. apply (callback_added (handler s)).
      right. by left.
    + apply (Hcb event). intros x Hx. apply (callback_added (handler s)).
      right. by right.
    + exact (IH item).
Qed.

End SessionMore.

(** X20. In a watch session, whatever the interleaving, every item put on
    the queue is an item of the reconciliation plan or an upload or
    deletion of a path that resolves inside the watch root. *)
Theorem session_enqueues_only_safe_paths {R : Type} `{RemoteStore R}
    (fs : FileSystem) (sha256_hexdigest : list Byte.byte → pystr)
    (h0 : FileWatchHandler.Handler R) (plan : list Item) (s : Session R)
    (item : Item) :
  rtc (step fs sha256_hexdigest) (start h0 plan) s →
  item ∈ enqueued s →
  item ∈ plan
  ∨ ∃ file_path,
      (item = Upload file_path ∨ item = Delete file_path)
      ∧ fs_is_relative_to_watch fs file_path = Some true.
Proof.
  intros Hreach Hin.
  apply (session_enqueued_safe fs sha256_hexdigest h0 plan s Hreach).
  apply elem_of_app. by left.
Qed.

Lemma session_enqueues_only_safe_paths_witness :
  Upload (str "/w/B.stl") ∈ []
  ∨ ∃ file_path,
      (Upload (str "/w/B.stl") = Upload file_path
       ∨ Upload (str "/w/B.stl") = Delete file_path)
      ∧ fs_is_relative_to_watch Sample.disk_B file_path = Some true.
Proof.
  apply (session_enqueues_only_safe_paths Sample.disk_B Sample.sha256_stub
           (Sample.handler_of (Sample.client_of [] []) []) []
           (after_callback
              (start (Sample.handler_of (Sample.client_of [] []) []) [])
              (FileWatchHandler.on_created Sample.disk_B Sample.event_created_B
                 (Sample.handler_of (Sample.client_of [] []) [])))).
  - apply rtc_once.
    apply (step_on_created Sample.disk_B Sample.sha256_stub
             (start (Sample.handler_of (Sample.client_of [] []) []) [])
             Sample.event_created_B).
  - vm_compute. constructor 1.
Defined.


(** ** [load_env] *)

Section StripFacts.
Implicit Types (s t : pystr) (chars : pystr).

Lemma lstrip_app chars s t :
  Py.lstrip chars (s ++ t)
  = if decide (Py.lstrip chars s = []) then Py.lstrip chars t
    else Py.lstrip chars s ++ t.
Proof.
  induction s as [|c s IH]; [done|]. cbn [app Py.lstrip].
  destruct (decide (c ∈ chars)); [exact IH|]. by rewrite decide_False.
Qed.

Lemma lstrip_all chars s :
  Forall (λ c, c ∈ chars) s → Py.lstrip chars s = [].
Proof.
  induction 1 as [|c s Hc _ IH]; simpl; [done|]. by rewrite decide_True.
Qed.

Lemma lstrip_idem chars s :
  Py.lstrip chars (Py.lstrip chars s) = Py.lstrip chars s.
Proof.
  induction s as [|c s IH]; simpl; [done|].
  destruct (decide (c ∈ chars)) as [|Hc]; [done|]. simpl.
  by rewrite decide_False.
Qed.

Lemma lstrip_pad chars pad s :
  Forall (λ c, c ∈ chars) pad →
  Py.lstrip chars (pad ++ s) = Py.lstrip chars s.
Proof.
  intros Hpad. rewrite lstrip_app, (lstrip_all _ _ Hpad).
  by rewrite decide_True.
Qed.

Lemma rstrip_app chars s t :
  Py.rstrip chars (s ++ t)
  = if decide (Py.rstrip chars t = []) then Py.rstrip chars s
    else s ++ Py.rstrip chars t.
Proof.
  unfold Py.rstrip. rewrite reverse_app, lstrip_app.
  destruct (decide (Py.lstrip chars (reverse t) = [])) as [Ht|Ht].
  - rewrite decide_True; [done|]. by rewrite Ht.
  - rewrite decide_False.
    + by rewrite reverse_app, reverse_involutive.
    + intros Hr. apply Ht. apply (f_equal reverse) in Hr.
      by rewrite reverse_involutive in Hr.
Qed.

Lemma rstrip_all chars s :
  Forall (λ c, c ∈ chars) s → Py.rstrip chars s = [].
Proof.
  intros Hs. unfold Py.rstrip. rewrite lstrip_all; [done|].
  by apply Forall_reverse.
Qed.

Lemma rstrip_idem chars s :
  Py.rstrip chars (Py.rstrip chars s) = Py.rstrip chars s.
Proof.
  unfold Py.rstrip. by rewrite reverse_involutive, lstrip_idem.
Qed.

Lemma rstrip_pad chars s pad :
  Forall (λ c, c ∈ chars) pad →
  Py.rstrip chars (s ++ pad) = Py.rstrip chars s.
Proof.
  intros Hpad. rewrite rstrip_app, (rstrip_all _ _ Hpad).
  by rewrite decide_True.
Qed.

Lemma lstrip_nil_all chars s :
  Py.lstrip chars s = [] → Forall (λ c, c ∈ chars) s.
Proof.
  induction s as [|c s IH]; simpl; [done|].
  destruct (decide (c ∈ chars)); [|done]. intros Hs.
  apply Forall_cons. split; [done|by apply IH].
Qed.

(** Padding does not show after [strip]. *)
Lemma strip_pad pad1 s pad2 :
  blank pad1 → blank pad2 → Py.strip (pad1 ++ s ++ pad2) = Py.strip s.
Proof.
  intros H1 H2. unfold Py.strip. rewrite (lstrip_pad _ _ _ H1), lstrip_app.
  destruct (decide (Py.lstrip Py.whitespace s = [])) as [Hs|Hs].
  - rewrite Hs, (lstrip_all _ _ H2). done.
  - by rewrite rstrip_pad.
Qed.

(** A string that [strip] leaves alone is left alone by both halves. *)
Lemma strip_fixed s :
  Py.strip s = s →
  Py.lstrip Py.whitespace s = s ∧ Py.rstrip Py.whitespace s = s.
Proof.
  unfold Py.strip. intros Hs.
  assert (Hl : Py.lstrip Py.whitespace s = s).
  { pose proof (rstrip_prefix Py.whitespace (Py.lstrip Py.whitespace s))
      as Hpre.
    pose proof (lstrip_suffix Py.whitespace s) as Hsuf.
    rewrite Hs in Hpre.
    apply prefix_length in Hpre. destruct Hsuf as [k Hk].
    assert (k = []) as ->; [|by rewrite Hk at 2].
    apply (f_equal length) in Hk. rewrite length_app in Hk.
    apply nil_length_inv. lia. }
  split; [done|]. by rewrite Hl in Hs.
Qed.

Lemma strip_idem s : Py.strip (Py.strip s) = Py.strip s.
Proof.
  unfold Py.strip.
  set (t := Py.lstrip Py.whitespace s).
  assert (Ht : Py.lstrip Py.whitespace (Py.rstrip Py.whitespace t)
               = Py.rstrip Py.whitespace t).
  { apply lstrip_id. intros c Hc.
    eapply head_not_prefix; [apply rstrip_prefix|].
    unfold t. by apply lstrip_head. }
  by rewrite Ht, rstrip_idem.
Qed.

Lemma split_once_app sep s t :
  sep ∉ s → Py.split_once sep (s ++ sep :: t) = (s, t).
Proof.
  induction s as [|c s IH]; simpl.
  - intros _. by rewrite decide_True.
  - rewrite not_elem_of_cons. intros [Hc Hs].
    rewrite decide_False by done. by rewrite IH.
Qed.

Lemma split_once_no_sep sep s :
  sep ∉ (Py.split_once sep s).1.
Proof.
  induction s as [|c s IH]; simpl; [apply not_elem_of_nil|].
  destruct (decide (c = sep)) as [|Hc]; [apply not_elem_of_nil|].
  destruct (Py.split_once sep s) as [before after]. simpl in *.
  rewrite not_elem_of_cons. split; [congruence|done].
Qed.

Lemma split_once_prefix sep s :
  (Py.split_once sep s).1 `prefix_of` s.
Proof.
  induction s as [|c s IH]; simpl; [done|].
  destruct (decide (c = sep)) as [|Hc]; [apply prefix_nil|].
  destruct (Py.split_once sep s) as [before after]. simpl in *.
  by apply prefix_cons.
Qed.

End StripFacts.

Section LoadEnvFacts.

Lemma lstrip_fixed_head chars (c : ascii) (s : pystr) :
  Py.lstrip chars (c :: s) = c :: s → c ∉ chars.
Proof.
  simpl. destruct (decide (c ∈ chars)); [|done]. intros Hs.
  pose proof (lstrip_suffix chars s) as Hsuf. rewrite Hs in Hsuf.
  apply suffix_length in Hsuf. simpl in Hsuf. lia.
Qed.

Lemma strip_elem (c : ascii) (s : pystr) : c ∈ Py.strip s → c ∈ s.
Proof.
  unfold Py.strip. intros Hc.
  destruct (rstrip_prefix Py.whitespace (Py.lstrip Py.whitespace s))
    as [k Hk].
  destruct (lstrip_suffix Py.whitespace s) as [k' Hk'].
  rewrite Hk', Hk. set_solver.
Qed.

Lemma forall_set {K V} `{EqDecision K} (Q : K * V → Prop)
    (d : dict K V) k v :
  Forall Q (Dict.items d) → Q (k, v) → Forall Q (Dict.items (Dict.set d k v)).
Proof.
  unfold Dict.items. intros Hd Hkv.
  induction d as [|[k' v'] d IH]; simpl.
  - by apply Forall_singleton.
  - apply Forall_cons in Hd as [Hk' Hd].
    destruct (decide (k' = k)); apply Forall_cons; auto.
Qed.

Lemma load_env_line_entries env_vars line :
  Forall env_entry (Dict.items env_vars) →
  Forall env_entry (Dict.items (load_env_line env_vars line)).
Proof.
  intros Henv. unfold load_env_line. cbv zeta.
  set (stripped := Py.strip line).
  destruct (Py.truthy stripped && negb (Py.startswith stripped (str "#"))
            && bool_decide ("="%char ∈ stripped)) eqn:Hcond; [|done].
  apply andb_prop in Hcond as [Hcond _].
  apply andb_prop in Hcond as [_ Hhash].
  apply negb_true_iff, bool_decide_eq_false in Hhash.
  pose proof (split_once_no_sep "=" stripped) as Hsep.
  pose proof (split_once_prefix "=" stripped) as Hpre.
  destruct (Py.split_once "=" stripped) as [key value]. cbn [fst] in *.
  apply forall_set; [done|]. unfold env_entry. cbn [fst snd].
  split_and!; [|apply strip_idem..|].
  - intros Hin. by apply Hsep, strip_elem.
  - destruct (strip_fixed stripped (strip_idem line)) as [Hl _].
    destruct key as [|c key]; [done|].
    destruct Hpre as [k Hk]. rewrite Hk in Hl, Hhash.
    apply lstrip_fixed_head in Hl.
    unfold Py.strip. cbn [Py.lstrip]. rewrite decide_False by done.
    rewrite rstrip_cons by done. simpl. intros ->.
    apply Hhash. by eexists.
Qed.

Lemma load_env_entries dotenv :
  Forall env_entry (Dict.items (load_env dotenv)).
Proof.
  unfold load_env. destruct dotenv as [lines|]; [|by apply Forall_nil].
  assert (Hgen : ∀ env_vars,
            Forall env_entry (Dict.items env_vars) →
            Forall env_entry
              (Dict.items (foldl load_env_line env_vars lines))).
  { induction lines as [|line lines IH]; intros env_vars Henv; [done|].
    cbn [foldl]. by apply IH, load_env_line_entries. }
  apply Hgen. by apply Forall_nil.
Qed.

(** The line [key = value], padded at will. *)
Lemma load_env_line_assignment env_vars pad1 key pad2 pad3 value pad4 :
  blank pad1 → blank pad2 → blank pad3 → blank pad4 →
  Py.strip key = key → Py.strip value = value →
  "="%char ∉ key → head_not "#" key →
  load_env_line env_vars
    (pad1 ++ key ++ pad2 ++ str "=" ++ pad3 ++ value ++ pad4)
  = Dict.set env_vars key value.
Proof.
  intros H1 H2 H3 H4 Hkey Hvalue Hsep Hhash.
  assert (Hws : "="%char ∉ Py.whitespace)
    by (apply (bool_decide_unpack _); vm_compute; exact I).
  assert (Hblank : ∀ pad, blank pad → "="%char ∉ pad).
  { intros pad Hpad Hin. unfold blank in Hpad.
    rewrite Forall_forall in Hpad. by apply Hws, Hpad. }
  destruct (strip_fixed _ Hkey) as [Hkl Hkr].
  destruct (strip_fixed _ Hvalue) as [Hvl Hvr].
  set (before := Py.lstrip Py.whitespace (key ++ pad2)).
  set (after := Py.rstrip Py.whitespace (pad3 ++ value)).
  assert (Hline : Py.strip (pad1 ++ key ++ pad2 ++ str "=" ++ pad3
                            ++ value ++ pad4)
                  = before ++ "="%char :: after).
  { unfold Py.strip. rewrite (lstrip_pad _ _ _ H1).
    rewrite (app_assoc key pad2), lstrip_app. fold before.
    assert (Hrest : Py.lstrip Py.whitespace
                      (str "=" ++ pad3 ++ value ++ pad4)
                    = "="%char :: pad3 ++ value ++ pad4).
    { change (str "=" ++ pad3 ++ value ++ pad4)
        with ("="%char :: pad3 ++ value ++ pad4).
      cbn [Py.lstrip]. by rewrite decide_False. }
    assert (Hr : Py.rstrip Py.whitespace
                   ("="%char :: pad3 ++ value ++ pad4)
                 = "="%char :: after).
    { rewrite rstrip_cons by done. f_equal.
      by rewrite (app_assoc pad3 value), rstrip_pad. }
    destruct (decide (before = [])) as [->|Hb].
    - by rewrite Hrest, Hr.
    - change (str "=" ++ pad3 ++ value ++ pad4)
        with ("="%char :: pad3 ++ value ++ pad4).
      rewrite rstrip_app, Hr. by rewrite decide_False. }
  assert (Hbefore : ("="%char ∉ before) ∧ Py.strip before = key
                    ∧ head_not "#" before).
  { unfold before. rewrite lstrip_app, Hkl.
    destruct key as [|c key].
    - rewrite decide_True by done. rewrite (lstrip_all _ _ H2).
      split_and!; [apply not_elem_of_nil|done|done].
    - rewrite decide_False by done. split_and!.
      + rewrite elem_of_app. intros [?|?]; [done|]. by apply (Hblank pad2).
      + change (Py.strip ([] ++ (c :: key) ++ pad2) = c :: key).
        rewrite strip_pad; [done|apply Forall_nil_2|done].
      + exact Hhash. }
  assert (Hafter : Py.strip after = value).
  { unfold after. rewrite rstrip_app, Hvr.
    destruct value as [|c value].
    - rewrite decide_True by done. by rewrite (rstrip_all _ _ H3).
    - rewrite decide_False by done.
      rewrite <-(app_nil_r (c :: value)) at 1.
      rewrite strip_pad; [done|done|apply Forall_nil_2]. }
  destruct Hbefore as (Hb1 & Hb2 & Hb3).
  unfold load_env_line. cbv zeta. rewrite Hline.
  rewrite (split_once_app _ _ _ Hb1), Hb2, Hafter.
  assert (Hcond : Py.truthy (before ++ "="%char :: after)
                  && negb (Py.startswith (before ++ "="%char :: after)
                             (str "#"))
                  && bool_decide ("="%char ∈ before ++ "="%char :: after)
                  = true).
  { rewrite !andb_true_iff. split_and!.
    - by destruct before.
    - apply negb_true_iff, bool_decide_eq_false. intros [k Hk].
      destruct before as [|c before]; simpl in *; congruence.
    - apply bool_decide_eq_true. set_solver. }
  by rewrite Hcond.
Qed.

End LoadEnvFacts.

(** X21. Every key [load_env] stores holds no equals sign, does not begin
    with [#], and has no white space at either end; no value has white
    space at either end. *)
Theorem load_env_entries_are_stripped (dotenv : option (list pystr)) :
  Forall (λ kv, ("="%char ∉ kv.1) ∧ Py.strip kv.1 = kv.1
                ∧ Py.strip kv.2 = kv.2
                ∧ Py.startswith kv.1 (str "#") = false)
         (Dict.items (load_env dotenv)).
Proof.
  eapply Forall_impl; [apply load_env_entries|].
  intros [key value] (Hsep & Hk & Hv & Hhash). cbn [fst snd] in *.
  split_and!; [done..|].
  apply bool_decide_eq_false. intros [k ->]. by simpl in Hhash.
Qed.

(** X22. When the last line of the file is an assignment [key = value],
    with any white space before the key, around the equals sign and after
    the value, [load_env] maps the key to the value, whatever the lines
    before; the value may hold equals signs. *)
Theorem load_env_last_assignment_wins
    (lines : list pystr) (pad1 key pad2 pad3 value pad4 : pystr) :
  blank pad1 → blank pad2 → blank pad3 → blank pad4 →
  Py.strip key = key → Py.strip value = value →
  "="%char ∉ key → Py.startswith key (str "#") = false →
  Dict.get
    (load_env
       (Some (lines
              ++ [pad1 ++ key ++ pad2 ++ str "=" ++ pad3 ++ value ++ pad4])))
    key
  = Some value.
Proof.
  intros H1 H2 H3 H4 Hkey Hvalue Hsep Hhash.
  unfold load_env. rewrite foldl_app. cbn [foldl].
  rewrite load_env_line_assignment; try done.
  - rewrite get_set. by rewrite decide_True.
  - apply bool_decide_eq_false in Hhash.
    destruct key as [|c key]; [done|]. simpl. intros ->. apply Hhash.
    by eexists.
Qed.

Lemma load_env_last_assignment_wins_witness :
  Dict.get
    (load_env
       (Some ([str "# settings"; str "API_KEY=old"]
              ++ [str " " ++ str "API_KEY" ++ str " " ++ str "="
                  ++ str " " ++ str "a=b" ++ [ascii_of_nat 10]])))
    (str "API_KEY")
  = Some (str "a=b").
Proof.
  apply (load_env_last_assignment_wins
           [str "# settings"; str "API_KEY=old"]
           (str " ") (str "API_KEY") (str " ") (str " ") (str "a=b")
           [ascii_of_nat 10]).
  1-4: apply (bool_decide_unpack _); vm_compute; exact I.
  - reflexivity.
  - reflexivity.
  - apply (bool_decide_unpack _). vm_compute. exact I.
  - reflexivity.
Defined.


(** ** The clean-up script [delete_empty_folders.py] *)

Section CleanUpScript.
Import DeleteEmptyFolders.

Lemma contains_substring (sub s : pystr) :
  Py.contains sub s = true ↔ Py.substring sub s.
Proof.
  induction s as [|c s IH]; cbn [Py.contains].
  - rewrite orb_false_r, bool_decide_eq_true. split.
    + intros [k Hk]. exists [], k. done.
    + intros (a & b & Hs). symmetry in Hs.
      apply app_eq_nil in Hs as [-> Hs]. apply app_eq_nil in Hs as [-> _].
      done.
  - rewrite orb_true_iff, bool_decide_eq_true, IH. split.
    + intros [[k Hk]|(a & b & ->)].
      * exists [], k. done.
      * exists (c :: a), b. done.
    + intros (a & b & Hs). destruct a as [|x a].
      * left. exists b. done.
      * right. injection Hs as -> ->. by exists a, b.
Qed.

(** The set of the truthy identifiers read off a listing. *)
Lemma truthy_ids_elem {A} (f : A → pyid) (l : list A) (id : pyid) :
  ∀ s : gset pyid,
    id ∈ foldl (λ s a, if id_truthy (f a) then {[ f a ]} ∪ s else s) s l
    ↔ id ∈ s ∨ (id_truthy id = true ∧ ∃ a, a ∈ l ∧ f a = id).
Proof.
  induction l as [|a l IH]; intros s; cbn [foldl].
  - split; [by left|]. intros [?|(_ & ? & Hin & _)]; [done|].
    by apply elem_of_nil in Hin.
  - rewrite IH. split.
    + intros [Hin|(Ht & p & Hp & Hid)].
      * destruct (id_truthy (f a)) eqn:Ht; [|by left].
        apply elem_of_union in Hin as [Hin|Hin]; [|by left].
        apply elem_of_singleton in Hin as ->. right. split; [done|].
        exists a. split; [apply elem_of_cons; by left|done].
      * right. split; [done|]. exists p.
        split; [apply elem_of_cons; by right|done].
    + intros [Hin|(Ht & p & Hp & Hid)].
      * left. destruct (id_truthy (f a)); [|done].
        apply elem_of_union. by right.
      * apply elem_of_cons in Hp as [->|Hp].
        -- left. rewrite Hid, Ht. apply elem_of_union. left.
           by apply elem_of_singleton.
        -- right. split; [done|]. by exists p.
Qed.

Lemma folders_with_parts_elem (parts : list Part) (id : pyid) :
  id ∈ folders_with_parts parts
  ↔ id_truthy id = true ∧ ∃ part, part ∈ parts ∧ part.(get_folderId) = id.
Proof.
  unfold folders_with_parts. rewrite (truthy_ids_elem get_folderId).
  split; [|by right]. intros [Hin|?]; [|done].
  by apply not_elem_of_empty in Hin.
Qed.

Lemma folders_with_children_elem (folders : list Folder) (id : pyid) :
  id ∈ folders_with_children folders
  ↔ id_truthy id = true
    ∧ ∃ folder, folder ∈ folders ∧ folder.(folder_parentId) = id.
Proof.
  unfold folders_with_children. rewrite (truthy_ids_elem folder_parentId).
  split; [|by right]. intros [Hin|?]; [|done].
  by apply not_elem_of_empty in Hin.
Qed.

End CleanUpScript.

Section CleanUpSelection.
Import DeleteEmptyFolders.

Lemma not_in_truthy_ids {A} (f : A → pyid) (l : list A) (id : pyid) :
  ¬ (id_truthy id = true ∧ ∃ a, a ∈ l ∧ f a = id)
  ↔ ∀ a, a ∈ l → id_truthy (f a) = true → f a ≠ id.
Proof.
  split.
  - intros Hno a Ha Ht Hid. apply Hno. rewrite <-Hid. split; [done|].
    by exists a.
  - intros Hall (Ht & a & Ha & Hid). apply (Hall a Ha); [|done].
    by rewrite Hid.
Qed.

Lemma find_empty_folders_elem recursion_limit folders parts to_delete cand :
  find_empty_folders recursion_limit folders parts = Some to_delete →
  cand ∈ to_delete
  ↔ ∃ folder folder_path,
      folder ∈ folders
      ∧ empty_marked recursion_limit folders parts folder folder_path
      ∧ cand = candidate folder.(folder_id) folder.(folder_name) folder_path.
Proof.
  unfold find_empty_folders.
  set (step := λ (acc : option (list Candidate)) (folder : Folder), _).
  assert (Hgen : ∀ l acc0 result,
    foldl step (Some acc0) l = Some result →
    ∀ cand, cand ∈ result
      ↔ cand ∈ acc0
        ∨ ∃ folder folder_path,
            folder ∈ l
            ∧ empty_marked recursion_limit folders parts folder folder_path
            ∧ cand = candidate folder.(folder_id) folder.(folder_name)
                       folder_path).
  { clear to_delete cand.
    induction l as [|folder l IH]; intros acc0 result Hrun cand0.
    - injection Hrun as <-. split; [by left|].
      intros [?|(? & ? & Hin & _)]; [done|]. by apply elem_of_nil in Hin.
    - cbn [foldl] in Hrun.
      assert (Hfail : ∀ l', foldl step None l' = None).
      { induction l' as [|? ? IH']; [done|]. exact IH'. }
      destruct (step (Some acc0) folder) as [acc1|] eqn:Hstep;
        [|by rewrite Hfail in Hrun].
      rewrite (IH _ _ Hrun). clear IH Hrun Hfail.
      unfold step in Hstep. simpl in Hstep.
      assert (Hhere : ∀ folder_path,
                empty_marked recursion_limit folders parts folder folder_path
                ↔ (folder.(folder_id) ∉ folders_with_parts parts)
                  ∧ (folder.(folder_id) ∉ folders_with_children folders)
                  ∧ get_folder_path recursion_limit folders
                      folder.(folder_id) = Some folder_path
                  ∧ Py.contains marker folder_path = true).
      { intros folder_path. unfold empty_marked.
        rewrite folders_with_parts_elem, folders_with_children_elem.
        rewrite !not_in_truthy_ids, contains_substring. tauto. }
      assert (Hsplit : ∀ X : Prop,
        (X ∨ ∃ f p, f ∈ folder :: l
                    ∧ empty_marked recursion_limit folders parts f p
                    ∧ cand0 = candidate f.(folder_id) f.(folder_name) p)
        ↔ ((X ∨ ∃ p, empty_marked recursion_limit folders parts folder p
                     ∧ cand0 = candidate folder.(folder_id)
                                 folder.(folder_name) p)
           ∨ ∃ f p, f ∈ l
                    ∧ empty_marked recursion_limit folders parts f p
                    ∧ cand0 = candidate f.(folder_id) f.(folder_name) p)).
      { intros X. split.
        - intros [?|(f & p & Hin & Hm & Hc)]; [by left; left|].
          apply elem_of_cons in Hin as [->|Hin].
          + left. right. by exists p.
          + right. by exists f, p.
        - intros [[?|(p & Hm & Hc)]|(f & p & Hin & Hm & Hc)].
          + by left.
          + right. exists folder, p. split; [apply elem_of_cons; by left|done].
          + right. exists f, p. split; [apply elem_of_cons; by right|done]. }
      rewrite Hsplit. clear Hsplit.
      assert (Hacc : cand0 ∈ acc1
                     ↔ cand0 ∈ acc0
                       ∨ ∃ p, empty_marked recursion_limit folders parts
                                folder p
                              ∧ cand0 = candidate folder.(folder_id)
                                          folder.(folder_name) p);
        [|by rewrite Hacc].
      assert (Hnone : (∀ p, ¬ empty_marked recursion_limit folders parts
                                folder p) →
                      acc1 = acc0 →
                      cand0 ∈ acc1
                      ↔ cand0 ∈ acc0
                        ∨ ∃ p, empty_marked recursion_limit folders parts
                                 folder p
                               ∧ cand0 = candidate folder.(folder_id)
                                           folder.(folder_name) p).
      { intros Hno ->. split; [by left|].
        intros [?|(p & Hm & _)]; [done|]. by destruct (Hno p). }
      destruct (decide (folder_id folder ∈ folders_with_parts parts))
        as [Hp|Hp].
      { rewrite bool_decide_eq_true_2 in Hstep by done. simpl in Hstep.
        injection Hstep as <-. apply Hnone; [|done].
        intros p Hm. apply Hhere in Hm. tauto. }
      rewrite (bool_decide_eq_false_2 _ Hp) in Hstep.
      destruct (decide (folder_id folder ∈ folders_with_children folders))
        as [Hc|Hc].
      { rewrite bool_decide_eq_true_2 in Hstep by done. simpl in Hstep.
        injection Hstep as <-. apply Hnone; [|done].
        intros p Hm. apply Hhere in Hm. tauto. }
      rewrite (bool_decide_eq_false_2 _ Hc) in Hstep. simpl in Hstep.
      destruct (get_folder_path recursion_limit folders (folder_id folder))
        as [folder_path|] eqn:Hpath; [|done].
      simpl in Hstep.
      destruct (Py.contains marker folder_path) eqn:Hmark.
      + injection Hstep as <-. rewrite elem_of_app, list_elem_of_singleton.
        split.
        * intros [?|Heq]; [by left|]. subst cand0. right.
          exists folder_path.
          split; [|done]. by apply Hhere.
        * intros [?|(p & Hm & ->)]; [by left|]. right.
          apply Hhere in Hm as (_ & _ & Hp' & _).
          by injection Hp' as ->.
      + injection Hstep as <-. apply Hnone; [|done].
        intros p Hm. apply Hhere in Hm as (_ & _ & Hp' & Hm).
        injection Hp' as ->. congruence. }
  intros Hrun. rewrite (Hgen _ _ _ Hrun). split; [|by right].
  intros [Hin|?]; [|done]. by apply elem_of_nil in Hin.
Qed.

End CleanUpSelection.

(** X23. The clean-up script lists a folder for deletion exactly when no
    listed part is filed in it, no listed folder names it as parent, and
    its path, as [get_folder_path] computes it, holds the marker; the entry
    records the folder's identifier, name and path. *)
Theorem find_empty_folders_selects_empty_marked
    (recursion_limit : nat) (folders : list Folder) (parts : list Part)
    (to_delete : list DeleteEmptyFolders.Candidate)
    (cand : DeleteEmptyFolders.Candidate) :
  DeleteEmptyFolders.find_empty_folders recursion_limit folders parts
    = Some to_delete →
  cand ∈ to_delete
  ↔ ∃ folder folder_path,
      folder ∈ folders
      ∧ empty_marked recursion_limit folders parts folder folder_path
      ∧ cand = DeleteEmptyFolders.candidate folder.(folder_id)
                 folder.(folder_name) folder_path.
Proof. apply find_empty_folders_elem. Qed.

Lemma find_empty_folders_selects_empty_marked_witness :
  DeleteEmptyFolders.candidate (Some (str "f3")) (str "Old")
    (str "STL Library V1.4/Keychains/Old")
  ∈ Sample.cleanup_candidates
  ↔ ∃ folder folder_path,
      folder ∈ Sample.cleanup_folders
      ∧ empty_marked 1000 Sample.cleanup_folders Sample.cleanup_parts
          folder folder_path
      ∧ DeleteEmptyFolders.candidate (Some (str "f3")) (str "Old")
          (str "STL Library V1.4/Keychains/Old")
        = DeleteEmptyFolders.candidate folder.(folder_id)
            folder.(folder_name) folder_path.
Proof.
  apply (find_empty_folders_selects_empty_marked 1000
           Sample.cleanup_folders Sample.cleanup_parts
           Sample.cleanup_candidates).
  vm_compute. reflexivity.
Defined.

Section CleanUpOrder.
Import DeleteEmptyFolders.

Lemma strongly_sorted_lookup {A} (Rel : relation A) (l : list A) :
  StronglySorted Rel l →
  ∀ i j a b, i < j → l !! i = Some a → l !! j = Some b → Rel a b.
Proof.
  induction 1 as [|x l Hsorted IH Hall]; intros i j a b Hlt Ha Hb.
  - by rewrite lookup_nil in Ha.
  - destruct j as [|j]; [lia|]. cbn in Hb.
    destruct i as [|i].
    + injection Ha as <-. rewrite Forall_forall in Hall.
      apply Hall. by eapply list_elem_of_lookup_2.
    + cbn in Ha. apply (IH i j); [lia|done..].
Qed.

(** X24. The clean-up script deletes the listed folders deepest first: the
    sorted list holds the same entries, and no entry comes before one
    whose path has more slashes. The sort is stable: the entries of any
    one depth keep the order in which the loop found them. *)
Theorem cleanup_deletes_deepest_first (recursion_limit : nat)
    (folders : list Folder) (parts : list Part)
    (to_delete : list Candidate) :
  find_empty_folders recursion_limit folders parts = Some to_delete →
  sort_to_delete to_delete ≡ₚ to_delete
  ∧ (∀ i j a b,
      i < j →
      sort_to_delete to_delete !! i = Some a →
      sort_to_delete to_delete !! j = Some b →
      depth b.(cand_path) ≤ depth a.(cand_path))
  ∧ ∀ d : nat,
      filter (λ cand, depth cand.(cand_path) = d) (sort_to_delete to_delete)
      = filter (λ cand, depth cand.(cand_path) = d) to_delete.
Proof.
  intros Hfind.
  destruct (sort_to_delete_deepest_first to_delete) as [Hsorted Hperm].
  assert (Hdepth : ∀ cand, cand ∈ to_delete →
                           cand.(cand_depth) = depth cand.(cand_path)).
  { intros cand Hin.
    apply (find_empty_folders_elem _ _ _ _ _ Hfind) in Hin
      as (folder & folder_path & _ & _ & ->). done. }
  split_and!; [done| |].
  - intros i j a b Hlt Ha Hb.
    pose proof (strongly_sorted_lookup _ _ Hsorted i j a b Hlt Ha Hb) as Hab.
    unfold deeper_first in Hab.
    rewrite <-(Hdepth a), <-(Hdepth b); [done|..];
      rewrite <-Hperm; by eapply list_elem_of_lookup_2.
  - intros d.
    rewrite <-(filter_ext_in (λ cand, cand.(cand_depth) = d) _
                 (sort_to_delete to_delete)).
    2:{ intros cand Hin. rewrite Hperm in Hin. by rewrite (Hdepth cand). }
    rewrite <-(filter_ext_in (λ cand, cand.(cand_depth) = d) _ to_delete).
    2:{ intros cand Hin. by rewrite (Hdepth cand). }
    apply sort_to_delete_stable.
Qed.

End CleanUpOrder.

Lemma cleanup_deletes_deepest_first_witness :
  DeleteEmptyFolders.sort_to_delete Sample.cleanup_candidates
    ≡ₚ Sample.cleanup_candidates
  ∧ ∀ i j a b,
      i < j →
      DeleteEmptyFolders.sort_to_delete Sample.cleanup_candidates !! i
        = Some a →
      DeleteEmptyFolders.sort_to_delete Sample.cleanup_candidates !! j
        = Some b →
      DeleteEmptyFolders.depth b.(DeleteEmptyFolders.cand_path)
      ≤ DeleteEmptyFolders.depth a.(DeleteEmptyFolders.cand_path).
Proof.
  destruct (cleanup_deletes_deepest_first 1000 Sample.cleanup_folders
              Sample.cleanup_parts Sample.cleanup_candidates)
    as (Hperm & Horder & _); [vm_compute; reflexivity|].
  split; [exact Hperm|exact Horder].
Defined.


(** ** The paths [list_folders] caches *)

Section ListingFacts.
Import PrintagoClient.
Variable folders : list Folder.
Hypothesis Hids : NoDup (folder_id <$> folders).

Lemma same_id_same_folder f g :
  f ∈ folders → g ∈ folders → f.(folder_id) = g.(folder_id) → f = g.
Proof.
  clear -Hids. induction folders as [|x l IH]; intros Hf Hg Heq.
  - by apply elem_of_nil in Hf.
  - rewrite fmap_cons in Hids. apply NoDup_cons in Hids as [Hx Hl].
    apply elem_of_cons in Hf as [->|Hf], Hg as [->|Hg]; [done| | |by apply IH].
    + exfalso. apply Hx. rewrite Heq. by apply list_elem_of_fmap_2.
    + exfalso. apply Hx. rewrite <-Heq. by apply list_elem_of_fmap_2.
Qed.

Lemma id_to_folder_get id f :
  Dict.get (id_to_folder_of folders) id = Some f →
  f ∈ folders ∧ f.(folder_id) = id.
Proof.
  clear Hids. unfold id_to_folder_of.
  rewrite (get_foldl_set_last folder_id (λ f, f)). simpl.
  destruct (last _) as [g|] eqn:Hlast; [|done]. intros [= ->].
  apply last_Some in Hlast as [l' Hl'].
  assert (Hin : f ∈ filter (λ a, folder_id a = id) folders).
  { rewrite Hl'. apply elem_of_app. right. by apply list_elem_of_singleton. }
  apply list_elem_of_filter in Hin as [? ?]. done.
Qed.

Lemma id_to_folder_listed f :
  f ∈ folders → Dict.get (id_to_folder_of folders) f.(folder_id) = Some f.
Proof.
  intros Hf.
  destruct (Dict.get (id_to_folder_of folders) (folder_id f)) as [g|] eqn:Hg.
  - apply id_to_folder_get in Hg as [Hg Hid]. f_equal.
    by apply same_id_same_folder.
  - exfalso. revert Hg. unfold id_to_folder_of.
    rewrite (get_foldl_set_last folder_id (λ f, f)).
    destruct (last _) as [g|] eqn:Hlast; [done|]. intros _.
    apply last_None in Hlast.
    assert (Hin : f ∈ filter (λ a, folder_id a = folder_id f) folders)
      by (by apply list_elem_of_filter).
    rewrite Hlast in Hin. by apply elem_of_nil in Hin.
Qed.

(** The children recorded for a folder are the listed folders that name
    it as their parent. *)
Lemma id_to_children_elem child parent_id :
  child ∈ default [] (Dict.get (id_to_children_of folders) parent_id)
  ↔ id_truthy parent_id = true
    ∧ ∃ f, f ∈ folders ∧ f.(folder_id) = child
           ∧ f.(folder_parentId) = parent_id.
Proof.
  clear Hids. unfold id_to_children_of.
  assert (Hgen : ∀ l (m : dict pyid (list pyid)),
    child ∈ default [] (Dict.get
      (foldl (λ m folder,
                let parent_id := folder.(folder_parentId) in
                if id_truthy parent_id then
                  Dict.set m parent_id
                    (default [] (Dict.get m parent_id)
                     ++ [folder.(folder_id)])
                else m) m l) parent_id)
    ↔ child ∈ default [] (Dict.get m parent_id)
      ∨ (id_truthy parent_id = true
         ∧ ∃ f, f ∈ l ∧ f.(folder_id) = child
                ∧ f.(folder_parentId) = parent_id)).
  { induction l as [|x l IH]; intros m; cbn [foldl].
    - split; [by left|]. intros [?|(_ & ? & Hin & _)]; [done|].
      by apply elem_of_nil in Hin.
    - rewrite IH. cbv zeta. split.
      + intros [Hin|(Ht & f & Hf & Hid & Hp)].
        * destruct (id_truthy (folder_parentId x)) eqn:Ht; [|by left].
          rewrite get_set in Hin.
          destruct (decide (folder_parentId x = parent_id)) as [<-|]; 
            [|by left].
          simpl in Hin. apply elem_of_app in Hin as [Hin|Hin]; [by left|].
          apply list_elem_of_singleton in Hin. right. split; [done|].
          exists x. split_and!; [apply elem_of_cons; by left|done..].
        * right. split; [done|]. exists f.
          split_and!; [apply elem_of_cons; by right|done..].
      + intros [Hin|(Ht & f & Hf & Hid & Hp)].
        * left. destruct (id_truthy (folder_parentId x)); [|done].
          rewrite get_set. destruct (decide _) as [<-|]; [|done].
          simpl. apply elem_of_app. by left.
        * apply elem_of_cons in Hf as [->|Hf].
          -- left. rewrite Hp, Ht, get_set, decide_True by done. simpl.
             apply elem_of_app. right. by apply list_elem_of_singleton.
          -- right. split; [done|]. by exists f. }
  rewrite Hgen. split; [|by right].
  intros [Hin|?]; [|done]. by apply elem_of_nil in Hin.
Qed.

Lemma rooted_path_listed id path :
  rooted_path folders id path → ∃ f, f ∈ folders ∧ f.(folder_id) = id.
Proof. destruct 1 as [f ? ?|f ? ? ? ?]; by exists f. Qed.

End ListingFacts.

Section ListFoldersPaths.
Import PrintagoClient.
Context {R : Type} `{RemoteStore R}.
Variable folders : list Folder.
Hypothesis Hids : NoDup (folder_id <$> folders).
Implicit Types (c : Client R) (fc : dict pystr pyid).

Lemma items_set {K V} `{EqDecision K} (d : dict K V) k v kv :
  kv ∈ Dict.items (Dict.set d k v) → kv ∈ Dict.items d ∨ kv = (k, v).
Proof.
  unfold Dict.items. induction d as [|[k' v'] d IH]; simpl.
  - intros Hin. apply list_elem_of_singleton in Hin. by right.
  - destruct (decide (k' = k)) as [->|Hne].
    + rewrite !elem_of_cons. intros [->|?]; [by right|]. left. by right.
    + rewrite !elem_of_cons. intros [->|Hin]; [left; by left|].
      destruct (IH Hin) as [?|?]; [left; by right|by right].
Qed.

(** *** Soundness: what [build_path] writes is a rooted path *)

Lemma call_ok_root f :
  f ∈ folders → f.(folder_parentId) = None →
  call_ok folders f.(folder_id) [].
Proof.
  intros Hf Hroot g Hg. apply id_to_folder_get in Hg as [Hg Hid].
  assert (g = f) as -> by (by apply (same_id_same_folder folders Hids)).
  by apply rooted_root.
Qed.

Lemma call_ok_child id path_parts f child :
  call_ok folders id path_parts →
  Dict.get (id_to_folder_of folders) id = Some f →
  child ∈ default [] (Dict.get (id_to_children_of folders) id) →
  call_ok folders child (path_parts ++ [f.(folder_name)]).
Proof.
  intros Hok Hf Hchild g Hg.
  apply id_to_children_elem in Hchild as (Ht & g' & Hg' & Hid & Hparent).
  apply id_to_folder_get in Hg as [Hg Hgid].
  assert (g' = g) as -> by (apply (same_id_same_folder folders Hids); congruence).
  rewrite join_snoc by (by destruct path_parts).
  subst child. apply rooted_child; [done|by rewrite Hparent|].
  rewrite Hparent. by apply Hok.
Qed.

Lemma build_path_written fc0 depth :
  ∀ id path_parts c res c',
    call_ok folders id path_parts → written folders fc0 c →
    build_path depth (id_to_folder_of folders) (id_to_children_of folders)
      id path_parts c = (res, c') →
    written folders fc0 c'.
Proof.
  induction depth as [|depth IH]; intros id path_parts c res c' Hok Hw Hrun.
  - by injection Hrun as _ <-.
  - cbn [build_path] in Hrun.
    destruct (Dict.get (id_to_folder_of folders) id) as [f|] eqn:Hf;
      [|by injection Hrun as _ <-].
    unfold mbind at 1 2, M_bind at 1 2, bind at 1 2, get_cache, put_cache,
      with_cache in Hrun.
    cbn [folder_cache remote trace] in Hrun.
    match type of Hrun with
    | foldl _ _ ?l ?c0 = _ => set (c1 := c0) in *; set (children := l) in *
    end.
    assert (Hw1 : written folders fc0 c1).
    { intros kv Hin. cbn [folder_cache] in Hin.
      apply items_set in Hin as [Hin| ->]; [by apply Hw|].
      right. by apply Hok. }
    refine (foldl_bind_keeps (written folders fc0)
              (λ child_id, build_path depth (id_to_folder_of folders)
                             (id_to_children_of folders) child_id
                             (path_parts ++ [folder_name f]))
              children _ (ret tt) _ c1 res c' Hw1 Hrun).
    + intros child c0 res0 c0' Hchild Hc0 Hrun0.
      eapply IH; [|exact Hc0|exact Hrun0].
      by eapply call_ok_child.
    + by intros c0 res0 c0' Hc0 [= _ <-].
Qed.

Lemma list_folders_written (recursion_limit : nat) c :
  (respond (remote c) GetFolders).1 = OkFolders folders →
  written folders (folder_cache c) (list_folders recursion_limit c).2.
Proof.
  unfold list_folders, rewrap. rewrite bind_run. unfold send.
  destruct (respond (remote c) GetFolders) as [resp r']. cbn [fst].
  intros ->.
  set (c1 := {| folder_cache := folder_cache c; remote := r';
                trace := trace c ++ [GetFolders] |}).
  rewrite bind_run.
  match goal with
  | |- context [foldl ?f ?m folders c1] =>
      destruct (foldl f m folders c1) as [res1 c2] eqn:Hfold
  end.
  assert (Hw : written folders (folder_cache c) c2).
  { refine (foldl_bind_keeps (written folders (folder_cache c))
              (λ folder : Folder,
                 if decide (folder.(folder_parentId) = None)
                 then build_path recursion_limit (id_to_folder_of folders)
                        (id_to_children_of folders) folder.(folder_id) []
                 else ret tt)
              folders _ (ret tt) _ c1 res1 c2 _ Hfold).
    - intros folder c0 res0 c0' Hin Hc0.
      destruct (decide _) as [Hroot|]; [|by intros [= _ <-]].
      apply build_path_written; [|done]. by apply call_ok_root.
    - by intros c0 res0 c0' Hc0 [= _ <-].
    - intros kv Hin. by left. }
  by destruct res1.
Qed.

End ListFoldersPaths.

Section ListFoldersComplete.
Import PrintagoClient.
Context {R : Type} `{RemoteStore R}.
Variable folders : list Folder.
Hypothesis Hids : NoDup (folder_id <$> folders).
Implicit Types (c : Client R) (fc : dict pystr pyid).

(** When a fold of steps returns, what came before the steps returned. *)
Lemma foldl_bind_start {A} (f : A → M R unit) (l : list A) :
  (∀ a c res c', f a c = (res, c') → keeps_keys c c') →
  ∀ (m : M R unit) c c',
    foldl (λ (acc : M R unit) a, _ ← acc; f a) m l c = (Return tt, c') →
    ∃ c0, m c = (Return tt, c0) ∧ keeps_keys c0 c'.
Proof.
  intros Hf. induction l as [|a l IH]; intros m c c' Hrun.
  - exists c'. split; [done|]. by intros k.
  - cbn [foldl] in Hrun. destruct (IH _ _ _ Hrun) as (c1 & Hrun1 & Hk1).
    rewrite bind_run in Hrun1.
    destruct (m c) as [[[]|e] c0] eqn:Hm; [|done].
    exists c0. split; [done|]. intros k Hk.
    apply Hk1. by apply (Hf _ _ _ _ Hrun1).
Qed.

(** When a fold of steps returns, every step returned. *)
Lemma foldl_bind_each {A} (f : A → M R unit) (l : list A) :
  (∀ a c res c', f a c = (res, c') → keeps_keys c c') →
  ∀ (m : M R unit) c c',
    foldl (λ (acc : M R unit) a, _ ← acc; f a) m l c = (Return tt, c') →
    ∀ a, a ∈ l → ∃ c0 c0', f a c0 = (Return tt, c0') ∧ keeps_keys c0' c'.
Proof.
  intros Hf. induction l as [|a0 l IH]; intros m c c' Hrun a Ha.
  - by apply elem_of_nil in Ha.
  - cbn [foldl] in Hrun. apply elem_of_cons in Ha as [->|Ha].
    + destruct (foldl_bind_start f l Hf _ _ _ Hrun) as (c1 & Hrun1 & Hk1).
      rewrite bind_run in Hrun1.
      destruct (m c) as [[[]|e] c0] eqn:Hm; [|done].
      by exists c0, c1.
    + by eapply IH.
Qed.

Lemma build_path_keeps depth id_to_folder id_to_children id path_parts
    c res c' :
  build_path depth id_to_folder id_to_children id path_parts c = (res, c') →
  keeps_keys c c'.
Proof.
  intros Hrun.
  by destruct (build_path_local _ _ _ _ _ _ _ _ Hrun) as (_ & _ & ?).
Qed.

Lemma visited_key fc id path_parts f :
  visited R folders fc id path_parts →
  Dict.get (id_to_folder_of folders) id = Some f →
  Py.join (str "/") (path_parts ++ [f.(folder_name)]) ∈ Dict.keys fc.
Proof.
  intros (depth & c & c' & Hrun & Hk) Hf. apply Hk.
  destruct depth as [|depth]; [done|].
  cbn [build_path] in Hrun. rewrite Hf in Hrun.
  unfold mbind at 1 2, M_bind at 1 2, bind at 1 2, get_cache, put_cache,
    with_cache in Hrun.
  cbn [folder_cache remote trace] in Hrun.
  match type of Hrun with
  | foldl _ _ ?l ?c0 = _ =>
      destruct (foldl_bind_start
                  (λ child_id, build_path depth (id_to_folder_of folders)
                                 (id_to_children_of folders) child_id
                                 (path_parts ++ [folder_name f]))
                  l (λ a, build_path_keeps _ _ _ _ _) (ret tt) c0 c' Hrun)
        as (c1 & Hret & Hk1)
  end.
  injection Hret as <-. apply Hk1. cbn [folder_cache]. apply keys_set_new.
Qed.

Lemma visited_child fc id path_parts f child :
  visited R folders fc id path_parts →
  Dict.get (id_to_folder_of folders) id = Some f →
  child ∈ default [] (Dict.get (id_to_children_of folders) id) →
  visited R folders fc child (path_parts ++ [f.(folder_name)]).
Proof.
  intros (depth & c & c' & Hrun & Hk) Hf Hchild.
  destruct depth as [|depth]; [done|].
  cbn [build_path] in Hrun. rewrite Hf in Hrun.
  unfold mbind at 1 2, M_bind at 1 2, bind at 1 2, get_cache, put_cache,
    with_cache in Hrun.
  cbn [folder_cache remote trace] in Hrun.
  match type of Hrun with
  | foldl _ _ ?l ?c0 = _ =>
      destruct (foldl_bind_each
                  (λ child_id, build_path depth (id_to_folder_of folders)
                                 (id_to_children_of folders) child_id
                                 (path_parts ++ [folder_name f]))
                  l (λ a, build_path_keeps _ _ _ _ _) (ret tt) c0 c' Hrun
                  child Hchild)
        as (c1 & c1' & Hrun1 & Hk1)
  end.
  exists depth, c1, c1'. split; [done|]. intros k Hin. by apply Hk, Hk1.
Qed.

Lemma rooted_path_visited fc :
  (∀ f, f ∈ folders → f.(folder_parentId) = None →
        visited R folders fc f.(folder_id) []) →
  ∀ id path,
    rooted_path folders id path →
    ∃ path_parts f,
      Dict.get (id_to_folder_of folders) id = Some f
      ∧ visited R folders fc id path_parts
      ∧ path = Py.join (str "/") (path_parts ++ [f.(folder_name)]).
Proof.
  intros Hroots id path.
  induction 1 as [f Hf Hroot|f parent_path Hf Ht Hparent IH].
  - exists [], f. split_and!; [|by apply Hroots|done].
    by apply id_to_folder_listed.
  - destruct IH as (parts_p & g & Hg & Hvis & ->).
    exists (parts_p ++ [folder_name g]), f. split_and!.
    + by apply id_to_folder_listed.
    + eapply visited_child; [done..|].
      apply id_to_children_elem. split; [done|]. by exists f.
    + rewrite (join_snoc (parts_p ++ [folder_name g])); [done|].
      by destruct parts_p.
Qed.

Lemma list_folders_complete (recursion_limit : nat) c c1 id path :
  list_folders recursion_limit c = (Return folders, c1) →
  rooted_path folders id path →
  path ∈ Dict.keys (folder_cache c1).
Proof.
  intros Hrun Hpath.
  assert (Hroots : ∀ f, f ∈ folders → f.(folder_parentId) = None →
                        visited R folders (folder_cache c1)
                          f.(folder_id) []).
  { revert Hrun. unfold list_folders, rewrap. rewrite bind_run. unfold send.
    destruct (respond (remote c) GetFolders) as [resp r'].
    destruct resp as [| |? |folders'|? |? ?]; try done.
    { intros [= Hnone _] f Hf. rewrite <-Hnone in Hf.
      by apply elem_of_nil in Hf. }
    set (c0 := {| folder_cache := folder_cache c; remote := r';
                  trace := trace c ++ [GetFolders] |}).
    rewrite bind_run.
    match goal with
    | |- context [foldl ?f ?m folders' c0] =>
        destruct (foldl f m folders' c0) as [[[]|e] c2] eqn:Hfold
    end; [|done].
    intros [= -> ->] f Hf Hroot.
    assert (Hkeeps : ∀ (a : Folder) c3 res c3',
              (if decide (a.(folder_parentId) = None)
               then build_path recursion_limit (id_to_folder_of folders)
                      (id_to_children_of folders) a.(folder_id) []
               else ret tt) c3 = (res, c3') →
              keeps_keys c3 c3').
    { intros a c3 res c3'. destruct (decide _);
        [apply build_path_keeps|by intros [= _ <-] k]. }
    destruct (foldl_bind_each
                (λ folder : Folder,
                   if decide (folder.(folder_parentId) = None)
                   then build_path recursion_limit (id_to_folder_of folders)
                          (id_to_children_of folders) folder.(folder_id) []
                   else ret tt)
                folders Hkeeps (ret tt) c0 c1 Hfold f Hf)
      as (c3 & c3' & Hrun3 & Hk3).
    rewrite decide_True in Hrun3 by done.
    by exists recursion_limit, c3, c3'. }
  destruct (rooted_path_visited _ Hroots _ _ Hpath)
    as (path_parts & f & Hf & Hvis & ->).
  by eapply visited_key.
Qed.

End ListFoldersComplete.

(** X25. For a listing with distinct folder identifiers that
    [list_folders] returns: the path of every listed folder whose chain of
    parents ends in a folder without parent is a key of the cache; and
    every entry of the cache was there before the call or maps such a path
    to the identifier of its folder. *)
Theorem list_folders_caches_the_rooted_paths {R : Type} `{RemoteStore R}
    (recursion_limit : nat) (c : PrintagoClient.Client R)
    (folders : list Folder) (c1 : PrintagoClient.Client R) :
  NoDup (folder_id <$> folders) →
  PrintagoClient.list_folders recursion_limit c = (Return folders, c1) →
  (∀ id path, rooted_path folders id path →
              path ∈ Dict.keys (PrintagoClient.folder_cache c1))
  ∧ (∀ path id,
       (path, id) ∈ Dict.items (PrintagoClient.folder_cache c1) →
       (path, id) ∈ Dict.items (PrintagoClient.folder_cache c)
       ∨ rooted_path folders id path).
Proof.
  intros Hids Hrun. split.
  - intros id path.
    exact (list_folders_complete folders Hids recursion_limit c c1 id path
             Hrun).
  - intros path id Hin.
    destruct (list_folders_spec recursion_limit c) as (_ & _ & _ & Hcase).
    cbv zeta in Hcase. rewrite Hrun in Hcase. cbn [fst snd] in Hcase.
    assert (Hresp : PrintagoClient.folder_cache c1
                    = PrintagoClient.folder_cache c
                    ∨ (respond (PrintagoClient.remote c) GetFolders).1
                      = OkFolders folders).
    { destruct (respond _ _).1 as [| |? |folders'|? |? ?].
      - by destruct Hcase as [[=] _].
      - left. by destruct Hcase as [_ ?].
      - by destruct Hcase as [[=] _].
      - right. by destruct Hcase as [[= ->]|[=]].
      - by destruct Hcase as [[=] _].
      - by destruct Hcase as [[=] _]. }
    destruct Hresp as [Hsame|Hresp]; [left; by rewrite <-Hsame|].
    pose proof (list_folders_written folders Hids recursion_limit c Hresp)
      as Hw.
    rewrite Hrun in Hw. exact (Hw (path, id) Hin).
Qed.

Lemma list_folders_caches_the_rooted_paths_witness :
  let c1 := (PrintagoClient.list_folders 1000 Sample.client_listing_X_XY).2 in
  (∀ id path, rooted_path Sample.folders_X_XY id path →
              path ∈ Dict.keys (PrintagoClient.folder_cache c1))
  ∧ (∀ path id,
       (path, id) ∈ Dict.items (PrintagoClient.folder_cache c1) →
       (path, id)
         ∈ Dict.items (PrintagoClient.folder_cache Sample.client_listing_X_XY)
       ∨ rooted_path Sample.folders_X_XY id path).
Proof.
  apply (list_folders_caches_the_rooted_paths 1000
           Sample.client_listing_X_XY Sample.folders_X_XY).
  - apply (bool_decide_unpack _). vm_compute. exact I.
  - reflexivity.
Defined.

Section GetFolderPath.
Import DeleteEmptyFolders.
Variable folders : list Folder.
Hypothesis Hids : NoDup (folder_id <$> folders).

Lemma list_find_listed f :
  f ∈ folders →
  ∃ i, list_find (λ g, g.(folder_id) = f.(folder_id)) folders = Some (i, f).
Proof.
  intros Hf.
  destruct (list_find (λ g, g.(folder_id) = f.(folder_id)) folders)
    as [[i g]|] eqn:Hfind.
  - apply list_find_Some in Hfind as (Hi & Hid & _).
    exists i. do 2 f_equal.
    apply (same_id_same_folder folders Hids); [|done..].
    by eapply list_elem_of_lookup_2.
  - exfalso. apply list_find_None in Hfind. rewrite Forall_forall in Hfind.
    by apply (Hfind f).
Qed.

(** More depth does not change what [get_folder_path] returns. *)
Lemma get_folder_path_mono depth : ∀ limit id path,
  depth ≤ limit →
  get_folder_path depth folders id = Some path →
  get_folder_path limit folders id = Some path.
Proof.
  clear Hids. induction depth as [|depth IH]; intros limit id path Hle;
    [done|].
  destruct limit as [|limit]; [lia|]. cbn [get_folder_path].
  destruct (negb (id_truthy id)); [done|].
  destruct (list_find _ folders) as [[i f]|]; [|done].
  destruct (negb (id_truthy (folder_parentId f))); [done|].
  destruct (get_folder_path depth folders (folder_parentId f))
    as [parent_path|] eqn:Hparent; [|done].
  by rewrite (IH limit _ _ ltac:(lia) Hparent).
Qed.

Lemma rooted_path_nonempty id path :
  Forall (λ f, f.(folder_name) ≠ []) folders →
  rooted_path folders id path → path ≠ [].
Proof.
  clear Hids. intros Hnames. rewrite Forall_forall in Hnames.
  destruct 1 as [f Hf _|f parent_path Hf _ _]; [by apply Hnames|].
  by destruct parent_path.
Qed.

(** X26. For a listing with distinct, truthy folder identifiers and
    non-empty names, and a folder whose chain of parents ends in a folder
    without parent, [get_folder_path] of the clean-up script returns, for
    every recursion limit from some depth on, the path of the folder: the
    one [list_folders] caches for it. *)
Theorem get_folder_path_follows_parents id path :
  Forall (λ f, id_truthy f.(folder_id) = true ∧ f.(folder_name) ≠ [])
    folders →
  rooted_path folders id path →
  ∃ depth, ∀ limit,
    depth ≤ limit → get_folder_path limit folders id = Some path.
Proof.
  intros Hgood.
  assert (Hnames : Forall (λ f, f.(folder_name) ≠ []) folders).
  { eapply Forall_impl; [exact Hgood|]. by intros f [_ ?]. }
  rewrite Forall_forall in Hgood.
  induction 1 as [f Hf Hroot|f parent_path Hf Ht Hparent IH].
  - exists 1. intros limit Hle.
    apply (get_folder_path_mono 1); [done|]. cbn [get_folder_path].
    destruct (Hgood f Hf) as [-> _]. cbn [negb].
    destruct (list_find_listed f Hf) as [i ->].
    by rewrite Hroot.
  - destruct IH as [depth IH]. exists (S depth). intros limit Hle.
    apply (get_folder_path_mono (S depth)); [done|]. cbn [get_folder_path].
    destruct (Hgood f Hf) as [-> _]. cbn [negb].
    destruct (list_find_listed f Hf) as [i ->].
    rewrite Ht. cbn [negb]. rewrite (IH depth) by done. simpl.
    pose proof (rooted_path_nonempty _ _ Hnames Hparent).
    by destruct parent_path.
Qed.

End GetFolderPath.

Lemma get_folder_path_follows_parents_witness :
  ∃ depth, ∀ limit,
    depth ≤ limit →
    DeleteEmptyFolders.get_folder_path limit Sample.folders_X_XY
      (Some (str "fxy")) = Some (str "X/Y").
Proof.
  apply (get_folder_path_follows_parents Sample.folders_X_XY).
  - apply (bool_decide_unpack _). vm_compute. exact I.
  - repeat constructor; discriminate.
  - apply (rooted_child Sample.folders_X_XY
             {| folder_id := Some (str "fxy"); folder_name := str "Y";
                folder_parentId := Some (str "fx") |} (str "X")).
    + constructor 2. constructor 1.
    + reflexivity.
    + apply (rooted_root Sample.folders_X_XY
               {| folder_id := Some (str "fx"); folder_name := str "X";
                  folder_parentId := None |}).
      * constructor 1.
      * reflexivity.
Defined.

Section ListFoldersTotal.
Import PrintagoClient.
Context {R : Type} `{RemoteStore R}.
Variable folders : list Folder.
Hypothesis Hids : NoDup (folder_id <$> folders).
Implicit Types (c : Client R) (chain : list pyid).

Lemma parent_unique a b b' :
  parent_of folders a b → parent_of folders a b' → b = b'.
Proof.
  intros (f & Hf & Hid & <-) (g & Hg & Hid' & <-).
  by rewrite (same_id_same_folder folders Hids f g Hf Hg) by congruence.
Qed.

Lemma chain_closed chain a p :
  chain_ok folders chain → a ∈ chain →
  parent_of folders a p → id_truthy p = true →
  p ∈ chain.
Proof.
  induction chain as [|x [|y rest] IH]; intros Hok Hin Hp Ht.
  - by apply elem_of_nil in Hin.
  - apply list_elem_of_singleton in Hin as ->. simpl in Hok.
    by rewrite (parent_unique _ _ _ Hp Hok) in Ht.
  - destruct Hok as (Hxy & Hy & Hok).
    apply elem_of_cons in Hin as [->|Hin].
    + rewrite (parent_unique _ _ _ Hp Hxy). apply elem_of_cons. right.
      apply elem_of_cons. by left.
    + apply elem_of_cons. right. by apply IH.
Qed.

Lemma child_fresh id rest child :
  chain_ok folders (id :: rest) → NoDup (id :: rest) →
  parent_of folders child id → id_truthy id = true →
  child ∉ id :: rest.
Proof.
  intros Hok Hnd Hp Ht Hin. apply NoDup_cons in Hnd as [Hid _].
  apply Hid. apply elem_of_cons in Hin as [->|Hin].
  - destruct rest as [|b rest].
    + simpl in Hok. by rewrite (parent_unique _ _ _ Hp Hok) in Ht.
    + destruct Hok as (Hb & _ & _).
      rewrite (parent_unique _ _ _ Hp Hb). apply elem_of_cons. by left.
  - apply (chain_closed rest child); [|done..].
    destruct rest as [|b rest]; [done|]. by destruct Hok as (_ & _ & ?).
Qed.

(** A fold of steps that return returns. *)
Lemma foldl_bind_returns {A} (f : A → M R unit) (l : list A) :
  (∀ a c, a ∈ l → ∃ c', f a c = (Return tt, c')) →
  ∀ (m : M R unit) c,
    (∃ c', m c = (Return tt, c')) →
    ∃ c', foldl (λ (acc : M R unit) a, _ ← acc; f a) m l c = (Return tt, c').
Proof.
  induction l as [|a l IH]; intros Hf m c Hm; [done|].
  cbn [foldl]. apply IH.
  - intros a' c0 Ha'. apply Hf. apply elem_of_cons. by right.
  - destruct Hm as [c0 Hm]. rewrite bind_run, Hm.
    apply Hf. apply elem_of_cons. by left.
Qed.

Lemma build_path_returns depth : ∀ id rest path_parts c,
  chain_ok folders (id :: rest) → NoDup (id :: rest) →
  (∀ x, x ∈ id :: rest → x ∈ folder_id <$> folders) →
  length folders < depth + length (id :: rest) →
  ∃ c',
    build_path depth (id_to_folder_of folders) (id_to_children_of folders)
      id path_parts c = (Return tt, c').
Proof.
  induction depth as [|depth IH];
    intros id rest path_parts c Hok Hnd Hsub Hlen.
  - exfalso. apply NoDup_submseteq in Hsub; [|done].
    apply submseteq_length in Hsub. rewrite length_fmap in Hsub. simpl in *.
    lia.
  - cbn [build_path].
    destruct (Dict.get (id_to_folder_of folders) id) as [f|] eqn:Hf;
      [|by eexists].
    unfold mbind at 1 2, M_bind at 1 2, bind at 1 2, get_cache, put_cache,
      with_cache.
    cbn [folder_cache remote trace].
    apply foldl_bind_returns; [|by eexists].
    intros child c0 Hchild.
    apply id_to_children_elem in Hchild as (Ht & g & Hg & Hgid & Hparent).
    assert (Hp : parent_of folders child id) by (by exists g).
    apply (IH child (id :: rest)).
    + change (parent_of folders child id ∧ id_truthy id = true
              ∧ chain_ok folders (id :: rest)). done.
    + apply NoDup_cons. split; [by apply child_fresh|done].
    + intros x Hx. apply elem_of_cons in Hx as [->|Hx]; [|by apply Hsub].
      rewrite <-Hgid. by apply list_elem_of_fmap_2.
    + simpl in *. lia.
Qed.

(** X27. For a listing with distinct folder identifiers and a recursion
    limit of at least the number of folders, [list_folders] returns the
    listing: the recursion of [build_path] never exceeds the limit. *)
Theorem list_folders_returns_within_limit (recursion_limit : nat) c :
  length folders ≤ recursion_limit →
  (respond (remote c) GetFolders).1 = OkFolders folders →
  (list_folders recursion_limit c).1 = Return folders.
Proof.
  intros Hlen. unfold list_folders, rewrap. rewrite bind_run. unfold send.
  destruct (respond (remote c) GetFolders) as [resp r']. cbn [fst].
  intros ->.
  set (c1 := {| folder_cache := folder_cache c; remote := r';
                trace := trace c ++ [GetFolders] |}).
  rewrite bind_run.
  pose (step := λ folder : Folder,
          if decide (folder.(folder_parentId) = None)
          then build_path recursion_limit (id_to_folder_of folders)
                 (id_to_children_of folders) folder.(folder_id) []
          else (ret tt : M R unit)).
  assert (Hsteps : ∀ (f : Folder) c0, f ∈ folders →
            ∃ c', step f c0 = (Return tt, c')).
  { intros f c0 Hf. unfold step.
    destruct (decide _) as [Hroot|]; [|by eexists].
    apply (build_path_returns recursion_limit (folder_id f) []).
    - simpl. by exists f.
    - apply NoDup_singleton.
    - intros x Hx. apply list_elem_of_singleton in Hx as ->.
      by apply list_elem_of_fmap_2.
    - simpl. lia. }
  destruct (foldl_bind_returns step folders Hsteps (ret tt) c1
              (ex_intro _ c1 eq_refl)) as [c2 Hfold].
  unfold step in Hfold. by rewrite Hfold.
Qed.

End ListFoldersTotal.

Lemma list_folders_returns_within_limit_witness :
  (PrintagoClient.list_folders 2 Sample.client_listing_X_XY).1
  = Return Sample.folders_X_XY.
Proof.
  apply (list_folders_returns_within_limit Sample.folders_X_XY).
  - apply (bool_decide_unpack _). vm_compute. exact I.
  - simpl. lia.
  - reflexivity.
Defined.
